(** * Task orchestration core of agents_demo

    A shallow embedding of the two coordinators of the repository:

    - [Core]: agents_test1/core/base.py, agents_test1/core/coordinator.py
      (Message, Agent, AgentRegistry, Task, TaskRegistry, TaskManager,
      Coordinator) and, of agents_test1/core/multi_agent_system.py, the
      delivery of the MessageBus and the MemoryModule;
    - [BusinessAnalysis]: agents_test3/business_analysis/agents
      (BaseAgent, CoordinatorAgent) and models/message.py.

    Python objects are mutable and shared by reference.  A Task object is
    created only by [create_task], which registers it under its id, and
    nothing in the repository calls [unregister]; a reference to a Task is
    therefore modelled as its key in the registry, and every mutation of a
    Task is a write to the registry entry.  Agents are treated the same way.

    The two effects that are not functions of the program state are made
    explicit inputs: [uuid.uuid4()] is an oracle for identifiers and
    [datetime.now()] an oracle for clock readings. *)

From stdpp Require Import gmap strings list fin_maps.

Open Scope string_scope.
Open Scope list_scope.
Open Scope nat_scope.

(** ** Python values *)

(** The values that travel as [Any]: task parameters, task results and
    message contents.  A [dict] with string keys is a finite map; the
    insertion order of its keys is not modelled. *)
#[warnings="-register-all"]
Inductive pyval : Type :=
  | PNone
  | PBool (b : bool)
  | PInt (z : Z)
  | PStr (s : string)
  | PList (l : list pyval)
  | PDict (d : gmap string pyval).

(** [d.get(k, default)] *)
Definition dict_get_default (d : gmap string pyval) (k : string) (dflt : pyval) : pyval :=
  default dflt (d !! k).

(** Exceptions that the modelled code can raise. *)
Inductive exn : Type :=
  | AttributeError (attr : string)
  | TypeError
  | RecursionError.

(** The outcome of a call: a value, a raised exception, or [Unmodelled] when
    the call falls outside the model: an argument violates the type
    annotations of the function it flows into (the annotations are taken as
    the domain of the model), or a Task reference names no registered
    object. *)
Inductive outcome (A : Type) : Type :=
  | Ret (a : A)
  | Raise (e : exn)
  | Unmodelled.
Arguments Ret {A} a.
Arguments Raise {A} e.
Arguments Unmodelled {A}.

Global Instance outcome_ret : MRet outcome := λ A a, Ret a.
Global Instance outcome_bind : MBind outcome := λ A B f c,
  match c with
  | Ret a => f a
  | Raise e => Raise e
  | Unmodelled => Unmodelled
  end.

(** [v == s] for a string [s]. *)
Definition is_str (v : pyval) (s : string) : bool :=
  match v with
  | PStr s' => bool_decide (s' = s)
  | _ => false
  end.

(** ** Insertion-ordered dictionaries

    Where the iteration order of a [dict] decides a result (the order in
    which agents are tried), the dictionary is an association list with
    Python's update rule: assigning to a present key keeps its position,
    assigning to a new key appends it. *)
Module PyDict.
Section ordered.
Context {V : Type}.

Fixpoint get (k : string) (d : list (string * V)) : option V :=
  match d with
  | [] => None
  | (k', v) :: d' => if decide (k' = k) then Some v else get k d'
  end.

Fixpoint set (k : string) (v : V) (d : list (string * V)) : list (string * V) :=
  match d with
  | [] => [(k, v)]
  | (k', v') :: d' =>
      if decide (k' = k) then (k, v) :: d' else (k', v') :: set k v d'
  end.

Fixpoint del (k : string) (d : list (string * V)) : list (string * V) :=
  match d with
  | [] => []
  | (k', v') :: d' => if decide (k' = k) then d' else (k', v') :: del k d'
  end.

Definition values (d : list (string * V)) : list V := d.*2.

End ordered.
End PyDict.

(** [min(l, key=f)]: the first element whose key is smallest. *)
Fixpoint py_min_from {A : Type} (key : A → nat) (best : A) (l : list A) : A :=
  match l with
  | [] => best
  | x :: l' => py_min_from key (if decide (key x < key best) then x else best) l'
  end.

Definition py_min {A : Type} (key : A → nat) (l : list A) : option A :=
  match l with
  | [] => None
  | x :: l' => Some (py_min_from key x l')
  end.

(** Truth value of an optional string ([None] and the empty string are
    false), as in [if task.parent_task_id:]. *)
Definition truthy (o : option string) : bool :=
  match o with
  | Some s => negb (bool_decide (s = ""))
  | None => false
  end.

(** * agents_test1/core *)
Module Core.

(** ** base.py *)

Record Message : Type := mkMessage {
  sender : string;
  receiver : string;
  content : pyval;
  msg_type : string
}.

Record Agent : Type := mkAgent {
  agent_id : string;
  agent_type : string;
  message_queue : list Message
}.

(** [Agent.receive_message] *)
Definition receive_message (m : Message) (a : Agent) : Agent :=
  if decide (receiver m = agent_id a)
  then mkAgent (agent_id a) (agent_type a) (message_queue a ++ [m])
  else a.

(** [Agent.send_message] only builds the message. *)
Definition send_message (self_id rcv : string) (c : pyval) (ty : string) : Message :=
  mkMessage self_id rcv c ty.

(** ** coordinator.py: Task *)

Record Task : Type := mkTask {
  task_id : string;
  task_type : string;
  params : pyval;
  priority : Z;
  status : string;
  result : pyval;
  created_at : nat;
  started_at : option nat;
  completed_at : option nat;
  assigned_agent : option string;
  parent_task_id : option string;
  subtasks : list string
}.

(** [Task.__init__] *)
Definition Task_init (tid ty : string) (ps : pyval) (prio : Z) (now : nat) : Task :=
  mkTask tid ty ps prio "pending" PNone now None None None None [].

Definition with_status (st : string) (t : Task) : Task :=
  mkTask (task_id t) (task_type t) (params t) (priority t) st (result t)
         (created_at t) (started_at t) (completed_at t) (assigned_agent t)
         (parent_task_id t) (subtasks t).

Definition with_result (r : pyval) (t : Task) : Task :=
  mkTask (task_id t) (task_type t) (params t) (priority t) (status t) r
         (created_at t) (started_at t) (completed_at t) (assigned_agent t)
         (parent_task_id t) (subtasks t).

Definition with_started_at (n : option nat) (t : Task) : Task :=
  mkTask (task_id t) (task_type t) (params t) (priority t) (status t) (result t)
         (created_at t) n (completed_at t) (assigned_agent t)
         (parent_task_id t) (subtasks t).

Definition with_completed_at (n : option nat) (t : Task) : Task :=
  mkTask (task_id t) (task_type t) (params t) (priority t) (status t) (result t)
         (created_at t) (started_at t) n (assigned_agent t)
         (parent_task_id t) (subtasks t).

Definition with_assigned_agent (a : option string) (t : Task) : Task :=
  mkTask (task_id t) (task_type t) (params t) (priority t) (status t) (result t)
         (created_at t) (started_at t) (completed_at t) a
         (parent_task_id t) (subtasks t).

Definition with_parent_task_id (p : option string) (t : Task) : Task :=
  mkTask (task_id t) (task_type t) (params t) (priority t) (status t) (result t)
         (created_at t) (started_at t) (completed_at t) (assigned_agent t)
         p (subtasks t).

Definition with_subtasks (l : list string) (t : Task) : Task :=
  mkTask (task_id t) (task_type t) (params t) (priority t) (status t) (result t)
         (created_at t) (started_at t) (completed_at t) (assigned_agent t)
         (parent_task_id t) l.

(** ** The contents of the two registries

    [tasks] is [TaskRegistry.tasks]; only lookups and the number of matching
    values are ever used, so a finite map is enough.  [agents] is
    [AgentRegistry.agents], whose iteration order matters. *)
Record System : Type := mkSystem {
  tasks : gmap string Task;
  agents : list (string * Agent)
}.

Definition with_tasks (m : gmap string Task) (s : System) : System :=
  mkSystem m (agents s).

Definition with_agents (l : list (string * Agent)) (s : System) : System :=
  mkSystem (tasks s) l.

(** [AgentRegistry.register], [unregister], [get_agent], [get_agents_by_type] *)
Definition AgentRegistry_register (a : Agent) (s : System) : System :=
  with_agents (PyDict.set (agent_id a) a (agents s)) s.

Definition AgentRegistry_unregister (aid : string) (s : System) : System :=
  with_agents (PyDict.del aid (agents s)) s.

Definition get_agent (aid : string) (s : System) : option Agent :=
  PyDict.get aid (agents s).

Definition get_agents_by_type (ty : string) (s : System) : list Agent :=
  filter (λ a, agent_type a = ty) (PyDict.values (agents s)).

(** [TaskRegistry.register], [unregister], [get_task], [get_tasks_by_*] *)
Definition TaskRegistry_register (t : Task) (s : System) : System :=
  with_tasks (<[task_id t := t]> (tasks s)) s.

Definition TaskRegistry_unregister (tid : string) (s : System) : System :=
  with_tasks (delete tid (tasks s)) s.

Definition get_task (tid : string) (s : System) : option Task :=
  tasks s !! tid.

Definition all_tasks (s : System) : list Task := (map_to_list (tasks s)).*2.

Definition get_tasks_by_status (st : string) (s : System) : list Task :=
  filter (λ t, status t = st) (all_tasks s).

Definition get_tasks_by_type (ty : string) (s : System) : list Task :=
  filter (λ t, task_type t = ty) (all_tasks s).

Definition get_tasks_by_agent (aid : string) (s : System) : list Task :=
  filter (λ t, assigned_agent t = Some aid) (all_tasks s).

(** In-place mutation of the Task object registered under [tid]. *)
Definition update_task (tid : string) (f : Task → Task) (s : System) : System :=
  with_tasks (alter f tid (tasks s)) s.

(** ** TaskManager *)

(** [TaskManager.task_type_to_agent_type] *)
Definition task_type_to_agent_type (ty : string) : option string :=
  if decide (ty = "market_analysis") then Some "market_trend_analysis_agent"
  else if decide (ty = "selling_point_analysis") then Some "selling_point_analysis_agent"
  else if decide (ty = "competitor_analysis") then Some "competitor_analysis_agent"
  else if decide (ty = "price_analysis") then Some "price_analysis_agent"
  else if decide (ty = "comprehensive_analysis") then Some "comprehensive_analysis_agent"
  else None.

(** [create_task]: [tid] is the identifier drawn from [uuid4], [now] the
    clock reading taken by [Task.__init__]. *)
Definition create_task (tid : string) (now : nat) (ty : string) (ps : pyval)
    (prio : Z) (s : System) : Task * System :=
  let t := Task_init tid ty ps prio now in
  (t, TaskRegistry_register t s).

(** A subtask specification: its ["task_type"] and ["params"] entries. *)
Record Spec : Type := mkSpec {
  spec_task_type : string;
  spec_params : pyval
}.

(** The loop of [decompose_task].  [uuid i] and [clock i] are the identifier
    and clock reading drawn in iteration [i]; the accumulator is the list of
    created subtasks.  [task.priority], [task.task_id] and [task.subtasks] are
    read from the registered object, as the loop sees every earlier append. *)
Fixpoint decompose_loop (uuid : nat → string) (clock : nat → nat) (i : nat)
    (parent : string) (specs : list Spec) (s : System) : list Task * System :=
  match specs with
  | [] => ([], s)
  | spec :: rest =>
      let prio := from_option priority 1%Z (get_task parent s) in
      let '(sub, s1) :=
        create_task (uuid i) (clock i) (spec_task_type spec) (spec_params spec) prio s in
      let s2 := update_task (task_id sub) (with_parent_task_id (Some parent)) s1 in
      let s3 := update_task parent (λ t, with_subtasks (subtasks t ++ [task_id sub]) t) s2 in
      let sub' := with_parent_task_id (Some parent) sub in
      let '(subs, s4) := decompose_loop uuid clock (S i) parent rest s3 in
      (sub' :: subs, s4)
  end.

(** [decompose_task].  The result is [None] only when [parent] names no
    registered Task object. *)
Definition decompose_task (uuid : nat → string) (clock : nat → nat)
    (parent : string) (specs : list Spec) (s : System) : option (list Task * System) :=
  _ ← get_task parent s;
  let '(subs, s1) := decompose_loop uuid clock 0 parent specs s in
  let s2 :=
    update_task parent
      (λ t, if decide (status t = "pending") then with_status "decomposed" t else t) s1 in
  Some (subs, s2).

(** The load of an agent as [assign_task] measures it. *)
Definition agent_load (s : System) (a : Agent) : nat :=
  length (get_tasks_by_agent (agent_id a) s).

(** The automatic choice of [assign_task] when no agent is given. *)
Definition choose_agent (t : Task) (s : System) : option string :=
  match task_type_to_agent_type (task_type t) with
  | None => None
  | Some aty => agent_id <$> py_min (agent_load s) (get_agents_by_type aty s)
  end.

(** [assign_task]: [tid] names the Task object, [explicit] is the [agent_id]
    argument, [now] the clock reading.  The message is delivered by
    [agent.receive_message] on the agent found under the chosen id.  The
    result is [None] only when [tid] names no registered Task object. *)
Definition assign_task (now : nat) (tid : string) (explicit : option string)
    (s : System) : option (bool * System) :=
  t ← get_task tid s;
  if decide (status t ≠ "pending") then Some (false, s)
  else
    let chosen :=
      match explicit with
      | Some a => Some a
      | None => choose_agent t s
      end in
    match chosen with
    | None => Some (false, s)
    | Some aid =>
        match get_agent aid s with
        | None => Some (false, s)
        | Some a =>
            let s1 :=
              update_task tid
                (λ t, with_started_at (Some now)
                        (with_status "assigned" (with_assigned_agent (Some aid) t))) s in
            let m :=
              mkMessage "task_manager" aid
                (PDict (<["task_id" := PStr (task_id t)]>
                       (<["task_type" := PStr (task_type t)]>
                       (<["params" := params t]> ∅))))
                "task" in
            Some (true, with_agents (PyDict.set aid (receive_message m a) (agents s1)) s1)
        end
    end.

(** The loop of [_check_parent_task_completion] over [parent_task.subtasks]:
    [None] when some subtask is missing or not completed ([all_completed]
    false), otherwise the dictionary [subtask_results]. *)
Fixpoint collect_results (s : System) (ids : list string)
    (acc : gmap string pyval) : option (gmap string pyval) :=
  match ids with
  | [] => Some acc
  | sid :: rest =>
      match get_task sid s with
      | None => None
      | Some sub =>
          if decide (status sub ≠ "completed") then None
          else collect_results s rest (<[task_type sub := result sub]> acc)
      end
  end.

(** [_check_parent_task_completion].  [depth] is the number of stack frames
    left before Python gives up with [RecursionError] ([None]); [clock k] is
    the clock reading taken at recursion level [k]. *)
Fixpoint _check_parent_task_completion (depth : nat) (clock : nat → nat)
    (parent : string) (s : System) : option System :=
  match depth with
  | 0 => None
  | S depth' =>
      match get_task parent s with
      | None => Some s
      | Some p =>
          match subtasks p with
          | [] => Some s
          | _ :: _ =>
              match collect_results s (subtasks p) ∅ with
              | None => Some s
              | Some subtask_results =>
                  let s1 :=
                    update_task parent
                      (λ t, with_result (PDict subtask_results)
                              (with_completed_at (Some (clock 0))
                                 (with_status "completed" t))) s in
                  if truthy (parent_task_id p)
                  then _check_parent_task_completion depth' (λ k, clock (S k))
                         (default "" (parent_task_id p)) s1
                  else Some s1
              end
          end
      end
  end.

(** [update_task_status]: the returned flag, together with the new state. *)
Definition update_task_status (depth : nat) (clock : nat → nat) (tid st : string)
    (r : pyval) (s : System) : option (bool * System) :=
  match get_task tid s with
  | None => Some (false, s)
  | Some t =>
      let s1 := update_task tid (with_status st) s in
      if decide (st = "completed" ∨ st = "failed") then
        let s2 :=
          update_task tid (λ t, with_result r (with_completed_at (Some (clock 0)) t)) s1 in
        if truthy (parent_task_id t)
        then (λ s3, (true, s3)) <$>
               _check_parent_task_completion depth (λ k, clock (S k))
                 (default "" (parent_task_id t)) s2
        else Some (true, s2)
      else Some (true, s1)
  end.

(** ** Coordinator *)

(** A callback registered with [register_callback] replaces the default
    handling of its message type; it may change the registries, reply, or
    raise. *)
Record Coordinator : Type := mkCoordinator {
  coordinator_id : string;
  callbacks : gmap string (Message → System → outcome (System * option Message))
}.

Definition register_callback (ty : string)
    (cb : Message → System → outcome (System * option Message))
    (co : Coordinator) : Coordinator :=
  mkCoordinator (coordinator_id co) (<[ty := cb]> (callbacks co)).

(** The four subtask specifications of a comprehensive analysis. *)
Definition comprehensive_specs (category start_date end_date : pyval) : list Spec :=
  let base : gmap string pyval :=
    <["category" := category]>
      (<["start_date" := start_date]> (<["end_date" := end_date]> ∅)) in
  [ mkSpec "market_analysis"
      (PDict (<["metrics" := PList [PStr "sales"; PStr "volume"; PStr "market_share"]]> base));
    mkSpec "selling_point_analysis" (PDict base);
    mkSpec "competitor_analysis" (PDict base);
    mkSpec "price_analysis" (PDict base) ].

(** [for subtask in subtasks: self.task_manager.assign_task(subtask)];
    the flags are dropped. *)
Fixpoint assign_all (clock : nat → nat) (i : nat) (subs : list Task)
    (s : System) : option System :=
  match subs with
  | [] => Some s
  | sub :: rest =>
      '(_, s1) ← assign_task (clock i) (task_id sub) None s;
      assign_all clock (S i) rest s1
  end.

(** The ["task_request"] branch of [process_message].  Clock reading 0 and
    identifier 0 go to the request's own task, 1 to 4 to the subtasks, clock
    readings 5 to 8 to their assignment. *)
Definition process_task_request (uuid : nat → string) (clock : nat → nat)
    (co : Coordinator) (m : Message) (s : System) : outcome (System * option Message) :=
  let invalid :=
    Ret (s, Some (send_message (coordinator_id co) (sender m)
                    (PDict {["error" :=
                       PStr "Invalid task request format. Must contain 'task_type' field."]})
                    "error")) in
  match content m with
  | PDict d =>
      match d !! "task_type" with
      | None => invalid
      | Some (PStr ty) =>
          let ps := dict_get_default d "params" (PDict ∅) in
          match dict_get_default d "priority" (PInt 1) with
          | PInt prio =>
              let '(t, s1) := create_task (uuid 0) (clock 0) ty ps prio s in
              if decide (ty = "comprehensive_analysis") then
                match ps with
                | PDict pd =>
                    let specs :=
                      comprehensive_specs (dict_get_default pd "category" (PStr ""))
                        (dict_get_default pd "start_date" (PStr ""))
                        (dict_get_default pd "end_date" (PStr "")) in
                    match decompose_task (λ i, uuid (S i)) (λ i, clock (S i))
                            (task_id t) specs s1 with
                    | None => Unmodelled
                    | Some (subs, s2) =>
                        match assign_all (λ i, clock (5 + i)) 0 subs s2 with
                        | None => Unmodelled
                        | Some s3 =>
                            Ret (s3, Some (send_message (coordinator_id co) (sender m)
                                   (PDict (<["task_id" := PStr (task_id t)]>
                                          (<["status" := PStr "decomposed"]>
                                          (<["subtasks" := PList (PStr ∘ task_id <$> subs)]> ∅))))
                                   "task_response"))
                        end
                    end
                | _ => Raise (AttributeError "get")
                end
              else
                match assign_task (clock 1) (task_id t) None s1 with
                | None => Unmodelled
                | Some (true, s2) =>
                    Ret (s2, Some (send_message (coordinator_id co) (sender m)
                           (PDict (<["task_id" := PStr (task_id t)]>
                                  (<["status" := PStr "assigned"]> ∅)))
                           "task_response"))
                | Some (false, s2) =>
                    Ret (s2, Some (send_message (coordinator_id co) (sender m)
                           (PDict {["error" :=
                              PStr "Failed to assign task. No suitable agent available."]})
                           "error"))
                end
          | _ => Unmodelled
          end
      | Some _ => Unmodelled
      end
  | _ => invalid
  end.

(** The ["task_result"] branch of [process_message]. *)
Definition process_task_result (depth : nat) (clock : nat → nat)
    (co : Coordinator) (m : Message) (s : System) : outcome (System * option Message) :=
  match content m with
  | PDict d =>
      match d !! "task_id" with
      | None => Ret (s, None)
      | Some (PStr tid) =>
          match dict_get_default d "status" (PStr "completed") with
          | PStr st =>
              let r := dict_get_default d "result" PNone in
              match update_task_status depth clock tid st r s with
              | None => Raise RecursionError
              | Some (_, s1) =>
                  match get_task tid s1 with
                  | None => Ret (s1, None)
                  | Some t =>
                      if truthy (parent_task_id t) then Ret (s1, None)
                      else
                        Ret (s1, Some (send_message (coordinator_id co) (sender m)
                               (PDict (<["task_id" := PStr tid]>
                                      (<["status" := PStr st]>
                                      (<["result" := r]> ∅))))
                               "task_completed"))
                  end
              end
          | _ => Unmodelled
          end
      | Some _ => Unmodelled
      end
  | _ => Ret (s, None)
  end.

(** [Coordinator.process_message] *)
Definition process_message (depth : nat) (uuid : nat → string) (clock : nat → nat)
    (co : Coordinator) (m : Message) (s : System) : outcome (System * option Message) :=
  match callbacks co !! msg_type m with
  | Some cb => cb m s
  | None =>
      if decide (msg_type m = "task_request") then process_task_request uuid clock co m s
      else if decide (msg_type m = "task_result") then process_task_result depth clock co m s
      else Ret (s, None)
  end.

(** ** The registries as process-wide singletons

    [TaskRegistry] and [AgentRegistry] keep their only object in the class
    attribute [_instance].  Registry objects live in a heap, addressed by
    their position; a [TaskManager] holds the two addresses it obtained. *)
Record World : Type := mkWorld {
  TaskRegistry_instance : option nat;
  AgentRegistry_instance : option nat;
  task_registries : list (gmap string Task);
  agent_registries : list (list (string * Agent))
}.

(** [TaskRegistry.__new__] *)
Definition TaskRegistry_new (w : World) : nat * World :=
  match TaskRegistry_instance w with
  | None =>
      let a := length (task_registries w) in
      (a, mkWorld (Some a) (AgentRegistry_instance w)
            (task_registries w ++ [∅]) (agent_registries w))
  | Some a => (a, w)
  end.

(** [AgentRegistry.__new__] *)
Definition AgentRegistry_new (w : World) : nat * World :=
  match AgentRegistry_instance w with
  | None =>
      let a := length (agent_registries w) in
      (a, mkWorld (TaskRegistry_instance w) (Some a)
            (task_registries w) (agent_registries w ++ [[]]))
  | Some a => (a, w)
  end.

Record TaskManager : Type := mkTaskManager {
  task_registry : nat;
  agent_registry : nat
}.

(** [TaskManager.__init__] *)
Definition TaskManager_init (w : World) : TaskManager * World :=
  let '(tr, w1) := TaskRegistry_new w in
  let '(ar, w2) := AgentRegistry_new w1 in
  (mkTaskManager tr ar, w2).

(** The registries a manager sees, and a manager's operation run on them. *)
Definition system_of (tm : TaskManager) (w : World) : option System :=
  tr ← task_registries w !! task_registry tm;
  ar ← agent_registries w !! agent_registry tm;
  Some (mkSystem tr ar).

Definition store_system (tm : TaskManager) (s : System) (w : World) : World :=
  mkWorld (TaskRegistry_instance w) (AgentRegistry_instance w)
    (<[task_registry tm := tasks s]> (task_registries w))
    (<[agent_registry tm := agents s]> (agent_registries w)).

Definition through {A : Type} (tm : TaskManager) (f : System → A * System)
    (w : World) : option (A * World) :=
  s ← system_of tm w;
  let '(a, s') := f s in
  Some (a, store_system tm s' w).

(** Every [_instance] slot that is filled points to an allocated object. *)
Definition instances_allocated (w : World) : Prop :=
  (∀ a, TaskRegistry_instance w = Some a → a < length (task_registries w)) ∧
  (∀ a, AgentRegistry_instance w = Some a → a < length (agent_registries w)).

(** ** multi_agent_system.py: MessageBus

    [subscribers] maps a subscription id to an agent object; as elsewhere an
    agent object is named by its key in the agent registry (the system
    subscribes exactly the agents it registers).  The result of a delivery is
    [None] only when a subscription names no registered agent object. *)
Record MessageBus : Type := mkMessageBus {
  subscribers : list (string * string)
}.

(** [MessageBus.subscribe] and [unsubscribe] *)
Definition subscribe (sid : string) (ref : string) (bus : MessageBus) : MessageBus :=
  mkMessageBus (PyDict.set sid ref (subscribers bus)).

Definition unsubscribe (sid : string) (bus : MessageBus) : MessageBus :=
  mkMessageBus (PyDict.del sid (subscribers bus)).

(** [agent.receive_message(message)] on the agent object [ref]. *)
Definition hand_to (ref : string) (m : Message) (s : System) : option System :=
  a ← get_agent ref s;
  Some (with_agents (PyDict.set ref (receive_message m a) (agents s)) s).

(** The broadcast loop of [_deliver_message] over [subscribers.items()]. *)
Fixpoint broadcast (m : Message) (subs : list (string * string)) (s : System)
    : option System :=
  match subs with
  | [] => Some s
  | (sid, ref) :: rest =>
      s1 ← (if decide (sid ≠ sender m) then hand_to ref m s else Some s);
      broadcast m rest s1
  end.

(** [MessageBus._deliver_message] *)
Definition _deliver_message (m : Message) (bus : MessageBus) (s : System) : option System :=
  if decide (receiver m = "broadcast") then broadcast m (subscribers bus) s
  else
    match PyDict.get (receiver m) (subscribers bus) with
    | Some ref => hand_to ref m s
    | None => Some s
    end.

(** ** multi_agent_system.py: MemoryModule

    The state of the one instance that [__new__] hands out.  An entry has the
    keys ['data'], ['metadata'] and ['timestamp'] (a clock reading).  The
    values of a metadata or query dictionary serve as keys of the index; they
    are taken to be strings, and such a dictionary is given as the list of
    its items in iteration order.  [get_recent] is not modelled. *)
Record MemoryEntry : Type := mkMemoryEntry {
  data : pyval;
  metadata : list (string * string);
  timestamp : nat
}.

Record MemoryModule : Type := mkMemoryModule {
  memory : gmap string MemoryEntry;
  index : gmap string (gmap string (list string))
}.

(** The attributes set when the instance is created. *)
Definition MemoryModule_new : MemoryModule := mkMemoryModule ∅ ∅.

(** [self.index[k][v]] where both keys are present. *)
Definition indexed (k v : string) (idx : gmap string (gmap string (list string)))
    : option (list string) :=
  by_value ← idx !! k; by_value !! v.

(** One round of [for k, v in metadata.items()] in [store]. *)
Definition index_add (key : string) (idx : gmap string (gmap string (list string)))
    (kv : string * string) : gmap string (gmap string (list string)) :=
  let by_value := default ∅ (idx !! kv.1) in
  let keys := default [] (by_value !! kv.2) in
  <[kv.1 := <[kv.2 := if bool_decide (key ∈ keys) then keys else keys ++ [key]]> by_value]>
    idx.

(** [MemoryModule.store]; [md] is the metadata, empty when none is given. *)
Definition store (now : nat) (key : string) (d : pyval) (md : list (string * string))
    (self : MemoryModule) : MemoryModule :=
  mkMemoryModule (<[key := mkMemoryEntry d md now]> (memory self))
                 (foldl (index_add key) (index self) md).

(** [MemoryModule.retrieve] *)
Definition retrieve (key : string) (self : MemoryModule) : pyval :=
  match memory self !! key with
  | Some entry => data entry
  | None => PNone
  end.

(** The loop of [search]: [results] and [first_key] are its two variables.
    The returned list enumerates a set, in no specified order; the set is the
    result here. *)
Fixpoint search_loop (idx : gmap string (gmap string (list string)))
    (query : list (string * string)) (first_key : bool) (results : gset string)
    : gset string :=
  match query with
  | [] => results
  | (k, v) :: rest =>
      match indexed k v idx with
      | Some keys =>
          if first_key then search_loop idx rest false (list_to_set keys)
          else search_loop idx rest false (results ∩ list_to_set keys)
      | None => ∅
      end
  end.

(** [MemoryModule.search] *)
Definition search (query : list (string * string)) (self : MemoryModule) : gset string :=
  search_loop (index self) query true ∅.

End Core.

(** * agents_test3/business_analysis *)
Module BusinessAnalysis.

(** ** models/message.py *)
Record Message : Type := mkMessage {
  message_id : string;
  from_agent_id : string;
  to_agent_id : string;
  content : pyval;
  message_type : string;
  reference_id : option string;
  timestamp : nat
}.

(** A task of the coordinator is a dictionary with the keys ['task_id'],
    ['task_type'], ['parameters'], ['required_expertise'] and, optionally,
    ['depends_on']. *)
Record Task : Type := mkTask {
  task_id : string;
  task_type : string;
  parameters : pyval;
  depends_on : option (list string);
  required_expertise : string
}.

(** An entry of [active_tasks]: the keys ['task'], ['status'],
    ['analysis_id'] and, when present, ['error'] and ['assigned_agent']. *)
Record ActiveTask : Type := mkActiveTask {
  task : Task;
  status : string;
  analysis_id : string;
  error : option string;
  assigned_agent : option string
}.

(** The attributes of a [CoordinatorAgent] object ([BaseAgent.__init__] and
    [CoordinatorAgent.__init__]).  [message_handler] records whether a handler
    is set; [handed_over] is the sequence of messages passed to
    [message_handler.send_message]. *)
Record CoordinatorAgent : Type := mkCoordinatorAgent {
  agent_id : string;
  name : string;
  memory : gmap string pyval;
  message_queue : list Message;
  message_handler : bool;
  handed_over : list Message;
  available_agents : list (string * pyval);
  active_tasks : gmap string ActiveTask;
  task_results : gmap string pyval;
  current_analysis_id : option string
}.

(** [CoordinatorAgent.__init__] *)
Definition CoordinatorAgent_init (aid nm : string) : CoordinatorAgent :=
  mkCoordinatorAgent aid nm ∅ [] false [] [] ∅ ∅ None.

Definition with_memory (m : gmap string pyval) (c : CoordinatorAgent) :=
  mkCoordinatorAgent (agent_id c) (name c) m (message_queue c) (message_handler c)
    (handed_over c) (available_agents c) (active_tasks c) (task_results c)
    (current_analysis_id c).

Definition with_message_queue (q : list Message) (c : CoordinatorAgent) :=
  mkCoordinatorAgent (agent_id c) (name c) (memory c) q (message_handler c)
    (handed_over c) (available_agents c) (active_tasks c) (task_results c)
    (current_analysis_id c).

Definition with_handed_over (l : list Message) (c : CoordinatorAgent) :=
  mkCoordinatorAgent (agent_id c) (name c) (memory c) (message_queue c)
    (message_handler c) l (available_agents c) (active_tasks c) (task_results c)
    (current_analysis_id c).

Definition with_available_agents (l : list (string * pyval)) (c : CoordinatorAgent) :=
  mkCoordinatorAgent (agent_id c) (name c) (memory c) (message_queue c)
    (message_handler c) (handed_over c) l (active_tasks c) (task_results c)
    (current_analysis_id c).

Definition with_active_tasks (m : gmap string ActiveTask) (c : CoordinatorAgent) :=
  mkCoordinatorAgent (agent_id c) (name c) (memory c) (message_queue c)
    (message_handler c) (handed_over c) (available_agents c) m (task_results c)
    (current_analysis_id c).

Definition with_current_analysis_id (a : option string) (c : CoordinatorAgent) :=
  mkCoordinatorAgent (agent_id c) (name c) (memory c) (message_queue c)
    (message_handler c) (handed_over c) (available_agents c) (active_tasks c)
    (task_results c) a.

(** ** Attribute lookup

    The names bound on a [CoordinatorAgent] object: the attributes set by the
    two constructors and the methods defined by the class and its base. *)
Definition instance_attributes : list string :=
  ["agent_id"; "name"; "memory"; "message_queue"; "message_handler";
   "available_agents"; "active_tasks"; "task_results"; "current_analysis_id"].

Definition CoordinatorAgent_methods : list string :=
  ["__init__"; "register_agent"; "process_message"; "act";
   "_start_analysis_workflow"; "_decompose_analysis_task"; "_assign_task";
   "_check_dependencies"; "_find_suitable_agent"].

Definition BaseAgent_methods : list string :=
  ["__init__"; "send_message"; "receive_message"; "process_messages";
   "process_message"; "update_memory"; "get_memory"; "act"; "set_message_handler"].

(** [self.<attr>]: instance dictionary, then the class, then its base. *)
Definition getattr (attr : string) : outcome unit :=
  if bool_decide
       (attr ∈ (instance_attributes ++ CoordinatorAgent_methods ++ BaseAgent_methods))
  then Ret ()
  else Raise (AttributeError attr).

(** ** base_agent.py *)

(** [BaseAgent.send_message]: [mid] is the drawn identifier, [now] the clock
    reading. *)
Definition send_message (mid : string) (now : nat) (to : string) (c : pyval)
    (ty : string) (ref : option string) (self : CoordinatorAgent) : CoordinatorAgent :=
  let m := mkMessage mid (agent_id self) to c ty ref now in
  if message_handler self then with_handed_over (handed_over self ++ [m]) self else self.

Definition receive_message (m : Message) (self : CoordinatorAgent) : CoordinatorAgent :=
  with_message_queue (message_queue self ++ [m]) self.

Definition update_memory (k : string) (v : pyval) (self : CoordinatorAgent) : CoordinatorAgent :=
  with_memory (<[k := v]> (memory self)) self.

Definition get_memory (k : string) (self : CoordinatorAgent) : pyval :=
  default PNone (memory self !! k).

Definition set_message_handler (self : CoordinatorAgent) : CoordinatorAgent :=
  mkCoordinatorAgent (agent_id self) (name self) (memory self) (message_queue self)
    true (handed_over self) (available_agents self) (active_tasks self)
    (task_results self) (current_analysis_id self).

(** ** coordinator_agent.py *)

Definition register_agent (aid : string) (info : pyval) (self : CoordinatorAgent) :=
  with_available_agents (PyDict.set aid info (available_agents self)) self.

(** [_check_dependencies] *)
Fixpoint _check_dependencies (deps : list string) (self : CoordinatorAgent)
    : outcome bool :=
  match deps with
  | [] => Ret true
  | dep :: rest =>
      match task_results self !! dep with
      | None => Ret false
      | Some (PDict r) =>
          if is_str (default PNone (r !! "status")) "completed"
          then _check_dependencies rest self
          else Ret false
      | Some _ => Raise (AttributeError "get")
      end
  end.

(** [_find_suitable_agent], over [available_agents.items()] *)
Fixpoint find_in (required : string) (l : list (string * pyval)) : outcome (option string) :=
  match l with
  | [] => Ret None
  | (aid, info) :: rest =>
      match info with
      | PDict d =>
          if is_str (default PNone (d !! "expertise")) required
             && is_str (dict_get_default d "status" (PStr "available")) "available"
          then Ret (Some aid)
          else find_in required rest
      | _ => Raise (AttributeError "get")
      end
  end.

Definition _find_suitable_agent (required : string) (self : CoordinatorAgent)
    : outcome (option string) :=
  find_in required (available_agents self).

(** The dictionary a task is sent as. *)
Definition task_dict (t : Task) : pyval :=
  let d : gmap string pyval :=
    <["task_id" := PStr (task_id t)]>
      (<["task_type" := PStr (task_type t)]>
      (<["parameters" := parameters t]>
      (<["required_expertise" := PStr (required_expertise t)]> ∅))) in
  PDict (match depends_on t with
         | Some deps => <["depends_on" := PList (PStr <$> deps)]> d
         | None => d
         end).

(** [_assign_task] *)
Definition _assign_task (mid : string) (now : nat) (t : Task) (aid : string)
    (self : CoordinatorAgent) : outcome CoordinatorAgent :=
  satisfied ← match depends_on t with
              | Some deps => _check_dependencies deps self
              | None => Ret true
              end;
  if negb satisfied then
    Ret (with_active_tasks
           (<[task_id t := mkActiveTask t "waiting" aid None None]> (active_tasks self)) self)
  else
    suitable ← _find_suitable_agent (required_expertise t) self;
    if negb (truthy suitable) then
      Ret (with_active_tasks
             (<[task_id t := mkActiveTask t "failed" aid (Some "No suitable agent found") None]>
                (active_tasks self)) self)
    else
      let self1 :=
        with_active_tasks
          (<[task_id t := mkActiveTask t "assigned" aid None suitable]> (active_tasks self))
          self in
      Ret (send_message mid now (default "" suitable)
             (PDict (<["task" := task_dict t]> (<["analysis_id" := PStr aid]> ∅)))
             "task_assignment" (Some (task_id t)) self1).

(** [_decompose_analysis_task] *)
Definition _decompose_analysis_task (request : pyval) : outcome (list Task) :=
  match request with
  | PDict d =>
      let analysis_type := default PNone (d !! "analysis_type") in
      let category := default PNone (d !! "category") in
      let time_range := default PNone (d !! "time_range") in
      let collect (types : list string) : pyval :=
        PDict (<["category" := category]>
              (<["time_range" := time_range]>
              (<["data_types" := PList (PStr <$> types)]> ∅))) in
      let analyse (methods dims : list string) : pyval :=
        PDict (<["analysis_methods" := PList (PStr <$> methods)]>
              (<["dimensions" := PList (PStr <$> dims)]> ∅)) in
      let insight (types : list string) : pyval :=
        PDict (<["insight_types" := PList (PStr <$> types)]>
              (<["max_insights" := PInt 5]> ∅)) in
      if is_str analysis_type "市场趋势" then
        Ret [ mkTask "data_collection_1" "data_collection"
                (collect ["market_data"; "sales_data"]) None "market_data";
              mkTask "data_analysis_2" "data_analysis"
                (analyse ["trend_analysis"; "seasonality_analysis"]
                         ["sales"; "market_share"; "growth_rate"])
                (Some ["data_collection_1"]) "market_analysis";
              mkTask "insight_generation_3" "insight_generation"
                (insight ["trend_insights"; "opportunity_insights"; "risk_insights"])
                (Some ["data_analysis_2"]) "business_strategy" ]
      else if is_str analysis_type "竞品分析" then
        Ret [ mkTask "data_collection_1" "data_collection"
                (collect ["competitor_data"; "product_data"]) None "competitor_data";
              mkTask "data_analysis_2" "data_analysis"
                (analyse ["comparative_analysis"; "gap_analysis"]
                         ["price"; "features"; "market_position"])
                (Some ["data_collection_1"]) "competitor_analysis";
              mkTask "insight_generation_3" "insight_generation"
                (insight ["competitive_advantage"; "threat_insights"; "opportunity_insights"])
                (Some ["data_analysis_2"]) "business_strategy" ]
      else Ret []
  | _ => Raise (AttributeError "get")
  end.

(** [for task in tasks: self._assign_task(task, analysis_id)]; iteration [i]
    draws identifier [uuid i] and clock reading [clock i]. *)
Fixpoint assign_each (uuid : nat → string) (clock : nat → nat) (i : nat)
    (ts : list Task) (aid : string) (self : CoordinatorAgent) : outcome CoordinatorAgent :=
  match ts with
  | [] => Ret self
  | t :: rest =>
      self1 ← _assign_task (uuid i) (clock i) t aid self;
      assign_each uuid clock (S i) rest aid self1
  end.

(** [_start_analysis_workflow] *)
Definition _start_analysis_workflow (uuid : nat → string) (clock : nat → nat)
    (m : Message) (self : CoordinatorAgent) : outcome CoordinatorAgent :=
  let aid := message_id m in
  let key := ("analysis_" ++ aid)%string in
  let self1 := with_current_analysis_id (Some aid) self in
  let self2 :=
    update_memory key
      (PDict (<["request" := content m]>
             (<["requester_id" := PStr (from_agent_id m)]>
             (<["status" := PStr "in_progress"]>
             (<["tasks" := PList []]> ∅))))) self1 in
  ts ← _decompose_analysis_task (content m);
  match get_memory key self2 with
  | PDict info =>
      let self3 :=
        update_memory key (PDict (<["tasks" := PList (PStr ∘ task_id <$> ts)]> info)) self2 in
      assign_each uuid clock 0 ts aid self3
  | _ => Raise TypeError
  end.

(** [CoordinatorAgent.process_message] *)
Definition process_message (uuid : nat → string) (clock : nat → nat)
    (m : Message) (self : CoordinatorAgent) : outcome CoordinatorAgent :=
  if decide (message_type m = "analysis_request") then
    _start_analysis_workflow uuid clock m self
  else if decide (message_type m = "task_result") then
    _ ← getattr "_process_task_result";
    Unmodelled
  else if decide (message_type m = "agent_registration") then
    let self1 := register_agent (from_agent_id m) (content m) self in
    Ret (send_message (uuid 0) (clock 0) (from_agent_id m)
           (PDict {["status" := PStr "registered"]})
           "registration_confirmation" (Some (message_id m)) self1)
  else Ret self.

(** [CoordinatorAgent.act] *)
Definition act (self : CoordinatorAgent) : outcome CoordinatorAgent :=
  if truthy (current_analysis_id self) then
    _ ← getattr "_is_analysis_complete";
    Unmodelled
  else Ret self.

(** [BaseAgent.process_messages]: the queue is drained from the front, and a
    message that raises has already been removed.  No method of the
    coordinator appends to its own queue, so the loop runs once per message
    queued at the start; message [k] draws from [uuid k] and [clock k]. *)
Fixpoint drain (uuid : nat → nat → string) (clock : nat → nat → nat) (k : nat)
    (queue : list Message) (self : CoordinatorAgent) : outcome CoordinatorAgent :=
  match queue with
  | [] => Ret self
  | m :: q =>
      self1 ← process_message (uuid k) (clock k) m (with_message_queue q self);
      drain uuid clock (S k) q self1
  end.

Definition process_messages (uuid : nat → nat → string) (clock : nat → nat → nat)
    (self : CoordinatorAgent) : outcome CoordinatorAgent :=
  drain uuid clock 0 (message_queue self) self.

End BusinessAnalysis.

(** * Vocabulary of the properties and the scenarios they are tried on *)
Module CoreSpec.
Import Core.


(** A depth assignment for the decomposition forest: the parent of a task
    lies strictly above it, and every listed subtask strictly below. *)
Definition ranked (rank : string → nat) (s : System) : Prop :=
  map_Forall (λ tid t,
    (truthy (parent_task_id t) → rank (default "" (parent_task_id t)) < rank tid) ∧
    Forall (λ c, rank tid < rank c) (subtasks t)) (tasks s).



(** The links of a task: its parent and its subtask list. *)
Definition links (t : Task) : option string * list string :=
  (parent_task_id t, subtasks t).

(** What the aggregation writes into the parent. *)
Definition aggregated (now : nat) (res : gmap string pyval) (p : Task) : Task :=
  with_result (PDict res) (with_completed_at (Some now) (with_status "completed" p)).

(** What a terminal status report writes into the task. *)
Definition reported (st : string) (r : pyval) (now : nat) (t : Task) : Task :=
  with_result r (with_completed_at (Some now) (with_status st t)).


(** Every agent is registered under its own id. *)
Definition keyed_by_id (s : System) : Prop :=
  Forall (λ ka, ka.1 = agent_id ka.2) (agents s).

(** The identifiers drawn for [n] subtasks are new and pairwise distinct. *)
Definition fresh_ids (uuid : nat → string) (n : nat) (parent : string) (s : System) : Prop :=
  NoDup (uuid <$> seq 0 n) ∧
  Forall (λ i, uuid i ≠ parent ∧ tasks s !! uuid i = None) (seq 0 n).

(** ** Scenarios *)

Definition empty_system : System := mkSystem ∅ [].

Definition drop_ref {A : Type} (s : System) (o : option (A * System)) : System :=
  from_option snd s o.

(** A root task decomposed into one subtask. *)
Definition one_child : System :=
  let s1 := (create_task "root" 0 "comprehensive_analysis" (PDict ∅) 1 empty_system).2 in
  drop_ref s1 (decompose_task (λ _, "child") (λ _, 1) "root"
                 [mkSpec "market_analysis" (PDict ∅)] s1).

(** A root task decomposed into two subtasks. *)
Definition two_children : System :=
  let s1 := (create_task "root" 0 "comprehensive_analysis" (PDict ∅) 1 empty_system).2 in
  drop_ref s1 (decompose_task (λ i, if decide (i = 0) then "child_a" else "child_b")
                 (λ _, 1) "root"
                 [mkSpec "market_analysis" (PDict ∅); mkSpec "price_analysis" (PDict ∅)] s1).

(** A single task with no parent. *)
Definition solo : System :=
  (create_task "solo" 0 "market_analysis" (PDict ∅) 1 empty_system).2.

(** Two market-trend analysts, registered in this order. *)
Definition two_analysts : System :=
  AgentRegistry_register (mkAgent "analyst_2" "market_trend_analysis_agent" [])
    (AgentRegistry_register (mkAgent "analyst_1" "market_trend_analysis_agent" [])
       empty_system).

(** A task created and assigned to a named agent. *)
Definition hand_out (tid : string) (aid : string) (s : System) : System :=
  let s1 := (create_task tid 0 "market_analysis" (PDict ∅) 1 s).2 in
  drop_ref s1 (assign_task 1 tid (Some aid) s1).



(** [analyst_1] holds three tasks, [analyst_2] none; a new task is pending. *)
Definition loaded_and_idle : System :=
  (create_task "job" 3 "market_analysis" (PDict ∅) 1
     (hand_out "t3" "analyst_1"
        (hand_out "t2" "analyst_1"
           (hand_out "t1" "analyst_1" two_analysts)))).2.

(** A coordinator without callbacks. *)
Definition plain_coordinator : Coordinator := mkCoordinator "coordinator" ∅.

(** A worker's report that [tid] completed. *)
Definition report (from tid : string) (r : pyval) : Message :=
  mkMessage from "coordinator"
    (PDict (<["task_id" := PStr tid]>
           (<["status" := PStr "completed"]> (<["result" := r]> ∅))))
    "task_result".


Definition three_levels_rank (tid : string) : nat :=
  if decide (tid = "root") then 0 else if decide (tid = "branch") then 1 else 2.

(** The single task, reported completed. *)
Definition solo_done : System :=
  drop_ref solo (update_task_status 1000 (λ _, 1) "solo" "completed" (PStr "done") solo).

(** One subtask of two reported failed, then the other reported completed. *)
Definition one_failed : System :=
  drop_ref two_children
    (update_task_status 1000 (λ k, 10 + k) "child_a" "failed" (PStr "no data") two_children).

Definition one_failed_one_done : System :=
  drop_ref one_failed
    (update_task_status 1000 (λ k, 20 + k) "child_b" "completed" (PStr "prices") one_failed).

(** The root of [one_child], decomposed a second time with the same
    specification. *)
Definition decomposed_again : System :=
  drop_ref one_child
    (decompose_task (λ _, "second") (λ _, 5) "root"
       [mkSpec "market_analysis" (PDict ∅)] one_child).

(** A manager whose two addresses are allocated. *)
Definition valid_manager (tm : TaskManager) (w : World) : Prop :=
  task_registry tm < length (task_registries w) ∧
  agent_registry tm < length (agent_registries w).

(** A process in which no registry has been constructed yet. *)
Definition fresh_process : World := mkWorld None None [] [].




(** The fields of a task that no status report may touch. *)
Definition identity (t : Task) :=
  (task_id t, task_type t, params t, priority t, created_at t, started_at t,
   assigned_agent t, parent_task_id t, subtasks t).

(** The message [assign_task] builds for a task and an agent id. *)
Definition task_message (t : Task) (aid : string) : Message :=
  mkMessage "task_manager" aid
    (PDict (<["task_id" := PStr (task_id t)]>
           (<["task_type" := PStr (task_type t)]>
           (<["params" := params t]> ∅))))
    "task".

(** The agent registry as [register] and [unregister] keep it: every agent
    under its own id, no id twice. *)
Definition registry_ok (s : System) : Prop :=
  keyed_by_id s ∧ NoDup (agents s).*1.

(** A message content in which the key [k] cannot be read: it is no
    dictionary, or the dictionary has no such key. *)
Definition lacks (k : string) (v : pyval) : Prop :=
  match v with
  | PDict d => d !! k = None
  | _ => True
  end.

(** The two error replies of the coordinator. *)
Definition invalid_request_reply (co : Coordinator) (m : Message) : Message :=
  mkMessage (coordinator_id co) (sender m)
    (PDict {["error" := PStr "Invalid task request format. Must contain 'task_type' field."]})
    "error".

Definition no_agent_reply (co : Coordinator) (m : Message) : Message :=
  mkMessage (coordinator_id co) (sender m)
    (PDict {["error" := PStr "Failed to assign task. No suitable agent available."]})
    "error".

(** Every subscription names a registered agent object. *)
Definition subscriptions_registered (bus : MessageBus) (s : System) : Prop :=
  Forall (λ sr, is_Some (get_agent sr.2 s)) (subscribers bus).

(** The bus of [two_analysts], each agent subscribed under its id. *)
Definition analysts_bus : MessageBus :=
  subscribe "analyst_2" "analyst_2" (subscribe "analyst_1" "analyst_1" (mkMessageBus [])).

(** Every parent and every subtask a task names is registered. *)
Definition closed (s : System) : Prop :=
  map_Forall (λ _ t,
    (truthy (parent_task_id t) → is_Some (get_task (default "" (parent_task_id t)) s)) ∧
    Forall (λ c, is_Some (get_task c s)) (subtasks t)) (tasks s).

(** A decomposition forest: closed, and layered by some depth assignment. *)
Definition forest (s : System) : Prop :=
  closed s ∧ ∃ rank, ranked rank s.

(** The subtask [decompose_task] creates for a specification. *)
Definition subtask_of (parent : string) (prio : Z) (tid : string) (now : nat)
    (spec : Spec) : Task :=
  with_parent_task_id (Some parent)
    (Task_init tid (spec_task_type spec) (spec_params spec) prio now).

(** The fields of a task that an assignment leaves alone. *)
Definition sketch (t : Task) :=
  (task_id t, task_type t, params t, priority t, created_at t, completed_at t,
   result t, parent_task_id t, subtasks t).

(** The reply to a comprehensive request. *)
Definition decomposed_reply (co : Coordinator) (m : Message) (root : string)
    (subs : list string) : Message :=
  mkMessage (coordinator_id co) (sender m)
    (PDict (<["task_id" := PStr root]>
           (<["status" := PStr "decomposed"]>
           (<["subtasks" := PList (PStr <$> subs)]> ∅))))
    "task_response".

(** The specifications of a comprehensive request with parameters [pd]. *)
Definition specs_for (pd : gmap string pyval) : list Spec :=
  comprehensive_specs (dict_get_default pd "category" (PStr ""))
    (dict_get_default pd "start_date" (PStr ""))
    (dict_get_default pd "end_date" (PStr "")).

(** A comprehensive request and the identifiers drawn while it is served. *)
Definition comprehensive_request : Message :=
  mkMessage "user" "coordinator"
    (PDict (<["task_type" := PStr "comprehensive_analysis"]>
           (<["params" := PDict (<["category" := PStr "phones"]> ∅)]> ∅)))
    "task_request".

Definition request_ids (i : nat) : string :=
  default "" (["request"; "part_1"; "part_2"; "part_3"; "part_4"] !! i).

(** ** The memory module *)

(** Key [x] is listed in the index under every item of the query. *)
Definition listed (x : string) (query : list (string * string)) (self : MemoryModule) : Prop :=
  Forall (λ kv, ∃ keys, indexed kv.1 kv.2 (index self) = Some keys ∧ x ∈ keys) query.

(** The index lists only keys that have an entry, and no key twice. *)
Definition index_ok (self : MemoryModule) : Prop :=
  ∀ k v keys, indexed k v (index self) = Some keys →
    NoDup keys ∧ ∀ x, x ∈ keys → is_Some (memory self !! x).

(** A report stored for a category, then stored again for another one. *)
Definition one_report : MemoryModule :=
  store 1 "report" (PStr "first") [("category", "phones"); ("kind", "market")]
    MemoryModule_new.

Definition report_moved : MemoryModule :=
  store 2 "report" (PStr "second") [("category", "laptops")] one_report.


(** The process after a first task manager has been constructed and has
    created a task. *)
Definition early_task_created : World :=
  let '(tm, w1) := TaskManager_init fresh_process in
  default w1 (snd <$> through tm (create_task "early" 1 "market_analysis" (PDict ∅) 1) w1).

(** The task is registered and its status is not pending. *)
Definition not_pending (tid : string) (s : System) : Prop :=
  ∃ t, get_task tid s = Some t ∧ status t ≠ "pending".


(** The pending task of [loaded_and_idle] assigned, then reported running. *)
Definition job_assigned : System :=
  drop_ref loaded_and_idle (assign_task 9 "job" None loaded_and_idle).

Definition job_running : System :=
  drop_ref job_assigned
    (update_task_status 1000 (λ k, 11 + k) "job" "running" PNone job_assigned).

End CoreSpec.

Module BusinessAnalysisSpec.
Import BusinessAnalysis.

(** Every dependency has a recorded result whose status is completed. *)
Definition dependencies_completed (deps : list string) (self : CoordinatorAgent) : Prop :=
  Forall (λ dep, ∃ r, task_results self !! dep = Some (PDict r) ∧
                      r !! "status" = Some (PStr "completed")) deps.

(** The entry [_assign_task] records when no agent is suitable. *)
Definition failed_entry (t : Task) (aid : string) : ActiveTask :=
  mkActiveTask t "failed" aid (Some "No suitable agent found") None.

(** The entry [_assign_task] records for a task it parks. *)
Definition waiting_entry (t : Task) (aid : string) : ActiveTask :=
  mkActiveTask t "waiting" aid None None.

(** ** Scenarios *)

Definition expert (expertise : string) : pyval :=
  PDict {["expertise" := PStr expertise]}.

(** A coordinator with a message handler and one expert for each kind of
    task of a market-trend analysis. *)
Definition staffed : CoordinatorAgent :=
  register_agent "strategy_expert" (expert "business_strategy")
    (register_agent "analysis_expert" (expert "market_analysis")
       (register_agent "data_expert" (expert "market_data")
          (set_message_handler (CoordinatorAgent_init "coordinator_agent_1" "coordinator")))).

Definition trend_request : Message :=
  mkMessage "request_1" "user_interface" "coordinator_agent_1"
    (PDict (<["analysis_type" := PStr "市场趋势"]>
           (<["category" := PStr "phones"]>
           (<["time_range" := PStr "2023"]> ∅))))
    "analysis_request" None 0.

(** The result message an expert sends for a finished task. *)
Definition collection_result : Message :=
  mkMessage "result_1" "data_expert" "coordinator_agent_1"
    (PDict (<["task_id" := PStr "data_collection_1"]>
           (<["analysis_id" := PStr "request_1"]>
           (<["result" := PDict {["rows" := PInt 12]}]> ∅))))
    "task_result" None 7.

Definition draw_id (i : nat) : string :=
  if decide (i = 0) then "message_a" else if decide (i = 1) then "message_b" else "message_c".

(** The coordinator after it has processed the request. *)
Definition started : CoordinatorAgent :=
  match process_message draw_id (λ k, 1 + k) trend_request staffed with
  | Ret c => c
  | _ => staffed
  end.

(** A coordinator that knows no agent, and a task without dependencies. *)
Definition unstaffed : CoordinatorAgent :=
  CoordinatorAgent_init "coordinator_agent_1" "coordinator".

Definition collection_task : Task :=
  mkTask "data_collection_1" "data_collection" (PDict ∅) None "market_data".

(** ** Vocabulary of the coordinator's bookkeeping *)

Definition is_dict (v : pyval) : Prop := ∃ d, v = PDict d.

(** The registered information of an agent suits a required expertise: it
    is a dictionary whose ['expertise'] is the required one and whose
    ['status'] is absent or ['available']. *)
Definition suits (required : string) (info : pyval) : Prop :=
  ∃ d, info = PDict d ∧ d !! "expertise" = Some (PStr required) ∧
       (d !! "status" = None ∨ d !! "status" = Some (PStr "available")).

(** An agent that is looked at and passed over by the search. *)
Definition passed_over (required : string) (p : string * pyval) : Prop :=
  is_dict p.2 ∧ ¬ suits required p.2.

(** The message that tells agent [a] to carry out task [t]. *)
Definition assignment_message (mid : string) (now : nat) (self : CoordinatorAgent)
    (a : string) (t : Task) (aid : string) : Message :=
  mkMessage mid (agent_id self) a
    (PDict (<["task" := task_dict t]> (<["analysis_id" := PStr aid]> ∅)))
    "task_assignment" (Some (task_id t)) now.

(** The confirmation sent for the registration message [m]. *)
Definition confirmation_message (mid : string) (now : nat) (self : CoordinatorAgent)
    (m : Message) : Message :=
  mkMessage mid (agent_id self) (from_agent_id m)
    (PDict {["status" := PStr "registered"]})
    "registration_confirmation" (Some (message_id m)) now.

(** What the coordinator remembers of the analysis started by message [m]
    once it has been decomposed into the tasks [ts]. *)
Definition analysis_record (m : Message) (ts : list Task) : pyval :=
  PDict (<["tasks" := PList (PStr ∘ task_id <$> ts)]>
        (<["request" := content m]>
        (<["requester_id" := PStr (from_agent_id m)]>
        (<["status" := PStr "in_progress"]>
        (<["tasks" := PList []]> ∅))))).

(** The messages the coordinator may hand over. *)
Definition own_dispatch (self : CoordinatorAgent) (m : Message) : Prop :=
  from_agent_id m = agent_id self ∧
  (message_type m = "task_assignment" ∨ message_type m = "registration_confirmation").

(** The coordinator after it has assigned the collection task. *)
Definition collection_assigned : CoordinatorAgent :=
  match _assign_task "message_a" 1 collection_task "request_1" staffed with
  | Ret c => c
  | _ => staffed
  end.

(** A registration message, and a coordinator with two messages waiting. *)
Definition registration : Message :=
  mkMessage "hello_1" "price_expert" "coordinator_agent_1" (expert "pricing")
    "agent_registration" None 3.

Definition inbox : CoordinatorAgent :=
  receive_message trend_request (receive_message registration staffed).

Definition inbox_done : CoordinatorAgent :=
  match process_messages (λ _, draw_id) (λ _ k, 1 + k) inbox with
  | Ret c => c
  | _ => inbox
  end.

(** A request of a type the coordinator does not know. *)
Definition survey_request : Message :=
  mkMessage "request_2" "user_interface" "coordinator_agent_1"
    (PDict (<["analysis_type" := PStr "survey"]> ∅))
    "analysis_request" None 0.

(** The tasks of the market-trend request, and the first of them. *)
Definition trend_tasks : list Task :=
  match _decompose_analysis_task (content trend_request) with
  | Ret ts => ts
  | _ => []
  end.

Definition trend_collection : Task :=
  default collection_task (trend_tasks !! 0).

End BusinessAnalysisSpec.

(** * Properties of agents_test1/core *)
Module CoreFacts.
Import Core CoreSpec.

(** ** Registry lookups *)

Lemma get_task_update_eq tid f s :
  get_task tid (update_task tid f s) = f <$> get_task tid s.
Proof. unfold get_task, update_task; simpl. by rewrite lookup_alter_eq. Qed.

Lemma get_task_update_ne tid tid' f s :
  tid ≠ tid' → get_task tid' (update_task tid f s) = get_task tid' s.
Proof. intros Hne. unfold get_task, update_task; simpl. by rewrite lookup_alter_ne. Qed.

Lemma update_task_compose tid f g s :
  update_task tid f (update_task tid g s) = update_task tid (f ∘ g) s.
Proof.
  unfold update_task, with_tasks; simpl. f_equal.
  apply map_eq. intros k. destruct (decide (tid = k)) as [->|Hne].
  - rewrite !lookup_alter_eq. by destruct (tasks s !! k).
  - by rewrite !lookup_alter_ne.
Qed.

Lemma update_task_ext tid f g s :
  (∀ t, f t = g t) → update_task tid f s = update_task tid g s.
Proof.
  intros Hfg. unfold update_task, with_tasks. f_equal.
  apply map_eq. intros k. destruct (decide (tid = k)) as [->|Hne].
  - rewrite !lookup_alter_eq. destruct (tasks s !! k); simpl; by rewrite ?Hfg.
  - by rewrite !lookup_alter_ne.
Qed.

Lemma agents_update_task tid f s : agents (update_task tid f s) = agents s.
Proof. reflexivity. Qed.

(** ** The loop over the subtasks *)

Lemma collect_results_blocked s ids acc c t :
  c ∈ ids → get_task c s = Some t → status t ≠ "completed" →
  collect_results s ids acc = None.
Proof.
  intros Hin Hc Hst. revert acc.
  induction ids as [|sid rest IH]; intros acc; [by apply elem_of_nil in Hin|].
  simpl. destruct (decide (sid = c)) as [->|Hne].
  - rewrite Hc. by rewrite decide_True.
  - apply elem_of_cons in Hin as [->|Hin]; [done|].
    destruct (get_task sid s) as [sub|]; [|done].
    destruct (decide (status sub ≠ "completed")); [done|]. by apply IH.
Qed.



(** ** Status updates *)

Lemma reported_compose st r now tid s :
  update_task tid (λ t, with_result r (with_completed_at (Some now) t))
    (update_task tid (with_status st) s) =
  update_task tid (reported st r now) s.
Proof. rewrite update_task_compose. by apply update_task_ext. Qed.

(** C3, as amended: [update_task_status] checks no transition.  For a
    registered task in any status, completed and failed included, a report of
    a status that is neither completed nor failed, or any report for a task
    without a parent, stores the reported status and leaves every other task
    alone. *)
Theorem update_task_status_overwrites depth clock tid st r s t :
  get_task tid s = Some t →
  (st ≠ "completed" ∧ st ≠ "failed") ∨ truthy (parent_task_id t) = false →
  ∃ s', update_task_status depth clock tid st r s = Some (true, s') ∧
        status <$> get_task tid s' = Some st ∧
        ∀ tid', tid' ≠ tid → get_task tid' s' = get_task tid' s.
Proof.
  intros Ht Hcase. unfold update_task_status. rewrite Ht.
  destruct (decide (st = "completed" ∨ st = "failed")) as [Hterm|Hnon].
  - destruct Hcase as [[Hc Hf]|Hroot]; [by destruct Hterm|].
    rewrite Hroot, reported_compose. eexists. split; [done|]. split.
    + by rewrite get_task_update_eq, Ht.
    + intros tid' Hne. by rewrite get_task_update_ne.
  - eexists. split; [done|]. split.
    + by rewrite get_task_update_eq, Ht.
    + intros tid' Hne. by rewrite get_task_update_ne.
Qed.

Lemma update_task_status_overwrites_witness :
  status <$> get_task "solo" solo_done = Some "completed" ∧
  ∃ s', update_task_status 1000 (λ _, 2) "solo" "pending" PNone solo_done = Some (true, s') ∧
        status <$> get_task "solo" s' = Some "pending" ∧
        ∀ tid', tid' ≠ "solo" → get_task tid' s' = get_task tid' solo_done.
Proof.
  split; [vm_compute; reflexivity|].
  eapply (update_task_status_overwrites 1000 (λ _, 2) "solo" "pending" PNone solo_done).
  - vm_compute; reflexivity.
  - left. split; discriminate.
Defined.

(** C3, as stated, fails: a task that is completed is pending again after a
    later status update for the same id. *)
Lemma completed_task_reopened :
  status <$> get_task "solo" solo_done = Some "completed" ∧
  (snd <$> update_task_status 1000 (λ _, 2) "solo" "pending" PNone solo_done)
    ≫= (λ s', status <$> get_task "solo" s') = Some "pending".
Proof. split; vm_compute; reflexivity. Qed.

(** C2, as amended: a failure report for a subtask that its parent lists
    changes the subtask alone (status, result and completion stamp); the
    parent is not marked failed, whatever its other subtasks do. *)
Theorem failed_child_leaves_parent depth clock tid r s t pid p :
  get_task tid s = Some t →
  parent_task_id t = Some pid →
  get_task pid s = Some p →
  tid ∈ subtasks p →
  0 < depth →
  update_task_status depth clock tid "failed" r s =
    Some (true, update_task tid (reported "failed" r (clock 0)) s) ∧
  (tid ≠ pid →
   get_task pid (update_task tid (reported "failed" r (clock 0)) s) = Some p).
Proof.
  intros Ht Hparent Hp Hin Hdepth. split; [|intros Hne; by rewrite get_task_update_ne].
  unfold update_task_status. rewrite Ht, decide_True by (by right).
  rewrite reported_compose, Hparent. destruct (truthy (Some pid)); [|done].
  destruct depth as [|depth]; [lia|]. simpl.
  set (s2 := update_task tid _ s).
  assert (∃ p', get_task pid s2 = Some p' ∧ subtasks p' = subtasks p) as (p' & Hp' & Hsub).
  { subst s2. destruct (decide (tid = pid)) as [->|Hne].
    - rewrite get_task_update_eq, Hp. by eexists.
    - rewrite get_task_update_ne by done. by eexists. }
  rewrite Hp', Hsub. destruct (subtasks p) as [|c cs] eqn:Hcs; [by apply elem_of_nil in Hin|].
  rewrite (collect_results_blocked s2 (c :: cs) ∅ tid (reported "failed" r (clock 0) t)); try done.
  subst s2. by rewrite get_task_update_eq, Ht.
Qed.

Lemma failed_child_leaves_parent_witness :
  status <$> get_task "root" two_children = Some "decomposed" ∧
  update_task_status 1000 (λ k, 10 + k) "child_a" "failed" (PStr "no data") two_children =
    Some (true, update_task "child_a" (reported "failed" (PStr "no data") 10) two_children) ∧
  ("child_a" ≠ "root" →
   status <$> get_task "root"
     (update_task "child_a" (reported "failed" (PStr "no data") 10) two_children)
   = Some "decomposed").
Proof.
  split; [vm_compute; reflexivity|].
  destruct (failed_child_leaves_parent 1000 (λ k, 10 + k) "child_a" (PStr "no data")
              two_children
              (with_parent_task_id (Some "root")
                 (Task_init "child_a" "market_analysis" (PDict ∅) 1 1))
              "root"
              (with_subtasks ["child_a"; "child_b"]
                 (with_status "decomposed"
                    (Task_init "root" "comprehensive_analysis" (PDict ∅) 1 0))))
    as [Hrun Hparent].
  - vm_compute; reflexivity.
  - reflexivity.
  - vm_compute; reflexivity.
  - vm_compute. left.
  - lia.
  - split; [exact Hrun|]. intros Hne. exact (f_equal (fmap status) (Hparent Hne)).
Defined.

(** C2, as stated, fails: one subtask is reported failed, the other later
    completes, and the parent is still decomposed, not failed. *)
Lemma failed_child_parent_not_failed :
  status <$> get_task "child_a" one_failed_one_done = Some "failed" ∧
  status <$> get_task "child_b" one_failed_one_done = Some "completed" ∧
  status <$> get_task "root" one_failed = Some "decomposed" ∧
  status <$> get_task "root" one_failed_one_done = Some "decomposed".
Proof. repeat split; vm_compute; reflexivity. Qed.

(** ** Decomposition *)

Lemma get_task_register_eq t s : get_task (task_id t) (TaskRegistry_register t s) = Some t.
Proof. unfold get_task, TaskRegistry_register; simpl. by rewrite lookup_insert_eq. Qed.

Lemma get_task_register_ne t tid s :
  task_id t ≠ tid → get_task tid (TaskRegistry_register t s) = get_task tid s.
Proof. intros Hne. unfold get_task, TaskRegistry_register; simpl. by rewrite lookup_insert_ne. Qed.

Lemma decompose_loop_spec uuid clock pid specs :
  ∀ i s p,
    get_task pid s = Some p →
    NoDup (uuid <$> seq i (length specs)) →
    Forall (λ j, uuid j ≠ pid ∧ get_task (uuid j) s = None) (seq i (length specs)) →
    ∃ subs s',
      decompose_loop uuid clock i pid specs s = (subs, s') ∧
      task_id <$> subs = uuid <$> seq i (length specs) ∧
      get_task pid s' =
        Some (with_subtasks (subtasks p ++ (uuid <$> seq i (length specs))) p) ∧
      Forall (λ c, parent_task_id <$> get_task c s' = Some (Some pid))
        (uuid <$> seq i (length specs)) ∧
      (∀ tid, tid ≠ pid → tid ∉ uuid <$> seq i (length specs) →
              get_task tid s' = get_task tid s) ∧
      agents s' = agents s.
Proof.
  induction specs as [|spec rest IH]; intros i s p Hp Hnd Hfresh.
  - exists [], s. simpl. rewrite app_nil_r. destruct p. repeat split; auto.
  - csimpl in *. apply NoDup_cons in Hnd as [Hhead Hnd].
    apply Forall_cons in Hfresh as [[Hne Hnew] Hfresh].
    rewrite Hp. csimpl.
    set (sub := Task_init (uuid i) (spec_task_type spec) (spec_params spec) (priority p) (clock i)).
    set (s3 := update_task pid _ (update_task (uuid i) _ (TaskRegistry_register sub s))).
    assert (Hp3 : get_task pid s3 = Some (with_subtasks (subtasks p ++ [uuid i]) p)).
    { subst s3. rewrite get_task_update_eq, get_task_update_ne by done.
      rewrite get_task_register_ne by done. by rewrite Hp. }
    assert (Hsub3 : get_task (uuid i) s3 = Some (with_parent_task_id (Some pid) sub)).
    { subst s3. rewrite get_task_update_ne by done.
      rewrite get_task_update_eq. by rewrite (get_task_register_eq sub). }
    assert (Hother : ∀ tid, tid ≠ pid → tid ≠ uuid i → get_task tid s3 = get_task tid s).
    { intros tid H1 H2. subst s3. rewrite !get_task_update_ne by done.
      by rewrite get_task_register_ne. }
    destruct (IH (S i) s3 _ Hp3 Hnd) as (subs & s' & Hloop & Hids & Hp' & Hpar & Hframe & Hag).
    { eapply Forall_impl; [apply Forall_and; split; [exact Hfresh|]|].
      - apply Forall_forall. intros j Hj. exact Hj.
      - simpl. intros j [[Hjp Hjs] Hj]. split; [done|].
        rewrite Hother; [done|done|]. intros Heq. apply Hhead.
        rewrite <- Heq. apply list_elem_of_fmap. by exists j. }
    rewrite Hloop. eexists _, s'. split; [done|]. repeat split.
    + csimpl. by rewrite Hids.
    + rewrite Hp'. csimpl. by rewrite <- app_assoc.
    + apply Forall_cons. split; [|done].
      rewrite Hframe; [by rewrite Hsub3|done|done].
    + intros tid H1 H2. apply not_elem_of_cons in H2 as [H2 H3].
      rewrite Hframe by done. by apply Hother.
    + by rewrite Hag.
Qed.

(** C7, as amended: [decompose_task] has no guard against a second run.
    Every call on a registered task, whatever its status, creates one subtask
    per specification under the identifiers drawn and appends these, in
    order, behind the subtask ids already listed; the status becomes
    decomposed only when it was pending. *)
Theorem decompose_task_appends uuid clock pid specs s p :
  get_task pid s = Some p →
  fresh_ids uuid (length specs) pid s →
  ∃ subs s',
    decompose_task uuid clock pid specs s = Some (subs, s') ∧
    task_id <$> subs = uuid <$> seq 0 (length specs) ∧
    subtasks <$> get_task pid s' =
      Some (subtasks p ++ (uuid <$> seq 0 (length specs))) ∧
    status <$> get_task pid s' =
      Some (if decide (status p = "pending") then "decomposed" else status p) ∧
    Forall (λ c, parent_task_id <$> get_task c s' = Some (Some pid))
      (uuid <$> seq 0 (length specs)).
Proof.
  intros Hp [Hnd Hfresh]. unfold decompose_task. rewrite Hp. csimpl.
  destruct (decompose_loop_spec uuid clock pid specs 0 s p Hp Hnd Hfresh)
    as (subs & s1 & Hloop & Hids & Hp1 & Hpar & _ & _).
  rewrite Hloop. eexists _, _. split; [reflexivity|]. split; [exact Hids|].
  rewrite get_task_update_eq, Hp1. csimpl.
  split; [by destruct (decide (status p = "pending"))|]. split.
  - by destruct (decide (status p = "pending")).
  - rewrite Forall_fmap, Forall_forall in Hpar. rewrite Forall_forall in Hfresh.
    apply Forall_fmap, Forall_forall. intros j Hj. simpl.
    destruct (Hfresh j Hj) as [Hne _].
    rewrite get_task_update_ne by done. by apply Hpar.
Qed.

Lemma decompose_task_appends_witness :
  subtasks <$> get_task "root" one_child = Some ["child"] ∧
  ∃ subs s',
    decompose_task (λ _, "second") (λ _, 5) "root"
      [mkSpec "market_analysis" (PDict ∅)] one_child = Some (subs, s') ∧
    task_id <$> subs = ["second"] ∧
    subtasks <$> get_task "root" s' = Some ["child"; "second"] ∧
    status <$> get_task "root" s' = Some "decomposed" ∧
    Forall (λ c, parent_task_id <$> get_task c s' = Some (Some "root")) ["second"].
Proof.
  split; [vm_compute; reflexivity|].
  apply (decompose_task_appends (λ _, "second") (λ _, 5) "root"
           [mkSpec "market_analysis" (PDict ∅)] one_child
           (with_subtasks ["child"]
              (with_status "decomposed"
                 (Task_init "root" "comprehensive_analysis" (PDict ∅) 1 0)))).
  - vm_compute; reflexivity.
  - split.
    + apply NoDup_singleton.
    + constructor; [|constructor].
      split; [discriminate | vm_compute; reflexivity].
Defined.

(** C7, as stated, fails: decomposing a task that is already decomposed
    creates one more subtask and appends its id. *)
Lemma second_decomposition_adds_subtasks :
  status <$> get_task "root" one_child = Some "decomposed" ∧
  subtasks <$> get_task "root" one_child = Some ["child"] ∧
  subtasks <$> get_task "root" decomposed_again = Some ["child"; "second"] ∧
  get_task "second" one_child = None ∧
  task_type <$> get_task "second" decomposed_again = Some "market_analysis".
Proof. repeat split; vm_compute; reflexivity. Qed.

(** ** Assignment *)







(** ** What the propagation leaves alone *)

Lemma links_update tid tid' f s :
  (∀ t, links (f t) = links t) →
  links <$> get_task tid' (update_task tid f s) = links <$> get_task tid' s.
Proof.
  intros Hf. destruct (decide (tid = tid')) as [->|Hne].
  - rewrite get_task_update_eq. destruct (get_task tid' s); simpl; by rewrite ?Hf.
  - by rewrite get_task_update_ne.
Qed.

Lemma check_parent_links depth :
  ∀ clock pid s s',
    _check_parent_task_completion depth clock pid s = Some s' →
    agents s' = agents s ∧
    ∀ tid, links <$> get_task tid s' = links <$> get_task tid s.
Proof.
  induction depth as [|depth IH]; intros clock pid s s' Hrun; [done|].
  simpl in Hrun. destruct (get_task pid s) as [p|]; [|by injection Hrun as <-].
  destruct (subtasks p) as [|c cs]; [by injection Hrun as <-|].
  destruct (collect_results s (c :: cs) ∅) as [res|]; [|by injection Hrun as <-].
  set (s1 := update_task pid _ s) in Hrun.
  assert (Hs1 : ∀ tid, links <$> get_task tid s1 = links <$> get_task tid s).
  { intros tid. by apply links_update. }
  destruct (truthy (parent_task_id p)).
  - apply IH in Hrun as [Hag Hlinks]. split; [done|].
    intros tid. by rewrite Hlinks.
  - by injection Hrun as <-.
Qed.

Lemma update_task_status_links depth clock tid st r s b s' :
  update_task_status depth clock tid st r s = Some (b, s') →
  agents s' = agents s ∧
  ∀ tid', links <$> get_task tid' s' = links <$> get_task tid' s.
Proof.
  unfold update_task_status. intros Hrun.
  destruct (get_task tid s) as [t|]; [|by injection Hrun as _ <-].
  destruct (decide (st = "completed" ∨ st = "failed")).
  - rewrite reported_compose in Hrun.
    assert (Hs2 : ∀ tid', links <$> get_task tid' (update_task tid (reported st r (clock 0)) s)
                          = links <$> get_task tid' s).
    { intros tid'. by apply links_update. }
    destruct (truthy (parent_task_id t)).
    + destruct (_check_parent_task_completion _ _ _ _) as [s3|] eqn:Hcheck; [|done].
      injection Hrun as _ <-. apply check_parent_links in Hcheck as [Hag Hlinks].
      split; [done|]. intros tid'. by rewrite Hlinks.
    + by injection Hrun as _ <-.
  - injection Hrun as _ <-. split; [done|]. intros tid'. by apply links_update.
Qed.

(** ** Replies of the coordinator *)

Lemma update_task_status_root depth clock tid st r s t :
  get_task tid s = Some t →
  truthy (parent_task_id t) = false →
  ∃ s1, update_task_status depth clock tid st r s = Some (true, s1).
Proof.
  intros Ht Hroot. unfold update_task_status. rewrite Ht, Hroot.
  destruct (decide (st = "completed" ∨ st = "failed")); by eexists.
Qed.

(** C8, as amended: a result report for a registered task produces a reply
    only when the task has no parent: then exactly one message of type
    task_completed leaves the coordinator, carrying the task id and the
    reported status and result.  For a task that has a parent no message is
    produced, whatever the report does to the parent by aggregation. *)
Theorem task_result_reply depth uuid clock co m s d tid st t :
  callbacks co !! "task_result" = None →
  msg_type m = "task_result" →
  content m = PDict d →
  d !! "task_id" = Some (PStr tid) →
  dict_get_default d "status" (PStr "completed") = PStr st →
  get_task tid s = Some t →
  let r := dict_get_default d "result" PNone in
  if truthy (parent_task_id t) then
    process_message depth uuid clock co m s =
      match update_task_status depth clock tid st r s with
      | None => Raise RecursionError
      | Some (_, s1) => Ret (s1, None)
      end
  else
    ∃ s1 rcv,
      update_task_status depth clock tid st r s = Some (true, s1) ∧
      process_message depth uuid clock co m s =
        Ret (s1, Some (mkMessage (coordinator_id co) rcv
                         (PDict (<["task_id" := PStr tid]>
                                (<["status" := PStr st]> (<["result" := r]> ∅))))
                         "task_completed")).
Proof.
  intros Hcb Hty Hcontent Htid Hst Ht r.
  assert (Hpm : process_message depth uuid clock co m s =
                process_task_result depth clock co m s).
  { unfold process_message. rewrite Hty, Hcb. done. }
  assert (Hafter : ∀ b s1, update_task_status depth clock tid st r s = Some (b, s1) →
                   ∃ t', get_task tid s1 = Some t' ∧ parent_task_id t' = parent_task_id t).
  { intros b s1 Hrun. apply update_task_status_links in Hrun as [_ Hlinks].
    specialize (Hlinks tid). rewrite Ht in Hlinks.
    destruct (get_task tid s1) as [t'|]; [|done].
    injection Hlinks as Hp _. by exists t'. }
  rewrite Hpm. unfold process_task_result. rewrite Hcontent, Htid, Hst. fold r.
  destruct (truthy (parent_task_id t)) eqn:Hparent.
  - destruct (update_task_status depth clock tid st r s) as [[b s1]|] eqn:Hrun; [|done].
    destruct (Hafter b s1 eq_refl) as (t' & Ht' & Hp'). by rewrite Ht', Hp', Hparent.
  - destruct (update_task_status_root depth clock tid st r s t Ht Hparent) as (s1 & Hrun).
    exists s1, (sender m). split; [done|].
    rewrite Hrun. destruct (Hafter true s1 Hrun) as (t' & Ht' & Hp').
    by rewrite Ht', Hp', Hparent.
Qed.

Lemma task_result_reply_witness :
  parent_task_id <$> get_task "child" one_child = Some (Some "root") ∧
  process_message 1000 (λ _, "unused") (λ k, 10 + k) plain_coordinator
    (report "worker" "child" (PStr "trend")) one_child =
  match update_task_status 1000 (λ k, 10 + k) "child" "completed" (PStr "trend") one_child with
  | None => Raise RecursionError
  | Some (_, s1) => Ret (s1, None)
  end.
Proof.
  split; [vm_compute; reflexivity|].
  exact (task_result_reply 1000 (λ _, "unused") (λ k, 10 + k) plain_coordinator
           (report "worker" "child" (PStr "trend")) one_child
           (<["task_id" := PStr "child"]>
              (<["status" := PStr "completed"]> (<["result" := PStr "trend"]> ∅)))
           "child" "completed"
           (with_parent_task_id (Some "root")
              (Task_init "child" "market_analysis" (PDict ∅) 1 1))
           eq_refl eq_refl eq_refl eq_refl eq_refl eq_refl).
Defined.

(** C8, as stated, fails: the report for the only subtask completes the
    decomposed root by aggregation, and the coordinator produces no
    message. *)
Lemma aggregated_root_not_notified :
  ∃ s',
    process_message 1000 (λ _, "unused") (λ k, 10 + k) plain_coordinator
      (report "worker" "child" (PStr "trend")) one_child = Ret (s', None) ∧
    status <$> get_task "root" one_child = Some "decomposed" ∧
    parent_task_id <$> get_task "root" s' = Some None ∧
    status <$> get_task "root" s' = Some "completed" ∧
    result <$> get_task "root" s' = Some (PDict {["market_analysis" := PStr "trend"]}).
Proof. eexists. repeat split; vm_compute; reflexivity. Qed.

(** ** Singleton registries *)

Lemma TaskManager_init_filled w :
  instances_allocated w →
  ∀ tm w1, TaskManager_init w = (tm, w1) →
    valid_manager tm w1 ∧
    TaskRegistry_instance w1 = Some (task_registry tm) ∧
    AgentRegistry_instance w1 = Some (agent_registry tm).
Proof.
  intros [Htr Har] tm w1. unfold TaskManager_init, TaskRegistry_new, AgentRegistry_new.
  destruct w as [ti ai trs ars]. simpl in *.
  destruct ti as [a|], ai as [b|]; simpl; intros [= <- <-]; unfold valid_manager; simpl;
    rewrite ?length_app; simpl; repeat split;
    try (specialize (Htr _ eq_refl)); try (specialize (Har _ eq_refl)); lia.
Qed.

Lemma TaskManager_init_again w tr ar :
  TaskRegistry_instance w = Some tr →
  AgentRegistry_instance w = Some ar →
  TaskManager_init w = (mkTaskManager tr ar, w).
Proof.
  intros Htr Har. unfold TaskManager_init, TaskRegistry_new, AgentRegistry_new.
  by rewrite Htr, Har.
Qed.

Lemma through_valid {A : Type} tm (f : System → A * System) w :
  valid_manager tm w →
  ∃ s, system_of tm w = Some s ∧
       through tm f w = Some ((f s).1, store_system tm (f s).2 w) ∧
       system_of tm (store_system tm (f s).2 w) = Some (f s).2.
Proof.
  intros [Htr Har].
  destruct (lookup_lt_is_Some_2 _ _ Htr) as [tr Htr'].
  destruct (lookup_lt_is_Some_2 _ _ Har) as [ar Har'].
  exists (mkSystem tr ar). unfold through, system_of, store_system.
  rewrite Htr', Har'. simpl. split; [done|]. split.
  - by destruct (f (mkSystem tr ar)).
  - rewrite !list_lookup_insert_eq by done. simpl. by destruct (f (mkSystem tr ar)).2.
Qed.

(** C9: the registries are process-wide singletons.  A construction of a
    task manager in a process in which both registries exist allocates and
    changes nothing and returns a manager holding these two registries.  So
    whatever an operation run through one manager has left in the registries
    (a created task, for one) is exactly what a manager constructed
    afterwards sees: the two managers hold the same registry objects, and a
    task created through either of them is found through the other, next to
    everything that was there before. *)
Theorem registries_are_shared {A : Type} (f : System → A * System) w tm1 w1 a w2 tm2 w3 :
  instances_allocated w →
  TaskManager_init w = (tm1, w1) →
  through tm1 f w1 = Some (a, w2) →
  TaskManager_init w2 = (tm2, w3) →
  tm2 = tm1 ∧ w3 = w2 ∧
  (∃ s, system_of tm1 w1 = Some s ∧ a = (f s).1 ∧ system_of tm2 w3 = Some (f s).2) ∧
  (∀ tr ar, TaskRegistry_instance w = Some tr → AgentRegistry_instance w = Some ar →
     tm1 = mkTaskManager tr ar ∧ w1 = w) ∧
  (∀ tm' w', TaskManager_init w1 = (tm', w') → tm' = tm1 ∧ w' = w1) ∧
  ∀ tid now ty ps prio, ∃ t w4,
    through tm2 (create_task tid now ty ps prio) w3 = Some (t, w4) ∧
    system_of tm1 w4 ≫= get_task tid = Some t ∧
    ∀ k, k ≠ tid → system_of tm1 w4 ≫= get_task k = system_of tm2 w3 ≫= get_task k.
Proof.
  intros Hw H1 Hop H2.
  destruct (TaskManager_init_filled w Hw tm1 w1 H1) as (Hvalid & Htr & Har).
  destruct (through_valid tm1 f w1 Hvalid) as (s & Hs & Hthrough & Hback).
  rewrite Hthrough in Hop. injection Hop as <- <-.
  assert (TaskManager_init (store_system tm1 (f s).2 w1) =
            (tm1, store_system tm1 (f s).2 w1)) as Hagain.
  { destruct tm1 as [tr ar]. by apply TaskManager_init_again. }
  rewrite Hagain in H2. injection H2 as <- <-.
  split; [done|]. split; [done|]. split; [by exists s|]. split; [|split].
  - intros tr ar Htr0 Har0. rewrite (TaskManager_init_again w tr ar Htr0 Har0) in H1.
    by injection H1 as <- <-.
  - intros tm' w' H'. destruct tm1 as [tr ar].
    rewrite (TaskManager_init_again w1 tr ar Htr Har) in H'. by injection H' as <- <-.
  - intros tid now ty ps prio.
    assert (valid_manager tm1 (store_system tm1 (f s).2 w1)) as Hvalid2.
    { destruct Hvalid as [Hv1 Hv2]. unfold valid_manager, store_system. simpl.
      by rewrite !length_insert. }
    destruct (through_valid tm1 (create_task tid now ty ps prio) _ Hvalid2)
      as (s2 & Hs2 & Hthrough2 & Hback2).
    eexists _, _. split; [exact Hthrough2|]. rewrite Hback2, Hs2. simpl. split.
    + unfold get_task. simpl. by rewrite lookup_insert_eq.
    + intros k Hk. unfold get_task. simpl. by rewrite lookup_insert_ne.
Qed.

Lemma registries_are_shared_witness :
  tasks <$> system_of (mkTaskManager 0 0) early_task_created =
    Some {[ "early" := Task_init "early" "market_analysis" (PDict ∅) 1 1 ]} ∧
  mkTaskManager 0 0 = mkTaskManager 0 0 ∧
  early_task_created = early_task_created ∧
  (∃ s, system_of (mkTaskManager 0 0) (mkWorld (Some 0) (Some 0) [∅] [[]]) = Some s ∧
        Task_init "early" "market_analysis" (PDict ∅) 1 1 =
          (create_task "early" 1 "market_analysis" (PDict ∅) 1 s).1 ∧
        system_of (mkTaskManager 0 0) early_task_created =
          Some (create_task "early" 1 "market_analysis" (PDict ∅) 1 s).2) ∧
  (∀ tr ar, TaskRegistry_instance fresh_process = Some tr →
            AgentRegistry_instance fresh_process = Some ar →
     mkTaskManager 0 0 = mkTaskManager tr ar ∧
     mkWorld (Some 0) (Some 0) [∅] [[]] = fresh_process) ∧
  (∀ tm' w', TaskManager_init (mkWorld (Some 0) (Some 0) [∅] [[]]) = (tm', w') →
     tm' = mkTaskManager 0 0 ∧ w' = mkWorld (Some 0) (Some 0) [∅] [[]]) ∧
  ∀ tid now ty ps prio, ∃ t w4,
    through (mkTaskManager 0 0) (create_task tid now ty ps prio) early_task_created
      = Some (t, w4) ∧
    system_of (mkTaskManager 0 0) w4 ≫= get_task tid = Some t ∧
    ∀ k, k ≠ tid →
      system_of (mkTaskManager 0 0) w4 ≫= get_task k =
      system_of (mkTaskManager 0 0) early_task_created ≫= get_task k.
Proof.
  split; [vm_compute; reflexivity|].
  apply (registries_are_shared (create_task "early" 1 "market_analysis" (PDict ∅) 1)
           fresh_process (mkTaskManager 0 0) (mkWorld (Some 0) (Some 0) [∅] [[]])
           (Task_init "early" "market_analysis" (PDict ∅) 1 1) early_task_created
           (mkTaskManager 0 0) early_task_created).
  - split; intros a; discriminate.
  - reflexivity.
  - vm_compute; reflexivity.
  - vm_compute; reflexivity.
Defined.

(** ** Aggregation *)


Lemma fmap_Some_inv {A B : Type} (f : A → B) (x y : A) :
  f <$> Some x = f <$> Some y → f x = f y.
Proof. by intros [=]. Qed.






Lemma check_parent_unfold depth clock pid s :
  _check_parent_task_completion (S depth) clock pid s =
  match get_task pid s with
  | None => Some s
  | Some p =>
      match subtasks p with
      | [] => Some s
      | _ :: _ =>
          match collect_results s (subtasks p) ∅ with
          | None => Some s
          | Some res =>
              if truthy (parent_task_id p)
              then _check_parent_task_completion depth (λ k, clock (S k))
                     (default "" (parent_task_id p))
                     (update_task pid (aggregated (clock 0) res) s)
              else Some (update_task pid (aggregated (clock 0) res) s)
          end
      end
  end.
Proof. reflexivity. Qed.


Lemma ranked_lookup rank s tid t :
  ranked rank s → get_task tid s = Some t →
  (truthy (parent_task_id t) → rank (default "" (parent_task_id t)) < rank tid) ∧
  Forall (λ c, rank tid < rank c) (subtasks t).
Proof. intros Hr Ht. exact (Hr tid t Ht). Qed.

Lemma ranked_links rank s s' :
  ranked rank s →
  (∀ tid, links <$> get_task tid s' = links <$> get_task tid s) →
  ranked rank s'.
Proof.
  intros Hr Hl tid t' Ht'. specialize (Hl tid). unfold get_task in Hl. rewrite Ht' in Hl.
  destruct (tasks s !! tid) as [t|] eqn:Ht; [|done].
  apply fmap_Some_inv in Hl. injection Hl as Hp Hs.
  pose proof (Hr tid t Ht) as Hplaced. simpl in Hplaced. simpl. by rewrite Hp, Hs.
Qed.











End CoreFacts.

(** * Properties of agents_test3/business_analysis *)
Module BusinessAnalysisFacts.
Import BusinessAnalysis BusinessAnalysisSpec.

Lemma bind_Ret_inv {A B : Type} (c : outcome A) (k : A → outcome B) (b : B) :
  c ≫= k = Ret b → ∃ a, c = Ret a ∧ k a = Ret b.
Proof. destruct c as [a| |]; try done. intros Hk. by exists a. Qed.

(** ** Dependency gating *)

Lemma check_dependencies_true deps self :
  _check_dependencies deps self = Ret true ↔ dependencies_completed deps self.
Proof.
  unfold dependencies_completed. induction deps as [|dep rest IH]; simpl.
  - split; [constructor|done].
  - destruct (task_results self !! dep) as [[| | | | |r]|] eqn:Hdep;
      try (split; [done|]; intros Hall; inversion Hall as [|? ? (r' & Hr' & _)]; congruence).
    destruct (r !! "status") as [[| | |st| |]|] eqn:Hst; simpl;
      try (split; [done|]; intros Hall; inversion Hall as [|? ? (r' & Hr' & Hst')];
           congruence).
    destruct (bool_decide (st = "completed")) eqn:Hc.
    + apply bool_decide_eq_true in Hc as ->. rewrite IH. split.
      * intros Hall. constructor; [by exists r|done].
      * intros Hall. by inversion Hall.
    + apply bool_decide_eq_false in Hc. split; [done|].
      intros Hall. inversion Hall as [|? ? (r' & Hr' & Hst')]. congruence.
Qed.

(** [_assign_task] marks a task assigned only when every dependency has a
    completed result. *)
Lemma assign_task_gated mid now t aid self self' deps :
  _assign_task mid now t aid self = Ret self' →
  depends_on t = Some deps →
  status <$> active_tasks self' !! task_id t = Some "assigned" →
  dependencies_completed deps self.
Proof.
  unfold _assign_task. intros Hrun Hdeps Hst. rewrite Hdeps in Hrun.
  apply bind_Ret_inv in Hrun as (ok & Hcheck & Hrun).
  destruct ok; [by apply check_dependencies_true|].
  simpl in Hrun. injection Hrun as <-. simpl in Hst.
  by rewrite lookup_insert_eq in Hst.
Qed.

(** ** Results are never recorded *)

Lemma send_message_results mid now to c ty ref self :
  task_results (send_message mid now to c ty ref self) = task_results self.
Proof. unfold send_message. by destruct (message_handler self). Qed.

Lemma assign_task_results mid now t aid self self' :
  _assign_task mid now t aid self = Ret self' →
  task_results self' = task_results self.
Proof.
  unfold _assign_task. intros Hrun.
  apply bind_Ret_inv in Hrun as (ok & _ & Hrun).
  destruct ok; simpl in Hrun; [|by injection Hrun as <-].
  apply bind_Ret_inv in Hrun as (suitable & _ & Hrun).
  destruct (truthy suitable); simpl in Hrun; injection Hrun as <-; [|done].
  by rewrite send_message_results.
Qed.

Lemma assign_each_results uuid clock ts :
  ∀ i aid self self',
    assign_each uuid clock i ts aid self = Ret self' →
    task_results self' = task_results self.
Proof.
  induction ts as [|t ts IH]; intros i aid self self' Hrun; simpl in Hrun.
  - by injection Hrun as <-.
  - apply bind_Ret_inv in Hrun as (self1 & Hone & Hrest).
    apply IH in Hrest. apply assign_task_results in Hone. congruence.
Qed.

Lemma process_message_results uuid clock m self self' :
  process_message uuid clock m self = Ret self' →
  task_results self' = task_results self.
Proof.
  unfold process_message. intros Hrun.
  destruct (decide (message_type m = "analysis_request")).
  { unfold _start_analysis_workflow in Hrun.
    apply bind_Ret_inv in Hrun as (ts & _ & Hrun).
    destruct (get_memory _ _); try done.
    by apply assign_each_results in Hrun. }
  destruct (decide (message_type m = "task_result")); [done|].
  destruct (decide (message_type m = "agent_registration")).
  - injection Hrun as <-. by rewrite send_message_results.
  - by injection Hrun as <-.
Qed.

Lemma drain_results uuid clock queue :
  ∀ k self self',
    drain uuid clock k queue self = Ret self' →
    task_results self' = task_results self.
Proof.
  induction queue as [|m q IH]; intros k self self' Hrun; simpl in Hrun.
  - by injection Hrun as <-.
  - apply bind_Ret_inv in Hrun as (self1 & Hone & Hrest).
    apply IH in Hrest. apply process_message_results in Hone. by rewrite Hrest, Hone.
Qed.

Lemma assign_task_parks mid now t aid self dep deps :
  depends_on t = Some (dep :: deps) →
  task_results self !! dep = None →
  _assign_task mid now t aid self =
    Ret (with_active_tasks (<[task_id t := waiting_entry t aid]> (active_tasks self)) self).
Proof. intros Hdeps Hnone. unfold _assign_task. rewrite Hdeps. simpl. by rewrite Hnone. Qed.

(** C10: a message of type task_result makes [process_message] look up
    [_process_task_result], which neither the class nor its base defines, so
    the call raises AttributeError; [act] fails in the same way on
    [_is_analysis_complete] as soon as an analysis has been started.  No call
    that returns ever changes the recorded task results, and a task that
    depends on a task without a recorded result is parked as waiting. *)
Theorem task_result_raises_attribute_error uuid clock m self :
  message_type m = "task_result" →
  process_message uuid clock m self = Raise (AttributeError "_process_task_result") ∧
  (truthy (current_analysis_id self) = true →
   act self = Raise (AttributeError "_is_analysis_complete")) ∧
  (∀ uuid' clock' m' self',
     process_message uuid' clock' m' self = Ret self' →
     task_results self' = task_results self) ∧
  (∀ uuids clocks self',
     process_messages uuids clocks self = Ret self' →
     task_results self' = task_results self) ∧
  (∀ mid now t aid dep deps,
     depends_on t = Some (dep :: deps) →
     task_results self !! dep = None →
     _assign_task mid now t aid self =
       Ret (with_active_tasks (<[task_id t := waiting_entry t aid]> (active_tasks self))
              self)).
Proof.
  intros Hty. split; [|split; [|split; [|split]]].
  - unfold process_message. rewrite Hty.
    rewrite decide_False by discriminate. by rewrite decide_True.
  - intros Hcur. unfold act. by rewrite Hcur.
  - intros uuid' clock' m' self'. apply process_message_results.
  - intros uuids clocks self'. apply drain_results.
  - intros mid now t aid dep deps. apply assign_task_parks.
Qed.

Lemma task_result_raises_attribute_error_witness :
  message_type collection_result = "task_result" ∧
  process_message draw_id (λ k, 10 + k) collection_result started =
    Raise (AttributeError "_process_task_result") ∧
  (truthy (current_analysis_id started) = true →
   act started = Raise (AttributeError "_is_analysis_complete")) ∧
  (∀ uuid' clock' m' self',
     process_message uuid' clock' m' started = Ret self' →
     task_results self' = task_results started) ∧
  (∀ uuids clocks self',
     process_messages uuids clocks started = Ret self' →
     task_results self' = task_results started) ∧
  (∀ mid now t aid dep deps,
     depends_on t = Some (dep :: deps) →
     task_results started !! dep = None →
     _assign_task mid now t aid started =
       Ret (with_active_tasks
              (<[task_id t := waiting_entry t aid]> (active_tasks started)) started)).
Proof.
  split; [reflexivity|].
  pose proof (task_result_raises_attribute_error draw_id (λ k, 10 + k)
                collection_result started) as Hraises.
  specialize (Hraises eq_refl). exact Hraises.
Defined.

(** C4 at the failing input: the request for a market-trend analysis leaves
    the first task assigned and the second waiting for it; the result message
    for the first task then raises AttributeError, and nothing re-evaluates
    the waiting task. *)
Theorem waiting_task_not_redispatched :
  process_message draw_id (λ k, 1 + k) trend_request staffed = Ret started ∧
  status <$> active_tasks started !! "data_collection_1" = Some "assigned" ∧
  (depends_on ∘ task) <$> active_tasks started !! "data_analysis_2"
    = Some (Some ["data_collection_1"]) ∧
  status <$> active_tasks started !! "data_analysis_2" = Some "waiting" ∧
  process_message draw_id (λ k, 10 + k) collection_result started =
    Raise (AttributeError "_process_task_result").
Proof.
  split; [vm_compute; reflexivity|]. split; [vm_compute; reflexivity|].
  split; [vm_compute; reflexivity|]. split; vm_compute; reflexivity.
Qed.

(** ** No suitable agent *)

(** C6, as amended: the two coordinators differ.  In business_analysis,
    [_assign_task] on a task whose dependencies are satisfied and for which no
    agent is suitable records the task as failed with the error
    'No suitable agent found', hands over no message and returns.  In core,
    [assign_task] on a pending task for whose type no agent is registered
    returns False and changes nothing: the task stays pending. *)
Theorem no_suitable_agent :
  (∀ mid now t aid self,
     from_option (λ deps, _check_dependencies deps self = Ret true) True (depends_on t) →
     _find_suitable_agent (required_expertise t) self = Ret None →
     _assign_task mid now t aid self =
       Ret (with_active_tasks (<[task_id t := failed_entry t aid]> (active_tasks self)) self)) ∧
  (∀ now tid s t,
     Core.get_task tid s = Some t →
     Core.status t = "pending" →
     from_option (λ aty, Core.get_agents_by_type aty s = []) True
       (Core.task_type_to_agent_type (Core.task_type t)) →
     Core.assign_task now tid None s = Some (false, s)).
Proof.
  split.
  - intros mid now t aid self Hdeps Hnone. unfold _assign_task.
    destruct (depends_on t) as [deps|]; simpl in Hdeps.
    + rewrite Hdeps. simpl. by rewrite Hnone.
    + simpl. by rewrite Hnone.
  - intros now tid s t Ht Hpending Hnone. unfold Core.assign_task. rewrite Ht. simpl.
    rewrite decide_False by (by intros []).
    unfold Core.choose_agent.
    destruct (Core.task_type_to_agent_type (Core.task_type t)) as [aty|]; [|done].
    simpl in Hnone. by rewrite Hnone.
Qed.

Lemma no_suitable_agent_witness :
  _assign_task "message_a" 1 collection_task "request_1" unstaffed =
    Ret (with_active_tasks
           (<[ "data_collection_1" := failed_entry collection_task "request_1" ]>
              (active_tasks unstaffed)) unstaffed) ∧
  Core.assign_task 1 "solo" None CoreSpec.solo = Some (false, CoreSpec.solo).
Proof.
  split.
  - apply (proj1 no_suitable_agent "message_a" 1 collection_task "request_1" unstaffed);
      [exact I | reflexivity].
  - apply (proj2 no_suitable_agent 1 "solo" CoreSpec.solo
             (Core.Task_init "solo" "market_analysis" (PDict ∅) 1 0));
      [vm_compute; reflexivity | reflexivity | vm_compute; reflexivity].
Defined.

(** C6, as stated, fails in core: with no agent registered, the attempt to
    assign a pending task returns False and the task is still pending, not
    failed, and carries no error. *)
Lemma unassignable_task_stays_pending :
  Core.agents CoreSpec.solo = [] ∧
  Core.assign_task 1 "solo" None CoreSpec.solo = Some (false, CoreSpec.solo) ∧
  Core.status <$> Core.get_task "solo" CoreSpec.solo = Some "pending" ∧
  Core.result <$> Core.get_task "solo" CoreSpec.solo = Some PNone.
Proof.
  split; [reflexivity|]. split; [vm_compute; reflexivity|].
  split; vm_compute; reflexivity.
Qed.

End BusinessAnalysisFacts.

(** * Further properties of agents_test1/core *)
Module CoreExtras.
Import Core CoreSpec CoreFacts.

(** ** Assignment *)

(** A refused assignment changes nothing: whatever the reason for which
    [assign_task] returns False (task not pending, no agent type for the task
    type, no agent of that type, agent id not registered), the registries are
    left as they were. *)
Theorem refused_assignment_changes_nothing now tid explicit s s' :
  assign_task now tid explicit s = Some (false, s') → s' = s.
Proof.
  unfold assign_task. destruct (get_task tid s) as [t|]; [|done]. simpl.
  destruct (decide (status t ≠ "pending")); [by intros [= <-]|].
  destruct (match explicit with Some a => Some a | None => choose_agent t s end)
    as [aid|]; [|by intros [= <-]].
  destruct (get_agent aid s); [done|by intros [= <-]].
Qed.

Lemma refused_assignment_changes_nothing_witness :
  assign_task 1 "solo" (Some "nobody") solo = Some (false, solo) ∧ solo = solo.
Proof.
  assert (H : assign_task 1 "solo" (Some "nobody") solo = Some (false, solo))
    by (vm_compute; reflexivity).
  split; [exact H|].
  exact (refused_assignment_changes_nothing 1 "solo" (Some "nobody") solo solo H).
Defined.

(** ** The ordered dictionary of agents *)

Lemma PyDict_get_set_eq {V : Type} (k : string) (v : V) (d : list (string * V)) :
  PyDict.get k (PyDict.set k v d) = Some v.
Proof.
  induction d as [|[k' v'] d IH]; simpl.
  - by rewrite decide_True.
  - destruct (decide (k' = k)) as [->|Hne]; simpl.
    + by rewrite decide_True.
    + by rewrite decide_False.
Qed.

Lemma PyDict_get_set_ne {V : Type} (k k' : string) (v : V) (d : list (string * V)) :
  k ≠ k' → PyDict.get k' (PyDict.set k v d) = PyDict.get k' d.
Proof.
  intros Hne. induction d as [|[k0 v0] d IH]; simpl.
  - by rewrite decide_False.
  - destruct (decide (k0 = k)) as [->|Hne0]; simpl.
    + by rewrite !decide_False.
    + destruct (decide (k0 = k')); [done|exact IH].
Qed.

Lemma PyDict_keys_set_present {V : Type} (k : string) (v : V) (d : list (string * V)) :
  is_Some (PyDict.get k d) → (PyDict.set k v d).*1 = d.*1.
Proof.
  induction d as [|[k' v'] d IH]; csimpl; [by intros [? ?]|].
  destruct (decide (k' = k)) as [->|Hne]; csimpl; [done|].
  intros Hsome. by rewrite IH.
Qed.

Lemma PyDict_keys_set_absent {V : Type} (k : string) (v : V) (d : list (string * V)) :
  PyDict.get k d = None → (PyDict.set k v d).*1 = d.*1 ++ [k].
Proof.
  induction d as [|[k' v'] d IH]; csimpl; [done|].
  destruct (decide (k' = k)) as [->|Hne]; csimpl; [done|].
  intros Hnone. by rewrite IH.
Qed.

Lemma keyed_get (d : list (string * Agent)) aid a :
  Forall (λ ka, ka.1 = agent_id ka.2) d →
  PyDict.get aid d = Some a → agent_id a = aid.
Proof.
  induction d as [|[k v] d IH]; simpl; [done|].
  intros Hall. apply Forall_cons in Hall as [Hk Hall]. simpl in Hk.
  destruct (decide (k = aid)) as [->|Hne]; [|by apply IH].
  by intros [= ->].
Qed.

(** A successful assignment delivers exactly one message: the queue of the
    agent the task is recorded against grows by the task message at its end,
    no other agent changes, and the registration order stays as it was. *)
Theorem assignment_delivers_one_message now tid explicit s s' :
  keyed_by_id s →
  assign_task now tid explicit s = Some (true, s') →
  ∃ t aid a,
    get_task tid s = Some t ∧
    get_agent aid s = Some a ∧
    assigned_agent <$> get_task tid s' = Some (Some aid) ∧
    get_agent aid s' =
      Some (mkAgent (agent_id a) (agent_type a) (message_queue a ++ [task_message t aid])) ∧
    (∀ other, other ≠ aid → get_agent other s' = get_agent other s) ∧
    (agents s').*1 = (agents s).*1.
Proof.
  intros Hkeyed. unfold assign_task.
  destruct (get_task tid s) as [t|] eqn:Ht; [|done]. simpl.
  destruct (decide (status t ≠ "pending")); [done|].
  destruct (match explicit with Some a => Some a | None => choose_agent t s end)
    as [aid|]; [|done].
  destruct (get_agent aid s) as [a|] eqn:Ha; [|done].
  intros [= <-]. exists t, aid, a. split; [done|]. split; [done|].
  assert (Hid : agent_id a = aid) by (by eapply keyed_get).
  split; [|split; [|split]].
  - unfold get_task in *. simpl. by rewrite lookup_alter_eq, Ht.
  - unfold get_agent. simpl. rewrite PyDict_get_set_eq. f_equal.
    unfold receive_message, task_message. simpl. by rewrite decide_True.
  - intros other Hne. unfold get_agent. simpl. by rewrite PyDict_get_set_ne.
  - simpl. apply PyDict_keys_set_present. unfold get_agent in Ha. by rewrite Ha.
Qed.

Lemma assignment_delivers_one_message_witness :
  ∃ s', assign_task 9 "job" None loaded_and_idle = Some (true, s') ∧
  ∃ t aid a,
    get_task "job" loaded_and_idle = Some t ∧
    get_agent aid loaded_and_idle = Some a ∧
    assigned_agent <$> get_task "job" s' = Some (Some aid) ∧
    get_agent aid s' =
      Some (mkAgent (agent_id a) (agent_type a) (message_queue a ++ [task_message t aid])) ∧
    (∀ other, other ≠ aid → get_agent other s' = get_agent other loaded_and_idle) ∧
    (agents s').*1 = (agents loaded_and_idle).*1.
Proof.
  eexists. split; [vm_compute; reflexivity|].
  eapply (assignment_delivers_one_message 9 "job" None loaded_and_idle).
  - unfold keyed_by_id. vm_compute. repeat constructor.
  - vm_compute; reflexivity.
Defined.

(** ** Status reports *)

Lemma identity_update tid tid' f s :
  (∀ t, identity (f t) = identity t) →
  identity <$> get_task tid' (update_task tid f s) = identity <$> get_task tid' s.
Proof.
  intros Hf. destruct (decide (tid = tid')) as [->|Hne].
  - rewrite get_task_update_eq. destruct (get_task tid' s); simpl; by rewrite ?Hf.
  - by rewrite get_task_update_ne.
Qed.

Lemma check_parent_identity depth :
  ∀ clock pid s s',
    _check_parent_task_completion depth clock pid s = Some s' →
    ∀ tid, identity <$> get_task tid s' = identity <$> get_task tid s.
Proof.
  induction depth as [|depth IH]; intros clock pid s s' Hrun; [done|].
  rewrite check_parent_unfold in Hrun.
  destruct (get_task pid s) as [p|]; [|by injection Hrun as <-].
  destruct (subtasks p) as [|c cs]; [by injection Hrun as <-|].
  destruct (collect_results s (c :: cs) ∅) as [res|]; [|by injection Hrun as <-].
  assert (Hs1 : ∀ tid, identity <$> get_task tid (update_task pid (aggregated (clock 0) res) s)
                       = identity <$> get_task tid s).
  { intros tid. by apply identity_update. }
  destruct (truthy (parent_task_id p)).
  - intros tid. by rewrite (IH _ _ _ _ Hrun).
  - by injection Hrun as <-.
Qed.

(** A status report touches only a task's status, result and completion
    stamp: whatever [update_task_status] returns, the agents are as before,
    no task has been added or removed, and every task kept its id, type,
    parameters, priority, creation and start stamps, assigned agent, parent
    and subtask list.  For an unknown id it returns False and changes
    nothing. *)
Theorem status_report_keeps_identity depth clock tid st r s b s' :
  update_task_status depth clock tid st r s = Some (b, s') →
  agents s' = agents s ∧
  (∀ tid', identity <$> get_task tid' s' = identity <$> get_task tid' s) ∧
  (get_task tid s = None → b = false ∧ s' = s).
Proof.
  intros Hrun. split; [by apply update_task_status_links in Hrun as [? _]|].
  unfold update_task_status in Hrun.
  destruct (get_task tid s) as [t|]; [|by injection Hrun as <- <-].
  split; [|done].
  destruct (decide (st = "completed" ∨ st = "failed")).
  - rewrite reported_compose in Hrun.
    assert (Hs2 : ∀ tid', identity <$> get_task tid' (update_task tid (reported st r (clock 0)) s)
                          = identity <$> get_task tid' s).
    { intros tid'. by apply identity_update. }
    destruct (truthy (parent_task_id t)).
    + destruct (_check_parent_task_completion _ _ _ _) as [s3|] eqn:Hcheck; [|done].
      injection Hrun as _ <-. intros tid'. by rewrite (check_parent_identity _ _ _ _ _ Hcheck).
    + by injection Hrun as _ <-.
  - injection Hrun as _ <-. intros tid'. by apply identity_update.
Qed.

Lemma status_report_keeps_identity_witness :
  ∃ b s',
    update_task_status 1000 (λ k, 10 + k) "child" "completed" (PStr "trend") one_child
      = Some (b, s') ∧
    agents s' = agents one_child ∧
    (∀ tid', identity <$> get_task tid' s' = identity <$> get_task tid' one_child) ∧
    (get_task "child" one_child = None → b = false ∧ s' = one_child).
Proof.
  eexists _, _. split; [vm_compute; reflexivity|].
  eapply (status_report_keeps_identity 1000 (λ k, 10 + k) "child" "completed"
            (PStr "trend") one_child).
  vm_compute; reflexivity.
Defined.

(** ** Aggregation that does not happen *)

Lemma collect_results_missing s ids acc c :
  c ∈ ids → get_task c s = None → collect_results s ids acc = None.
Proof.
  intros Hin Hc. revert acc.
  induction ids as [|sid rest IH]; intros acc; [by apply elem_of_nil in Hin|].
  simpl. destruct (decide (sid = c)) as [->|Hne].
  - by rewrite Hc.
  - apply elem_of_cons in Hin as [->|Hin]; [done|].
    destruct (get_task sid s) as [sub|]; [|done].
    destruct (decide (status sub ≠ "completed")); [done|]. by apply IH.
Qed.

(** Aggregation is all or nothing: as long as one listed subtask is not
    completed, or is not registered at all, the check on the parent returns
    without changing anything; no partial result is written. *)
Theorem incomplete_subtasks_block_aggregation depth clock pid s p c :
  get_task pid s = Some p →
  c ∈ subtasks p →
  from_option (λ t, status t ≠ "completed") True (get_task c s) →
  _check_parent_task_completion (S depth) clock pid s = Some s.
Proof.
  intros Hp Hin Hc. rewrite check_parent_unfold, Hp.
  destruct (subtasks p) as [|c0 cs] eqn:Hcs; [done|].
  destruct (get_task c s) as [t|] eqn:Ht; simpl in Hc.
  - by rewrite (collect_results_blocked s (c0 :: cs) ∅ c t).
  - by rewrite (collect_results_missing s (c0 :: cs) ∅ c).
Qed.

Lemma incomplete_subtasks_block_aggregation_witness :
  status <$> get_task "child_b" one_failed = Some "pending" ∧
  _check_parent_task_completion 5 (λ k, k) "root" one_failed = Some one_failed.
Proof.
  split; [vm_compute; reflexivity|].
  apply (incomplete_subtasks_block_aggregation 4 (λ k, k) "root" one_failed
           (with_subtasks ["child_a"; "child_b"]
              (with_status "decomposed"
                 (Task_init "root" "comprehensive_analysis" (PDict ∅) 1 0)))
           "child_b").
  - vm_compute; reflexivity.
  - vm_compute. right. left.
  - vm_compute. discriminate.
Defined.

(** ** The agent registry *)

Lemma PyDict_get_None_keys {V : Type} (k : string) (d : list (string * V)) :
  PyDict.get k d = None ↔ k ∉ d.*1.
Proof.
  induction d as [|[k' v'] d IH]; csimpl.
  - split; [intros _; apply not_elem_of_nil|done].
  - rewrite not_elem_of_cons. destruct (decide (k' = k)) as [->|Hne].
    + split; [done|]. by intros [? _].
    + rewrite IH. split; [by intros ?; split|by intros [_ ?]].
Qed.

Lemma PyDict_get_del_ne {V : Type} (k k' : string) (d : list (string * V)) :
  k ≠ k' → PyDict.get k' (PyDict.del k d) = PyDict.get k' d.
Proof.
  intros Hne. induction d as [|[k0 v0] d IH]; simpl; [done|].
  destruct (decide (k0 = k)) as [->|Hne0]; simpl.
  - by rewrite decide_False.
  - destruct (decide (k0 = k')); [done|exact IH].
Qed.

Lemma PyDict_del_sublist {V : Type} (k : string) (d : list (string * V)) :
  PyDict.del k d ⊆ d.
Proof.
  induction d as [|[k' v'] d IH]; simpl; [done|].
  destruct (decide (k' = k)); [by apply list_subseteq_cons|].
  intros x Hx. apply elem_of_cons in Hx as [->|Hx]; [by left|right; by apply IH].
Qed.

Lemma PyDict_get_del_eq {V : Type} (k : string) (d : list (string * V)) :
  NoDup d.*1 → PyDict.get k (PyDict.del k d) = None.
Proof.
  induction d as [|[k' v'] d IH]; csimpl; [done|].
  intros Hnd. apply NoDup_cons in Hnd as [Hhead Hnd].
  destruct (decide (k' = k)) as [->|Hne]; simpl.
  - by apply PyDict_get_None_keys.
  - rewrite decide_False by done. by apply IH.
Qed.

Lemma PyDict_del_keys_NoDup {V : Type} (k : string) (d : list (string * V)) :
  NoDup d.*1 → NoDup (PyDict.del k d).*1.
Proof.
  induction d as [|[k' v'] d IH]; csimpl; [done|].
  intros Hnd. apply NoDup_cons in Hnd as [Hhead Hnd].
  destruct (decide (k' = k)) as [->|Hne]; csimpl; [done|].
  apply NoDup_cons. split; [|by apply IH].
  intros Hin. apply Hhead. apply list_elem_of_fmap in Hin as ([k0 v0] & -> & Hin).
  apply list_elem_of_fmap. exists (k0, v0). split; [done|]. by apply PyDict_del_sublist in Hin.
Qed.

Lemma PyDict_set_keys_NoDup {V : Type} (k : string) (v : V) (d : list (string * V)) :
  NoDup d.*1 → NoDup (PyDict.set k v d).*1.
Proof.
  intros Hnd. destruct (PyDict.get k d) as [v0|] eqn:Hget.
  - by rewrite PyDict_keys_set_present.
  - rewrite PyDict_keys_set_absent by done. apply NoDup_app. split; [done|].
    split; [|apply NoDup_singleton].
    intros x Hx Hk. apply list_elem_of_singleton in Hk as ->.
    by apply PyDict_get_None_keys in Hget.
Qed.

Lemma PyDict_set_elem {V : Type} (k : string) (v : V) (d : list (string * V)) x :
  x ∈ PyDict.set k v d → x = (k, v) ∨ x ∈ d.
Proof.
  induction d as [|[k' v'] d IH]; simpl.
  - intros Hx. apply list_elem_of_singleton in Hx. by left.
  - destruct (decide (k' = k)) as [->|Hne]; intros Hx; apply elem_of_cons in Hx as [->|Hx].
    + by left.
    + right. by right.
    + right. by left.
    + destruct (IH Hx) as [->|Hin]; [by left|right; by right].
Qed.

(** Registration round trip and order: a registered agent is found under
    its id, every other lookup is as before, and the iteration order of the
    registry (which breaks ties in [assign_task]) is kept: an id that is
    already present keeps its place, a new id goes to the end. *)
Theorem register_then_get_agent a s :
  get_agent (agent_id a) (AgentRegistry_register a s) = Some a ∧
  (∀ other, other ≠ agent_id a →
     get_agent other (AgentRegistry_register a s) = get_agent other s) ∧
  (agents (AgentRegistry_register a s)).*1 =
    match get_agent (agent_id a) s with
    | Some _ => (agents s).*1
    | None => (agents s).*1 ++ [agent_id a]
    end.
Proof.
  unfold get_agent, AgentRegistry_register. simpl. split; [apply PyDict_get_set_eq|].
  split; [intros other Hne; by apply PyDict_get_set_ne|].
  destruct (PyDict.get (agent_id a) (agents s)) eqn:Hget.
  - apply PyDict_keys_set_present. by rewrite Hget.
  - by apply PyDict_keys_set_absent.
Qed.

(** The registry invariant: starting from a registry in which every agent is
    stored under its own id and no id occurs twice (the empty one is), every
    operation that writes the registry keeps it so: [register],
    [unregister], and [assign_task] when it delivers its message. *)
Theorem registry_stays_ok s :
  registry_ok s →
  (∀ a, registry_ok (AgentRegistry_register a s)) ∧
  (∀ aid, registry_ok (AgentRegistry_unregister aid s)) ∧
  (∀ now tid explicit b s', assign_task now tid explicit s = Some (b, s') → registry_ok s').
Proof.
  intros [Hkeyed Hnd]. unfold registry_ok, keyed_by_id in *. split; [|split].
  - intros a. simpl. split; [|by apply PyDict_set_keys_NoDup].
    apply Forall_forall. intros x Hx. rewrite Forall_forall in Hkeyed.
    apply PyDict_set_elem in Hx as [->|Hx]; [done|by apply Hkeyed].
  - intros aid. simpl. split; [|by apply PyDict_del_keys_NoDup].
    apply Forall_forall. intros x Hx. rewrite Forall_forall in Hkeyed.
    apply Hkeyed. by apply PyDict_del_sublist in Hx.
  - intros now tid explicit b s'. unfold assign_task.
    destruct (get_task tid s) as [t|]; [|done]. simpl.
    destruct (decide (status t ≠ "pending")); [by intros [= _ <-]|].
    destruct (match explicit with Some a => Some a | None => choose_agent t s end)
      as [aid|]; [|by intros [= _ <-]].
    destruct (get_agent aid s) as [a|] eqn:Ha; [|by intros [= _ <-]].
    intros [= _ <-]. simpl. split; [|by apply PyDict_set_keys_NoDup].
    apply Forall_forall. intros x Hx.
    apply PyDict_set_elem in Hx as [->|Hx].
    + simpl. pose proof (keyed_get _ _ _ Hkeyed Ha) as Hid.
      unfold receive_message. by destruct (decide _).
    + rewrite Forall_forall in Hkeyed. by apply Hkeyed.
Qed.

Lemma registry_stays_ok_witness :
  (agents loaded_and_idle).*1 = ["analyst_1"; "analyst_2"] ∧
  fst <$> assign_task 9 "job" None loaded_and_idle = Some true ∧
  (agents (AgentRegistry_unregister "analyst_1" loaded_and_idle)).*1 = ["analyst_2"] ∧
  registry_ok loaded_and_idle ∧
  (∀ a, registry_ok (AgentRegistry_register a loaded_and_idle)) ∧
  (∀ aid, registry_ok (AgentRegistry_unregister aid loaded_and_idle)) ∧
  (∀ now tid explicit b s',
     assign_task now tid explicit loaded_and_idle = Some (b, s') → registry_ok s').
Proof.
  assert (H : registry_ok loaded_and_idle).
  { split.
    - unfold keyed_by_id. vm_compute. repeat constructor.
    - match goal with
      | |- ?G => apply (@bool_decide_unpack G ltac:(apply _))
      end.
      vm_compute. exact I. }
  split; [vm_compute; reflexivity|]. split; [vm_compute; reflexivity|].
  split; [vm_compute; reflexivity|].
  split; [exact H|]. exact (registry_stays_ok loaded_and_idle H).
Defined.

(** Unregistering removes an agent for good: in a registry that satisfies
    the invariant, the id is no longer found afterwards, every other agent
    still is, and unregistering an id that is not registered changes
    nothing. *)
Theorem unregister_then_get_agent aid s :
  registry_ok s →
  get_agent aid (AgentRegistry_unregister aid s) = None ∧
  (∀ other, other ≠ aid →
     get_agent other (AgentRegistry_unregister aid s) = get_agent other s) ∧
  (get_agent aid s = None → AgentRegistry_unregister aid s = s).
Proof.
  intros [_ Hnd]. unfold get_agent, AgentRegistry_unregister. simpl.
  split; [by apply PyDict_get_del_eq|]. split; [intros other Hne; by apply PyDict_get_del_ne|].
  intros Hnone. destruct s as [ts ags]. unfold with_agents. simpl in *. f_equal.
  clear Hnd. induction ags as [|[k v] d IH]; simpl in *; [done|].
  destruct (decide (k = aid)); [done|]. by rewrite IH.
Qed.

Lemma unregister_then_get_agent_witness :
  registry_ok two_analysts ∧
  get_agent "analyst_1" (AgentRegistry_unregister "analyst_1" two_analysts) = None ∧
  (∀ other, other ≠ "analyst_1" →
     get_agent other (AgentRegistry_unregister "analyst_1" two_analysts)
     = get_agent other two_analysts) ∧
  (get_agent "analyst_1" two_analysts = None →
   AgentRegistry_unregister "analyst_1" two_analysts = two_analysts).
Proof.
  assert (H : registry_ok two_analysts).
  { split.
    - unfold keyed_by_id. vm_compute. repeat constructor.
    - vm_compute. apply NoDup_cons. split; [|apply NoDup_singleton].
      intros Hin. apply list_elem_of_singleton in Hin. discriminate. }
  split; [exact H|]. exact (unregister_then_get_agent "analyst_1" two_analysts H).
Defined.

(** ** Messages the coordinator does not act on *)

(** Without a callback for the message type: a task request whose content is
    no dictionary or has no task_type is answered with an error message to
    the sender; a task result whose content is no dictionary or has no
    task_id is dropped without a reply; a message of any other type is
    ignored.  In all three cases the registries are unchanged. *)
Theorem malformed_messages_change_nothing depth uuid clock co m s :
  callbacks co !! msg_type m = None →
  (msg_type m = "task_request" → lacks "task_type" (content m) →
   process_message depth uuid clock co m s = Ret (s, Some (invalid_request_reply co m))) ∧
  (msg_type m = "task_result" → lacks "task_id" (content m) →
   process_message depth uuid clock co m s = Ret (s, None)) ∧
  (msg_type m ≠ "task_request" → msg_type m ≠ "task_result" →
   process_message depth uuid clock co m s = Ret (s, None)).
Proof.
  intros Hcb. unfold process_message. rewrite Hcb. split; [|split].
  - intros Hty Hlacks. rewrite Hty. rewrite decide_True by done.
    unfold process_task_request. unfold lacks in Hlacks.
    destruct (content m) as [| | | | |d]; try done. by rewrite Hlacks.
  - intros Hty Hlacks. rewrite Hty. rewrite decide_False by done.
    rewrite decide_True by done.
    unfold process_task_result. unfold lacks in Hlacks.
    destruct (content m) as [| | | | |d]; try done. by rewrite Hlacks.
  - intros H1 H2. by rewrite !decide_False.
Qed.

Lemma malformed_messages_change_nothing_witness :
  process_message 1000 (λ _, "unused") (λ k, k) plain_coordinator
    (mkMessage "user" "coordinator" (PStr "analyse phones") "task_request") solo
  = Ret (solo, Some (invalid_request_reply plain_coordinator
                       (mkMessage "user" "coordinator" (PStr "analyse phones") "task_request"))).
Proof.
  apply (proj1 (malformed_messages_change_nothing 1000 (λ _, "unused") (λ k, k)
                  plain_coordinator
                  (mkMessage "user" "coordinator" (PStr "analyse phones") "task_request")
                  solo eq_refl)).
  - reflexivity.
  - exact I.
Defined.

(** A request that cannot be assigned leaves its task behind: for a task
    type other than comprehensive_analysis for which no agent is registered,
    the coordinator answers with an error message, but the task it created
    for the request stays in the registry, pending and unassigned. *)
Theorem unassignable_request_leaves_task depth uuid clock co m s d ty prio :
  callbacks co !! "task_request" = None →
  msg_type m = "task_request" →
  content m = PDict d →
  d !! "task_type" = Some (PStr ty) →
  ty ≠ "comprehensive_analysis" →
  dict_get_default d "priority" (PInt 1) = PInt prio →
  from_option (λ aty, get_agents_by_type aty s = []) True (task_type_to_agent_type ty) →
  process_message depth uuid clock co m s =
    Ret (TaskRegistry_register
           (Task_init (uuid 0) ty (dict_get_default d "params" (PDict ∅)) prio (clock 0)) s,
         Some (no_agent_reply co m)).
Proof.
  intros Hcb Hty Hcontent Hd Hne Hprio Hnone.
  unfold process_message. rewrite Hty, Hcb. rewrite decide_True by done.
  unfold process_task_request. rewrite Hcontent, Hd, Hprio.
  unfold create_task. rewrite decide_False by done.
  set (t := Task_init _ _ _ _ _).
  assert (Hassign : assign_task (clock 1) (task_id t) None (TaskRegistry_register t s)
                    = Some (false, TaskRegistry_register t s)).
  { unfold assign_task. rewrite get_task_register_eq. simpl.
    unfold choose_agent. simpl.
    destruct (task_type_to_agent_type ty) as [aty|]; [|done].
    simpl in Hnone. unfold get_agents_by_type in *. simpl. by rewrite Hnone. }
  by rewrite Hassign.
Qed.

Lemma unassignable_request_leaves_task_witness :
  process_message 1000 (λ _, "fresh") (λ k, 7 + k) plain_coordinator
    (mkMessage "user" "coordinator"
       (PDict {["task_type" := PStr "price_analysis"]}) "task_request") empty_system
  = Ret (TaskRegistry_register
           (Task_init "fresh" "price_analysis" (PDict ∅) 1 7) empty_system,
         Some (no_agent_reply plain_coordinator
                 (mkMessage "user" "coordinator"
                    (PDict {["task_type" := PStr "price_analysis"]}) "task_request"))).
Proof.
  eapply eq_trans.
  - apply (unassignable_request_leaves_task 1000 (λ _, "fresh") (λ k, 7 + k)
             plain_coordinator
             (mkMessage "user" "coordinator"
                (PDict {["task_type" := PStr "price_analysis"]}) "task_request")
             empty_system {["task_type" := PStr "price_analysis"]} "price_analysis" 1);
      [reflexivity | reflexivity | reflexivity | vm_compute; reflexivity | discriminate
      | vm_compute; reflexivity | vm_compute; reflexivity].
  - vm_compute; reflexivity.
Defined.

(** ** The message bus *)

Lemma PyDict_set_same {V : Type} (k : string) (v : V) (d : list (string * V)) :
  PyDict.get k d = Some v → PyDict.set k v d = d.
Proof.
  induction d as [|[k' v'] d IH]; simpl; [done|].
  destruct (decide (k' = k)) as [->|Hne].
  - by intros [= ->].
  - intros Hget. by rewrite IH.
Qed.

Lemma hand_to_foreign ref m s a :
  get_agent ref s = Some a → receiver m ≠ agent_id a → hand_to ref m s = Some s.
Proof.
  intros Ha Hne. unfold hand_to. rewrite Ha. simpl.
  unfold receive_message. rewrite decide_False by done.
  destruct s as [ts ags]. unfold with_agents. simpl in *.
  unfold get_agent in Ha. simpl in Ha. by rewrite PyDict_set_same.
Qed.

(** A broadcast reaches nobody: a message addressed to "broadcast" is handed
    to every subscriber but the sender, and each of them drops it, because
    [Agent.receive_message] only queues messages whose receiver is the
    agent's own id.  Unless an agent is itself called "broadcast", the
    delivery leaves every queue as it was. *)
Theorem broadcast_reaches_nobody m bus s :
  receiver m = "broadcast" →
  subscriptions_registered bus s →
  Forall (λ ka, agent_id ka.2 ≠ "broadcast") (agents s) →
  _deliver_message m bus s = Some s.
Proof.
  intros Hrcv Hsubs Hnames. unfold _deliver_message. rewrite decide_True by done.
  unfold subscriptions_registered in Hsubs.
  induction Hsubs as [|[sid ref] rest [a Ha] _ IH]; simpl; [done|].
  assert (Hhand : hand_to ref m s = Some s).
  { apply (hand_to_foreign ref m s a Ha). rewrite Hrcv. simpl in Ha.
    rewrite Forall_forall in Hnames. unfold get_agent in Ha.
    clear -Ha Hnames. intros Heq.
    induction (agents s) as [|[k v] d IHd]; simpl in Ha; [done|].
    destruct (decide (k = ref)).
    - injection Ha as ->. apply (Hnames (k, a)); [by left|done].
    - apply IHd; [done|]. intros x Hx. apply Hnames. by right. }
  destruct (decide (sid ≠ sender m)); simpl; [rewrite Hhand; simpl|]; exact IH.
Qed.

Lemma broadcast_reaches_nobody_witness :
  (subscribers analysts_bus).*1 = ["analyst_1"; "analyst_2"] ∧
  _deliver_message (mkMessage "analyst_1" "broadcast" (PStr "hello") "notification")
    analysts_bus two_analysts = Some two_analysts.
Proof.
  split; [reflexivity|].
  apply (broadcast_reaches_nobody
           (mkMessage "analyst_1" "broadcast" (PStr "hello") "notification")
           analysts_bus two_analysts).
  - reflexivity.
  - unfold subscriptions_registered. vm_compute.
    constructor; [by eexists|]. constructor; [by eexists|]. constructor.
  - vm_compute. constructor; [discriminate|]. constructor; [discriminate|]. constructor.
Defined.

(** Delivery to one receiver: a message whose receiver is not subscribed is
    dropped without a trace; a message to a subscriber is appended at the end
    of that agent's queue, and nothing else changes; but when the
    subscription id differs from the agent's own id the agent drops the
    message as well. *)
Theorem unicast_delivery m bus s :
  receiver m ≠ "broadcast" →
  (PyDict.get (receiver m) (subscribers bus) = None →
   _deliver_message m bus s = Some s) ∧
  (∀ ref a,
     PyDict.get (receiver m) (subscribers bus) = Some ref →
     get_agent ref s = Some a →
     receiver m ≠ agent_id a →
     _deliver_message m bus s = Some s) ∧
  (∀ ref a,
     PyDict.get (receiver m) (subscribers bus) = Some ref →
     get_agent ref s = Some a →
     receiver m = agent_id a →
     ∃ s', _deliver_message m bus s = Some s' ∧
           tasks s' = tasks s ∧
           get_agent ref s' =
             Some (mkAgent (agent_id a) (agent_type a) (message_queue a ++ [m])) ∧
           ∀ other, other ≠ ref → get_agent other s' = get_agent other s).
Proof.
  intros Hrcv. unfold _deliver_message. rewrite decide_False by done.
  split; [by intros ->|]. split.
  - intros ref a -> Ha Hne. by apply (hand_to_foreign ref m s a).
  - intros ref a -> Ha Heq. unfold hand_to. rewrite Ha. simpl.
    eexists. split; [done|]. split; [done|]. unfold get_agent. simpl. split.
    + rewrite PyDict_get_set_eq. unfold receive_message. by rewrite decide_True.
    + intros other Hne. by rewrite PyDict_get_set_ne.
Qed.

Lemma unicast_delivery_witness :
  ∃ s', _deliver_message (mkMessage "user" "analyst_2" (PStr "hello") "request")
          analysts_bus two_analysts = Some s' ∧
        tasks s' = tasks two_analysts ∧
        get_agent "analyst_2" s' =
          Some (mkAgent "analyst_2" "market_trend_analysis_agent"
                  [mkMessage "user" "analyst_2" (PStr "hello") "request"]) ∧
        ∀ other, other ≠ "analyst_2" → get_agent other s' = get_agent other two_analysts.
Proof.
  apply (proj2 (proj2 (unicast_delivery
                         (mkMessage "user" "analyst_2" (PStr "hello") "request")
                         analysts_bus two_analysts ltac:(discriminate)))
           "analyst_2" (mkAgent "analyst_2" "market_trend_analysis_agent" [])).
  - vm_compute; reflexivity.
  - vm_compute; reflexivity.
  - reflexivity.
Defined.

(** ** What a decomposition creates *)

Lemma decompose_loop_children uuid clock pid specs :
  ∀ i s p,
    get_task pid s = Some p →
    NoDup (uuid <$> seq i (length specs)) →
    Forall (λ j, uuid j ≠ pid ∧ get_task (uuid j) s = None) (seq i (length specs)) →
    ∀ j spec, specs !! j = Some spec →
      (decompose_loop uuid clock i pid specs s).1 !! j
        = Some (subtask_of pid (priority p) (uuid (i + j)) (clock (i + j)) spec) ∧
      get_task (uuid (i + j)) (decompose_loop uuid clock i pid specs s).2
        = Some (subtask_of pid (priority p) (uuid (i + j)) (clock (i + j)) spec).
Proof.
  induction specs as [|spec0 rest IH]; intros i s p Hp Hnd Hfresh j spec Hj; [done|].
  csimpl in *. apply NoDup_cons in Hnd as [Hhead Hnd].
  apply Forall_cons in Hfresh as [[Hne Hnew] Hfresh].
  rewrite Hp. csimpl.
  set (sub := Task_init (uuid i) (spec_task_type spec0) (spec_params spec0) (priority p) (clock i)).
  set (s3 := update_task pid _ (update_task (uuid i) _ (TaskRegistry_register sub s))).
  assert (Hp3 : get_task pid s3 = Some (with_subtasks (subtasks p ++ [uuid i]) p)).
  { subst s3. rewrite get_task_update_eq, get_task_update_ne by done.
    rewrite get_task_register_ne by done. by rewrite Hp. }
  assert (Hsub3 : get_task (uuid i) s3 = Some (with_parent_task_id (Some pid) sub)).
  { subst s3. rewrite get_task_update_ne by done.
    rewrite get_task_update_eq. by rewrite (get_task_register_eq sub). }
  assert (Hother : ∀ tid, tid ≠ pid → tid ≠ uuid i → get_task tid s3 = get_task tid s).
  { intros tid H1 H2. subst s3. rewrite !get_task_update_ne by done.
    by rewrite get_task_register_ne. }
  assert (Hfresh3 : Forall (λ j, uuid j ≠ pid ∧ get_task (uuid j) s3 = None)
                      (seq (S i) (length rest))).
  { rewrite Forall_forall in Hfresh. apply Forall_forall. intros k Hk.
    destruct (Hfresh k Hk) as [Hkp Hks]. split; [done|].
    rewrite Hother; [done|done|]. intros Heq. apply Hhead.
    rewrite <- Heq. apply list_elem_of_fmap. by exists k. }
  destruct (decompose_loop uuid clock (S i) pid rest s3) as [subs s4] eqn:Hloop.
  destruct (decompose_loop_spec uuid clock pid rest (S i) s3 _ Hp3 Hnd Hfresh3)
    as (subs' & s4' & Hloop' & _ & _ & _ & Hframe & _).
  rewrite Hloop in Hloop'. injection Hloop' as <- <-. csimpl.
  destruct j as [|j].
  - injection Hj as <-. rewrite Nat.add_0_r. unfold subtask_of.
    split; [done|]. rewrite Hframe; [done|done|done].
  - csimpl in Hj.
    pose proof (IH (S i) s3 _ Hp3 Hnd Hfresh3 j spec Hj) as [H1 H2].
    rewrite Hloop in H1, H2. csimpl in *.
    replace (i + S j) with (S i + j) by lia. split; [exact H1|exact H2].
Qed.

(** What [decompose_task] creates: with fresh identifiers, every
    specification yields one subtask, returned and registered under its
    identifier, that is pending, unassigned and without subtasks, has the
    specification's type and parameters, the parent's priority and the parent
    as its parent; every task other than the parent and the new subtasks is
    untouched, and so are the agents. *)
Theorem decompose_task_creates_subtasks uuid clock pid specs s p :
  get_task pid s = Some p →
  fresh_ids uuid (length specs) pid s →
  ∃ subs s',
    decompose_task uuid clock pid specs s = Some (subs, s') ∧
    length subs = length specs ∧
    (∀ j spec, specs !! j = Some spec →
       subs !! j = Some (subtask_of pid (priority p) (uuid j) (clock j) spec) ∧
       get_task (uuid j) s' = Some (subtask_of pid (priority p) (uuid j) (clock j) spec)) ∧
    (∀ tid, tid ≠ pid → tid ∉ uuid <$> seq 0 (length specs) →
       get_task tid s' = get_task tid s) ∧
    agents s' = agents s.
Proof.
  intros Hp [Hnd Hfresh]. unfold decompose_task. rewrite Hp. csimpl.
  destruct (decompose_loop_spec uuid clock pid specs 0 s p Hp Hnd Hfresh)
    as (subs & s1 & Hloop & Hids & _ & _ & Hframe & Hag).
  pose proof (decompose_loop_children uuid clock pid specs 0 s p Hp Hnd Hfresh) as Hkids.
  rewrite Hloop in *. csimpl in *. eexists _, _. split; [reflexivity|].
  split; [|split; [|split]].
  - apply (f_equal length) in Hids. by rewrite !length_fmap, length_seq in Hids.
  - intros j spec Hj. destruct (Hkids j spec Hj) as [H1 H2]. split; [done|].
    rewrite get_task_update_ne; [done|].
    rewrite Forall_forall in Hfresh. intros Heq.
    assert (Hjn : j < length specs) by (by eapply lookup_lt_Some).
    destruct (Hfresh j) as [Hne _]; [apply elem_of_seq; lia|]. by apply Hne.
  - intros tid H1 H2. rewrite get_task_update_ne by done. by apply Hframe.
  - done.
Qed.

Lemma decompose_task_creates_subtasks_witness :
  ∃ subs s',
    decompose_task (λ _, "second") (λ _, 5) "root"
      [mkSpec "price_analysis" (PStr "q1")] one_child = Some (subs, s') ∧
    length subs = 1 ∧
    (∀ j spec, [mkSpec "price_analysis" (PStr "q1")] !! j = Some spec →
       subs !! j = Some (subtask_of "root" 1 "second" 5 spec) ∧
       get_task "second" s' = Some (subtask_of "root" 1 "second" 5 spec)) ∧
    (∀ tid, tid ≠ "root" → tid ∉ (λ _, "second") <$> seq 0 1 →
       get_task tid s' = get_task tid one_child) ∧
    agents s' = agents one_child.
Proof.
  apply (decompose_task_creates_subtasks (λ _, "second") (λ _, 5) "root"
           [mkSpec "price_analysis" (PStr "q1")] one_child
           (with_subtasks ["child"]
              (with_status "decomposed"
                 (Task_init "root" "comprehensive_analysis" (PDict ∅) 1 0)))).
  - vm_compute; reflexivity.
  - split.
    + apply NoDup_singleton.
    + constructor; [|constructor].
      split; [discriminate | vm_compute; reflexivity].
Defined.

(** ** The decomposition forest is kept *)

Lemma closed_lookup s tid t :
  closed s → get_task tid s = Some t →
  (truthy (parent_task_id t) → is_Some (get_task (default "" (parent_task_id t)) s)) ∧
  Forall (λ c, is_Some (get_task c s)) (subtasks t).
Proof. intros Hc Ht. exact (Hc tid t Ht). Qed.

Lemma links_is_Some tid s s' :
  links <$> get_task tid s' = links <$> get_task tid s →
  is_Some (get_task tid s) → is_Some (get_task tid s').
Proof.
  intros Hl [t Ht]. rewrite Ht in Hl. destruct (get_task tid s'); [by eexists|done].
Qed.

Lemma forest_links s s' :
  forest s →
  (∀ tid, links <$> get_task tid s' = links <$> get_task tid s) →
  forest s'.
Proof.
  intros [Hclosed [rank Hranked]] Hl. split; [|exists rank; by eapply ranked_links].
  intros tid t' Ht'. pose proof (Hl tid) as Htid. unfold get_task in Htid at 1.
  rewrite Ht' in Htid.
  destruct (get_task tid s) as [t|] eqn:Ht; [|done].
  apply fmap_Some_inv in Htid. injection Htid as Hp Hs.
  destruct (closed_lookup s tid t Hclosed Ht) as [Hup Hdown]. rewrite Hp, Hs. split.
  - intros Htruthy. by apply (links_is_Some _ s s'), Hup.
  - eapply Forall_impl; [exact Hdown|]. intros c Hc. simpl in *.
    by apply (links_is_Some _ s s').
Qed.

Lemma assign_task_links now tid explicit s b s' :
  assign_task now tid explicit s = Some (b, s') →
  ∀ tid', links <$> get_task tid' s' = links <$> get_task tid' s.
Proof.
  unfold assign_task. destruct (get_task tid s) as [t|]; [|done]. simpl.
  destruct (decide (status t ≠ "pending")); [by intros [= _ <-]|].
  destruct (match explicit with Some a => Some a | None => choose_agent t s end)
    as [aid|]; [|by intros [= _ <-]].
  destruct (get_agent aid s) as [a|]; [|by intros [= _ <-]].
  intros [= _ <-] tid'.
  change (links <$> get_task tid' (update_task tid
            (λ t0, with_started_at (Some now)
                     (with_status "assigned" (with_assigned_agent (Some aid) t0))) s)
          = links <$> get_task tid' s).
  by apply links_update.
Qed.

Lemma forest_create tid now ty ps prio s :
  forest s → get_task tid s = None → forest (create_task tid now ty ps prio s).2.
Proof.
  intros [Hclosed [rank Hranked]] Hnew. unfold create_task. simpl.
  assert (Hgrow : ∀ x, is_Some (get_task x s) →
            is_Some (get_task x (TaskRegistry_register (Task_init tid ty ps prio now) s))).
  { intros x [t Ht]. destruct (decide (tid = x)) as [->|Hne]; [congruence|].
    rewrite (get_task_register_ne (Task_init tid ty ps prio now)) by done. by eexists. }
  split.
  - intros k t Hk. unfold TaskRegistry_register in Hk. simpl in Hk.
    apply lookup_insert_Some in Hk as [[_ <-]|[Hne Hk]].
    + simpl. split; [done|constructor].
    + destruct (Hclosed k t Hk) as [Hup Hdown]. split.
      * intros Htr. by apply Hgrow, Hup.
      * eapply Forall_impl; [exact Hdown|]. intros c Hc. by apply Hgrow.
  - exists rank. intros k t Hk. unfold TaskRegistry_register in Hk. simpl in Hk.
    apply lookup_insert_Some in Hk as [[_ <-]|[Hne Hk]].
    + simpl. split; [done|constructor].
    + exact (Hranked k t Hk).
Qed.

Lemma decompose_task_cases uuid clock pid specs s p subs s' :
  get_task pid s = Some p →
  fresh_ids uuid (length specs) pid s →
  decompose_task uuid clock pid specs s = Some (subs, s') →
  ∀ k t', get_task k s' = Some t' →
    (k = pid ∧ parent_task_id t' = parent_task_id p ∧
     subtasks t' = subtasks p ++ (uuid <$> seq 0 (length specs))) ∨
    (k ∈ (uuid <$> seq 0 (length specs)) ∧ parent_task_id t' = Some pid ∧ subtasks t' = []) ∨
    (k ≠ pid ∧ (k ∉ uuid <$> seq 0 (length specs)) ∧ get_task k s = Some t').
Proof.
  intros Hp [Hnd Hfresh] Hrun k t' Hk.
  unfold decompose_task in Hrun. rewrite Hp in Hrun. csimpl in Hrun.
  destruct (decompose_loop_spec uuid clock pid specs 0 s p Hp Hnd Hfresh)
    as (subs1 & s1 & Hloop & _ & Hp1 & _ & Hframe & _).
  pose proof (decompose_loop_children uuid clock pid specs 0 s p Hp Hnd Hfresh) as Hkids.
  rewrite Hloop in Hrun, Hkids. injection Hrun as <- <-. csimpl in Hkids.
  destruct (decide (k = pid)) as [->|Hne].
  - left. split; [done|]. rewrite get_task_update_eq, Hp1 in Hk.
    injection Hk as <-. csimpl. by destruct (decide _).
  - rewrite get_task_update_ne in Hk by done.
    destruct (decide (k ∈ uuid <$> seq 0 (length specs))) as [Hin|Hnin].
    + right. left. split; [done|].
      apply list_elem_of_fmap in Hin as (j & -> & Hj). apply elem_of_seq in Hj.
      destruct (lookup_lt_is_Some_2 specs j ltac:(lia)) as [spec Hspec].
      destruct (Hkids j spec Hspec) as [_ Hchild]. rewrite Hk in Hchild.
      by injection Hchild as ->.
    + right. right. split; [done|]. split; [done|]. by rewrite <- Hframe.
Qed.

Lemma decompose_task_registered uuid clock pid specs s p subs s' :
  get_task pid s = Some p →
  fresh_ids uuid (length specs) pid s →
  decompose_task uuid clock pid specs s = Some (subs, s') →
  (∀ x, is_Some (get_task x s) → is_Some (get_task x s') ∧ x ∉ (uuid <$> seq 0 (length specs))) ∧
  (∀ x, x ∈ uuid <$> seq 0 (length specs) → is_Some (get_task x s')) ∧
  pid ∉ uuid <$> seq 0 (length specs).
Proof.
  intros Hp [Hnd Hfresh] Hrun.
  unfold decompose_task in Hrun. rewrite Hp in Hrun. csimpl in Hrun.
  destruct (decompose_loop_spec uuid clock pid specs 0 s p Hp Hnd Hfresh)
    as (subs1 & s1 & Hloop & _ & Hp1 & _ & Hframe & _).
  pose proof (decompose_loop_children uuid clock pid specs 0 s p Hp Hnd Hfresh) as Hkids.
  rewrite Hloop in Hrun, Hkids. injection Hrun as <- <-. csimpl in Hkids.
  rewrite Forall_forall in Hfresh.
  assert (Hunreg : ∀ x, x ∈ uuid <$> seq 0 (length specs) → get_task x s = None ∧ x ≠ pid).
  { intros x Hin. apply list_elem_of_fmap in Hin as (j & -> & Hin).
    by destruct (Hfresh j Hin). }
  split; [|split].
  - intros x [t Ht].
    assert (Hx : x ∉ uuid <$> seq 0 (length specs)).
    { intros Hin. destruct (Hunreg x Hin) as [Hn _]. congruence. }
    split; [|done]. destruct (decide (x = pid)) as [->|Hne].
    + rewrite get_task_update_eq, Hp1. by eexists.
    + rewrite get_task_update_ne by done. rewrite Hframe by done. by eexists.
  - intros x Hin. destruct (Hunreg x Hin) as [_ Hne].
    rewrite get_task_update_ne by done.
    apply list_elem_of_fmap in Hin as (j & -> & Hj). apply elem_of_seq in Hj.
    destruct (lookup_lt_is_Some_2 specs j ltac:(lia)) as [spec Hspec].
    destruct (Hkids j spec Hspec) as [_ Hchild]. by eexists.
  - intros Hin. by destruct (Hunreg pid Hin).
Qed.

Lemma forest_decompose uuid clock pid specs s subs s' :
  forest s →
  fresh_ids uuid (length specs) pid s →
  decompose_task uuid clock pid specs s = Some (subs, s') →
  forest s'.
Proof.
  intros [Hclosed [rank Hranked]] Hfresh Hrun.
  destruct (get_task pid s) as [p|] eqn:Hp;
    [|by unfold decompose_task in Hrun; rewrite Hp in Hrun].
  pose proof (decompose_task_cases uuid clock pid specs s p subs s' Hp Hfresh Hrun) as Hcases.
  destruct (decompose_task_registered uuid clock pid specs s p subs s' Hp Hfresh Hrun)
    as (Hold & Hnew & Hnotpid).
  set (ids := uuid <$> seq 0 (length specs)) in *.
  destruct (closed_lookup s pid p Hclosed Hp) as [Hpup Hpdown].
  destruct (ranked_lookup rank s pid p Hranked Hp) as [Hrup Hrdown].
  split.
  - intros k t' Hk. destruct (Hcases k t' Hk) as
      [(-> & Hpar & Hsub)|[(Hin & Hpar & Hsub)|(Hne & Hnin & Hks)]].
    + rewrite Hpar, Hsub. split.
      * intros Htr. by apply Hold, Hpup.
      * apply Forall_app. split.
        -- eapply Forall_impl; [exact Hpdown|]. intros c Hc. by apply Hold.
        -- apply Forall_forall. intros c Hc. by apply Hnew.
    + rewrite Hpar, Hsub. split; [|constructor].
      intros _. simpl. apply Hold. by eexists.
    + destruct (closed_lookup s k t' Hclosed Hks) as [Hup Hdown]. split.
      * intros Htr. by apply Hold, Hup.
      * eapply Forall_impl; [exact Hdown|]. intros c Hc. by apply Hold.
  - exists (λ x, if decide (x ∈ ids) then S (rank pid) else rank x).
    intros k t' Hk. simpl. destruct (Hcases k t' Hk) as
      [(-> & Hpar & Hsub)|[(Hin & Hpar & Hsub)|(Hne & Hnin & Hks)]].
    + rewrite Hpar, Hsub. rewrite (decide_False (P := pid ∈ ids)) by done. split.
      * intros Htr. destruct (Hold _ (Hpup Htr)) as [_ Hgp].
        rewrite decide_False by done. by apply Hrup.
      * apply Forall_app. split.
        -- rewrite Forall_forall in Hpdown, Hrdown. apply Forall_forall. intros c Hc.
           destruct (Hold c (Hpdown c Hc)) as [_ Hcn].
           rewrite decide_False by done. by apply Hrdown.
        -- apply Forall_forall. intros c Hc. rewrite decide_True by done. lia.
    + rewrite Hpar, Hsub. rewrite (decide_True (P := k ∈ ids)) by done.
      split; [|constructor]. intros _. simpl.
      rewrite decide_False by done. lia.
    + destruct (closed_lookup s k t' Hclosed Hks) as [Hup Hdown].
      destruct (ranked_lookup rank s k t' Hranked Hks) as [Hup' Hdown'].
      rewrite (decide_False (P := k ∈ ids)) by done. split.
      * intros Htr. destruct (Hold _ (Hup Htr)) as [_ Hgp].
        rewrite decide_False by done. by apply Hup'.
      * rewrite Forall_forall in Hdown, Hdown'. apply Forall_forall. intros c Hc.
        destruct (Hold c (Hdown c Hc)) as [_ Hcn].
        rewrite decide_False by done. by apply Hdown'.
Qed.

(** The task manager keeps the tasks a decomposition forest.  If every
    parent and subtask that a task names is registered and the tasks can be
    layered with parents above and subtasks below (as in the empty
    registry), then this still holds after [create_task] and
    [decompose_task] with fresh identifiers, after any [assign_task] and
    after any [update_task_status]; in particular the parent chain that the
    completion check climbs never runs into a cycle. *)
Theorem forest_is_kept s :
  forest s →
  (∀ tid now ty ps prio,
     get_task tid s = None → forest (create_task tid now ty ps prio s).2) ∧
  (∀ uuid clock pid specs subs s',
     fresh_ids uuid (length specs) pid s →
     decompose_task uuid clock pid specs s = Some (subs, s') → forest s') ∧
  (∀ now tid explicit b s',
     assign_task now tid explicit s = Some (b, s') → forest s') ∧
  (∀ depth clock tid st r b s',
     update_task_status depth clock tid st r s = Some (b, s') → forest s').
Proof.
  intros Hforest. split; [|split; [|split]].
  - intros tid now ty ps prio Hnew. by apply forest_create.
  - intros uuid clock pid specs subs s' Hfresh Hrun. by eapply forest_decompose.
  - intros now tid explicit b s' Hrun. eapply forest_links; [done|].
    by eapply assign_task_links.
  - intros depth clock tid st r b s' Hrun. eapply forest_links; [done|].
    by apply update_task_status_links in Hrun as [_ ?].
Qed.

Lemma forest_is_kept_witness :
  forest one_child ∧
  (∀ tid now ty ps prio,
     get_task tid one_child = None → forest (create_task tid now ty ps prio one_child).2) ∧
  (∀ uuid clock pid specs subs s',
     fresh_ids uuid (length specs) pid one_child →
     decompose_task uuid clock pid specs one_child = Some (subs, s') → forest s') ∧
  (∀ now tid explicit b s',
     assign_task now tid explicit one_child = Some (b, s') → forest s') ∧
  (∀ depth clock tid st r b s',
     update_task_status depth clock tid st r one_child = Some (b, s') → forest s').
Proof.
  assert (H : forest one_child).
  { split.
    - unfold closed.
      match goal with
      | |- ?G => apply (@bool_decide_unpack G ltac:(apply _))
      end.
      vm_compute. exact I.
    - exists three_levels_rank. unfold ranked.
      match goal with
      | |- ?G => apply (@bool_decide_unpack G ltac:(apply _))
      end.
      vm_compute. exact I. }
  split; [exact H|]. exact (forest_is_kept one_child H).
Defined.

(** ** A comprehensive request *)

Lemma assign_task_step now tid s t :
  get_task tid s = Some t →
  ∃ b s', assign_task now tid None s = Some (b, s') ∧
    (∀ k, k ≠ tid → get_task k s' = get_task k s) ∧
    ∃ t', get_task tid s' = Some t' ∧ sketch t' = sketch t ∧
          (status t' = status t ∨ status t' = "assigned").
Proof.
  intros Ht. unfold assign_task. rewrite Ht. simpl.
  assert (Hsame : ∃ b s', Some (false, s) = Some (b, s') ∧
            (∀ k, k ≠ tid → get_task k s' = get_task k s) ∧
            ∃ t', get_task tid s' = Some t' ∧ sketch t' = sketch t ∧
                  (status t' = status t ∨ status t' = "assigned")).
  { exists false, s. split; [done|]. split; [done|]. exists t. auto. }
  destruct (decide (status t ≠ "pending")); [done|].
  destruct (choose_agent t s) as [aid|]; [|done].
  destruct (get_agent aid s) as [a|]; [|done].
  eexists _, _. split; [done|]. unfold get_task in *. simpl. split.
  - intros k Hne. by rewrite lookup_alter_ne.
  - rewrite lookup_alter_eq, Ht. simpl. eexists. split; [done|]. split; [done|]. by right.
Qed.

Lemma assign_all_steps clock subs :
  ∀ i s,
    Forall (λ sub, is_Some (get_task (task_id sub) s)) subs →
    ∃ s', assign_all clock i subs s = Some s' ∧
      (∀ k, k ∉ task_id <$> subs → get_task k s' = get_task k s) ∧
      (∀ k t, get_task k s = Some t →
         ∃ t', get_task k s' = Some t' ∧ sketch t' = sketch t ∧
               (status t' = status t ∨ status t' = "assigned")).
Proof.
  induction subs as [|sub rest IH]; intros i s Hall.
  - exists s. split; [done|]. split; [done|]. intros k t Hk. exists t. auto.
  - apply Forall_cons in Hall as [[t0 Ht0] Hall]. csimpl.
    destruct (assign_task_step (clock i) (task_id sub) s t0 Ht0)
      as (b & s1 & Hrun & Hframe & t1 & Ht1 & Hsk1 & Hst1).
    rewrite Hrun. csimpl.
    assert (Hkeep : ∀ k t, get_task k s = Some t →
              ∃ t', get_task k s1 = Some t' ∧ sketch t' = sketch t ∧
                    (status t' = status t ∨ status t' = "assigned")).
    { intros k t Hk. destruct (decide (k = task_id sub)) as [->|Hne].
      - rewrite Ht0 in Hk. injection Hk as <-. by exists t1.
      - exists t. rewrite Hframe by done. auto. }
    destruct (IH (S i) s1) as (s' & Hrest & Hframe' & Hkeep').
    { eapply Forall_impl; [exact Hall|]. intros x [t Ht]. simpl in *.
      destruct (Hkeep _ _ Ht) as (t' & Ht' & _). by eexists. }
    exists s'. split; [done|]. split.
    + intros k Hk. apply not_elem_of_cons in Hk as [Hk1 Hk2].
      rewrite Hframe' by done. by apply Hframe.
    + intros k t Hk. destruct (Hkeep k t Hk) as (t' & Ht' & Hsk & Hst).
      destruct (Hkeep' k t' Ht') as (t'' & Ht'' & Hsk' & Hst').
      exists t''. split; [done|]. split; [congruence|].
      destruct Hst' as [Hst'|Hst']; [|by right]. rewrite Hst'. exact Hst.
Qed.

(** A comprehensive request: with fresh identifiers, the coordinator
    registers a root task for the request, marks it decomposed with exactly
    four subtasks (market, selling point, competitor and price analysis, in
    this order, with the request's category and dates), answers with the root
    id and the four subtask ids, and leaves each subtask either pending or
    assigned, with the root as parent and the request's priority. *)
Theorem comprehensive_request_decomposes depth uuid clock co m s d pd prio :
  callbacks co !! "task_request" = None →
  msg_type m = "task_request" →
  content m = PDict d →
  d !! "task_type" = Some (PStr "comprehensive_analysis") →
  dict_get_default d "params" (PDict ∅) = PDict pd →
  dict_get_default d "priority" (PInt 1) = PInt prio →
  NoDup (uuid <$> seq 0 5) →
  Forall (λ i, get_task (uuid i) s = None) (seq 0 5) →
  ∃ s',
    process_message depth uuid clock co m s =
      Ret (s', Some (decomposed_reply co m (uuid 0) (uuid <$> seq 1 4))) ∧
    get_task (uuid 0) s' =
      Some (with_subtasks (uuid <$> seq 1 4)
              (with_status "decomposed"
                 (Task_init (uuid 0) "comprehensive_analysis" (PDict pd) prio (clock 0)))) ∧
    ∀ j spec, specs_for pd !! j = Some spec →
      ∃ t, get_task (uuid (S j)) s' = Some t ∧
           sketch t = sketch (subtask_of (uuid 0) prio (uuid (S j)) (clock (S j)) spec) ∧
           (status t = "pending" ∨ status t = "assigned").
Proof.
  intros Hcb Hty Hcontent Hd Hps Hprio Hnd Hfresh.
  unfold process_message. rewrite Hty, Hcb. rewrite decide_True by done.
  unfold process_task_request. rewrite Hcontent, Hd, Hps, Hprio.
  unfold create_task. rewrite decide_True by done.
  set (root := Task_init (uuid 0) "comprehensive_analysis" (PDict pd) prio (clock 0)).
  set (s1 := TaskRegistry_register root s).
  fold (specs_for pd).
  assert (Hlen : length (specs_for pd) = 4) by reflexivity.
  change (seq 0 5) with (0 :: seq 1 4) in Hnd, Hfresh. rewrite fmap_cons in Hnd.
  apply NoDup_cons in Hnd as [Hroot Hnd]. apply Forall_cons in Hfresh as [_ Hfresh].
  assert (Hp : get_task (uuid 0) s1 = Some root) by apply (get_task_register_eq root).
  assert (Hnd' : NoDup ((λ i, uuid (S i)) <$> seq 0 (length (specs_for pd)))).
  { rewrite Hlen. exact Hnd. }
  assert (Hfresh' : Forall (λ j, (λ i, uuid (S i)) j ≠ uuid 0 ∧
                                 get_task ((λ i, uuid (S i)) j) s1 = None)
                      (seq 0 (length (specs_for pd)))).
  { rewrite Hlen. apply Forall_forall. intros j Hj. apply elem_of_seq in Hj.
    assert (Hne : uuid (S j) ≠ uuid 0).
    { intros Heq. apply Hroot. rewrite <- Heq. apply list_elem_of_fmap.
      exists (S j). split; [done|]. apply elem_of_seq. lia. }
    split; [done|]. subst s1. rewrite (get_task_register_ne root) by done.
    rewrite Forall_forall in Hfresh. apply (Hfresh (S j)). apply elem_of_seq. lia. }
  destruct (decompose_loop_spec (λ i, uuid (S i)) (λ i, clock (S i)) (uuid 0)
              (specs_for pd) 0 s1 root Hp Hnd' Hfresh')
    as (subs & s2 & Hloop & Hids & Hp2 & _ & _ & _).
  pose proof (decompose_loop_children (λ i, uuid (S i)) (λ i, clock (S i)) (uuid 0)
                (specs_for pd) 0 s1 root Hp Hnd' Hfresh') as Hkids.
  change (task_id root) with (uuid 0). change (priority root) with prio in Hkids.
  unfold decompose_task. rewrite Hp. cbv beta iota delta [mbind option_bind].
  rewrite Hloop in Hkids |- *. csimpl in Hkids. cbv beta iota.
  rewrite Hlen in Hids. change (uuid <$> seq 1 4) with ((λ i, uuid (S i)) <$> seq 0 4).
  set (mark := λ t : Task, if decide (status t = "pending") then with_status "decomposed" t else t).
  set (s2' := update_task (uuid 0) mark s2).
  assert (Hkids' : ∀ j spec, specs_for pd !! j = Some spec →
            get_task (uuid (S j)) s2' =
              Some (subtask_of (uuid 0) prio (uuid (S j)) (clock (S j)) spec)).
  { intros j spec Hj. destruct (Hkids j spec Hj) as [_ Hchild].
    subst s2'. rewrite get_task_update_ne; [done|].
    assert (Hjn : j < 4) by (rewrite <- Hlen; by eapply lookup_lt_Some).
    intros Heq. apply Hroot. rewrite Heq. apply list_elem_of_fmap.
    exists (S j). split; [done|]. apply elem_of_seq. lia. }
  destruct (assign_all_steps (λ i, clock (5 + i)) subs 0 s2')
    as (s3 & Hassign & Hframe3 & Hkeep3).
  { apply Forall_forall. intros sub Hsub.
    assert (Hin : task_id sub ∈ (λ i, uuid (S i)) <$> seq 0 4).
    { rewrite <- Hids. apply list_elem_of_fmap. by exists sub. }
    apply list_elem_of_fmap in Hin as (j & -> & Hj). apply elem_of_seq in Hj.
    destruct (lookup_lt_is_Some_2 (specs_for pd) j ltac:(rewrite Hlen; lia)) as [spec Hspec].
    rewrite (Hkids' j spec Hspec). by eexists. }
  rewrite Hassign. exists s3. split; [|split].
  - unfold decomposed_reply, send_message. do 3 f_equal.
    rewrite <- Hids. by rewrite <- list_fmap_compose.
  - rewrite Hframe3.
    + subst s2'. rewrite get_task_update_eq, Hp2. reflexivity.
    + rewrite Hids. exact Hroot.
  - intros j spec Hj. destruct (Hkeep3 _ _ (Hkids' j spec Hj)) as (t & Ht & Hsk & Hst).
    exists t. split; [done|]. split; [done|]. exact Hst.
Qed.

Lemma comprehensive_request_decomposes_witness :
  ∃ s',
    process_message 1000 request_ids (λ k, k) plain_coordinator comprehensive_request
      two_analysts =
      Ret (s', Some (decomposed_reply plain_coordinator comprehensive_request
                       (request_ids 0) (request_ids <$> seq 1 4))) ∧
    get_task (request_ids 0) s' =
      Some (with_subtasks (request_ids <$> seq 1 4)
              (with_status "decomposed"
                 (Task_init (request_ids 0) "comprehensive_analysis"
                    (PDict (<["category" := PStr "phones"]> ∅)) 1 0))) ∧
    ∀ j spec, specs_for (<["category" := PStr "phones"]> ∅) !! j = Some spec →
      ∃ t, get_task (request_ids (S j)) s' = Some t ∧
           sketch t = sketch (subtask_of (request_ids 0) 1 (request_ids (S j)) (S j) spec) ∧
           (status t = "pending" ∨ status t = "assigned").
Proof.
  apply (comprehensive_request_decomposes 1000 request_ids (λ k, k) plain_coordinator
           comprehensive_request two_analysts
           (<["task_type" := PStr "comprehensive_analysis"]>
              (<["params" := PDict (<["category" := PStr "phones"]> ∅)]> ∅))
           (<["category" := PStr "phones"]> ∅) 1).
  - reflexivity.
  - reflexivity.
  - reflexivity.
  - vm_compute; reflexivity.
  - vm_compute; reflexivity.
  - vm_compute; reflexivity.
  - match goal with
    | |- ?G => apply (@bool_decide_unpack G ltac:(apply _))
    end.
    vm_compute. exact I.
  - vm_compute. repeat constructor.
Defined.

(** ** The memory module *)

Lemma indexed_index_add key idx kv k v :
  indexed k v (index_add key idx kv) =
    if decide (kv = (k, v))
    then Some (let keys := default [] (indexed k v idx) in
               if bool_decide (key ∈ keys) then keys else keys ++ [key])
    else indexed k v idx.
Proof.
  destruct kv as [k' v']. unfold index_add, indexed. simpl.
  destruct (decide ((k', v') = (k, v))) as [[= -> ->]|Hne].
  - rewrite lookup_insert_eq. simpl. rewrite lookup_insert_eq.
    by destruct (idx !! k).
  - destruct (decide (k' = k)) as [->|Hk].
    + rewrite lookup_insert_eq. simpl.
      rewrite lookup_insert_ne by congruence. by destruct (idx !! k).
    + by rewrite lookup_insert_ne.
Qed.

Lemma indexed_index_add_mono key idx kv k v keys x :
  indexed k v idx = Some keys → x ∈ keys →
  ∃ keys', indexed k v (index_add key idx kv) = Some keys' ∧ x ∈ keys'.
Proof.
  intros Hidx Hx. rewrite indexed_index_add. destruct (decide (kv = (k, v))).
  - rewrite Hidx. simpl. eexists. split; [done|].
    destruct (bool_decide (key ∈ keys)); [done|]. apply elem_of_app. by left.
  - by exists keys.
Qed.

Lemma indexed_foldl_mono key md :
  ∀ idx k v keys x,
    indexed k v idx = Some keys → x ∈ keys →
    ∃ keys', indexed k v (foldl (index_add key) idx md) = Some keys' ∧ x ∈ keys'.
Proof.
  induction md as [|kv md IH]; intros idx k v keys x Hidx Hx; simpl.
  - by exists keys.
  - destruct (indexed_index_add_mono key idx kv k v keys x Hidx Hx) as (keys1 & H1 & Hx1).
    by eapply IH.
Qed.

Lemma indexed_foldl_new key md :
  ∀ idx k v, (k, v) ∈ md →
    ∃ keys, indexed k v (foldl (index_add key) idx md) = Some keys ∧ key ∈ keys.
Proof.
  induction md as [|kv md IH]; intros idx k v Hin; simpl.
  - by apply elem_of_nil in Hin.
  - apply elem_of_cons in Hin as [<-|Hin]; [|by apply IH].
    eapply indexed_foldl_mono.
    + rewrite indexed_index_add. by rewrite decide_True.
    + simpl. destruct (bool_decide (key ∈ _)) eqn:Hk.
      * by apply bool_decide_eq_true in Hk.
      * apply elem_of_app. right. constructor.
Qed.

Lemma search_loop_later idx query :
  ∀ results x,
    x ∈ search_loop idx query false results ↔
    x ∈ results ∧
    Forall (λ kv, ∃ keys, indexed kv.1 kv.2 idx = Some keys ∧ x ∈ keys) query.
Proof.
  induction query as [|[k v] query IH]; intros results x; simpl.
  - split; [by intros ?|by intros [? _]].
  - destruct (indexed k v idx) as [keys|] eqn:Hidx.
    + rewrite IH, elem_of_intersection, elem_of_list_to_set. split.
      * intros [[Hr Hk] Hall]. split; [done|]. constructor; [|done]. by exists keys.
      * intros [Hr Hall]. apply Forall_cons in Hall as [(keys' & Hk' & Hx) Hall].
        simpl in Hk'. rewrite Hidx in Hk'. injection Hk' as <-. done.
    + split; [by intros ?%elem_of_empty|].
      intros [_ Hall]. apply Forall_cons in Hall as [(keys' & Hk' & _) _].
      simpl in Hk'. congruence.
Qed.

Lemma search_spec query self x :
  x ∈ search query self ↔ query ≠ [] ∧ listed x query self.
Proof.
  unfold search, listed. destruct query as [|[k v] query]; simpl.
  - split; [by intros ?%elem_of_empty|by intros [? _]].
  - destruct (indexed k v (index self)) as [keys|] eqn:Hidx.
    + rewrite search_loop_later, elem_of_list_to_set. split.
      * intros [Hk Hall]. split; [done|]. constructor; [|done]. by exists keys.
      * intros [_ Hall]. apply Forall_cons in Hall as [(keys' & Hk' & Hx) Hall].
        simpl in Hk'. rewrite Hidx in Hk'. injection Hk' as <-. done.
    + split; [by intros ?%elem_of_empty|].
      intros [_ Hall]. apply Forall_cons in Hall as [(keys' & Hk' & _) _].
      simpl in Hk'. congruence.
Qed.

(** What [search] finds: a key is in the result exactly when the query is
    not empty and the index lists the key under every item of the query.  So
    an empty query finds nothing (not everything), and the result does not
    depend on the order of the items of the query. *)
Theorem search_finds_listed_keys query self x :
  (x ∈ search query self ↔ query ≠ [] ∧ listed x query self) ∧
  search [] self = ∅ ∧
  ∀ query', query' ≡ₚ query → search query' self = search query self.
Proof.
  split; [apply search_spec|]. split; [done|].
  intros query' Hperm. apply set_eq. intros y. rewrite !search_spec.
  unfold listed. rewrite !Forall_forall. split.
  - intros [Hne Hall]. split.
    + intros ->. by apply Permutation_nil_r in Hperm.
    + intros kv Hkv. apply Hall. by rewrite Hperm.
  - intros [Hne Hall]. split.
    + intros ->. by apply Permutation_nil_l in Hperm.
    + intros kv Hkv. apply Hall. by rewrite <- Hperm.
Qed.

(** Store, then retrieve and search: [retrieve] returns what the last
    [store] under the key put there and is unchanged for every other key, and
    the key is found by every non-empty query whose items are all among the
    metadata it was stored with. *)
Theorem stored_entry_is_found now key d md self query :
  query ≠ [] →
  query ⊆ md →
  retrieve key (store now key d md self) = d ∧
  (∀ key', key' ≠ key → retrieve key' (store now key d md self) = retrieve key' self) ∧
  key ∈ search query (store now key d md self).
Proof.
  intros Hne Hsub. split; [|split].
  - unfold retrieve, store. simpl. by rewrite lookup_insert_eq.
  - intros key' Hk. unfold retrieve, store. simpl. by rewrite lookup_insert_ne.
  - apply search_spec. split; [done|]. unfold listed, store. simpl.
    apply Forall_forall. intros [k v] Hin. simpl. apply indexed_foldl_new. by apply Hsub.
Qed.

Lemma stored_entry_is_found_witness :
  retrieve "report" one_report = PStr "first" ∧
  (∀ key', key' ≠ "report" → retrieve key' one_report = retrieve key' MemoryModule_new) ∧
  "report" ∈ search [("kind", "market")] one_report.
Proof.
  apply (stored_entry_is_found 1 "report" (PStr "first")
           [("category", "phones"); ("kind", "market")] MemoryModule_new
           [("kind", "market")]).
  - done.
  - intros kv Hkv. apply list_elem_of_singleton in Hkv as ->.
    apply elem_of_cons. right. constructor.
Defined.

(** The index never forgets: whatever is stored later, under whatever key
    and metadata, every key a query found before is still found by it.  In
    particular a key stored again with other metadata is still found under
    its old metadata, although [retrieve] now returns the new data. *)
Theorem index_never_forgets now key d md self query :
  search query self ⊆ search query (store now key d md self) ∧
  ∀ now' d' md',
    query ≠ [] → query ⊆ md →
    key ∈ search query (store now' key d' md' (store now key d md self)) ∧
    retrieve key (store now' key d' md' (store now key d md self)) = d'.
Proof.
  assert (∀ now key d md self, search query self ⊆ search query (store now key d md self))
    as Hmono.
  { clear. intros now key d md self x. rewrite !search_spec. intros [Hne Hall].
    split; [done|]. unfold listed in *. eapply Forall_impl; [exact Hall|].
    intros [k v] (keys & Hk & Hx). simpl in *. unfold store. simpl.
    by eapply indexed_foldl_mono. }
  split; [apply Hmono|]. intros now' d' md' Hne Hsub. split.
  - apply Hmono. apply search_spec. split; [done|]. unfold listed, store. simpl.
    apply Forall_forall. intros [k v] Hin. simpl. apply indexed_foldl_new. by apply Hsub.
  - unfold retrieve, store. simpl. by rewrite lookup_insert_eq.
Qed.

Lemma index_never_forgets_witness :
  "report" ∈ search [("category", "phones")] report_moved ∧
  retrieve "report" report_moved = PStr "second".
Proof.
  apply (proj2 (index_never_forgets 1 "report" (PStr "first")
                  [("category", "phones"); ("kind", "market")] MemoryModule_new
                  [("category", "phones")])
               2 (PStr "second") [("category", "laptops")]).
  - done.
  - intros kv Hkv. apply list_elem_of_singleton in Hkv as ->. constructor.
Defined.

Lemma index_ok_index_add key self kv :
  is_Some (memory self !! key) →
  index_ok self →
  index_ok (mkMemoryModule (memory self) (index_add key (index self) kv)).
Proof.
  intros Hkey Hok k v keys. simpl. rewrite indexed_index_add.
  destruct (decide (kv = (k, v))) as [->|Hne]; [|apply Hok].
  intros [= <-].
  assert (NoDup (default [] (indexed k v (index self))) ∧
          ∀ x, x ∈ default [] (indexed k v (index self)) → is_Some (memory self !! x))
    as [Hnd Hin].
  { destruct (indexed k v (index self)) as [keys|] eqn:Hidx; simpl.
    - by apply (Hok k v).
    - split; [constructor|]. intros x Hx. by apply elem_of_nil in Hx. }
  simpl. destruct (bool_decide (key ∈ _)) eqn:Hk; [done|].
  apply bool_decide_eq_false in Hk. split.
  - apply NoDup_app. split; [done|]. split; [|apply NoDup_singleton].
    intros x Hx Hx'. apply list_elem_of_singleton in Hx' as ->. done.
  - intros x Hx. apply elem_of_app in Hx as [Hx|Hx]; [by apply Hin|].
    by apply list_elem_of_singleton in Hx as ->.
Qed.

Lemma index_ok_foldl key md :
  ∀ self, is_Some (memory self !! key) → index_ok self →
    index_ok (mkMemoryModule (memory self) (foldl (index_add key) (index self) md)).
Proof.
  induction md as [|kv md IH]; intros self Hkey Hok; simpl.
  - by destruct self.
  - apply (IH (mkMemoryModule (memory self) (index_add key (index self) kv)));
      [done|by apply index_ok_index_add].
Qed.

(** The index stays sound: in the fresh module, and after every [store], no
    list of the index names a key twice, and every key it names has an entry,
    so that whatever [search] returns can be retrieved. *)
Theorem index_stays_ok now key d md self :
  index_ok MemoryModule_new ∧
  (index_ok self →
   index_ok (store now key d md self) ∧
   ∀ query x, x ∈ search query (store now key d md self) →
     ∃ entry, memory (store now key d md self) !! x = Some entry ∧
              retrieve x (store now key d md self) = data entry).
Proof.
  split.
  { intros k v keys Hidx. unfold indexed in Hidx. simpl in Hidx.
    by rewrite lookup_empty in Hidx. }
  intros Hok.
  assert (index_ok (store now key d md self)) as Hok'.
  { pose proof (index_ok_foldl key md
             (mkMemoryModule (<[key := mkMemoryEntry d md now]> (memory self)) (index self)))
      as Hfold.
    simpl in Hfold. apply Hfold.
    - simpl. rewrite lookup_insert_eq. by eexists.
    - intros k v keys Hidx. destruct (Hok k v keys Hidx) as [Hnd Hin]. split; [done|].
      intros x Hx. simpl. destruct (decide (x = key)) as [->|Hne].
      + rewrite lookup_insert_eq. by eexists.
      + rewrite lookup_insert_ne by done. by apply Hin. }
  split; [done|]. intros query x Hx. apply search_spec in Hx as [Hne Hall].
  destruct query as [|[k v] query]; [done|].
  apply Forall_cons in Hall as [(keys & Hidx & Hin) _].
  destruct (Hok' k v keys Hidx) as [_ Hmem]. destruct (Hmem x Hin) as [entry Hentry].
  exists entry. split; [done|]. unfold retrieve. by rewrite Hentry.
Qed.

(** ** Assignment and the pending status *)

Lemma not_pending_update tid k f s :
  not_pending tid s →
  (∀ t, status t ≠ "pending" → status (f t) ≠ "pending") →
  not_pending tid (update_task k f s).
Proof.
  intros (t & Ht & Hst) Hf. destruct (decide (k = tid)) as [->|Hne].
  - exists (f t). rewrite get_task_update_eq, Ht. split; [done|by apply Hf].
  - exists t. by rewrite get_task_update_ne.
Qed.

Lemma check_parent_not_pending depth :
  ∀ clock pid s s' tid,
    _check_parent_task_completion depth clock pid s = Some s' →
    not_pending tid s → not_pending tid s'.
Proof.
  induction depth as [|depth IH]; intros clock pid s s' tid Hrun Hnp; [done|].
  rewrite check_parent_unfold in Hrun.
  destruct (get_task pid s) as [p|]; [|by injection Hrun as <-].
  destruct (subtasks p) as [|c cs]; [by injection Hrun as <-|].
  destruct (collect_results s (c :: cs) ∅) as [res|]; [|by injection Hrun as <-].
  assert (not_pending tid (update_task pid (aggregated (clock 0) res) s)) as Hnp1.
  { apply not_pending_update; [done|]. by intros t _. }
  destruct (truthy (parent_task_id p)); [by eapply IH|by injection Hrun as <-].
Qed.

Lemma assign_task_not_pending now tid' explicit s b s' tid :
  assign_task now tid' explicit s = Some (b, s') →
  not_pending tid s → not_pending tid s'.
Proof.
  unfold assign_task. destruct (get_task tid' s) as [t|]; [|done]. simpl.
  destruct (decide (status t ≠ "pending")); [by intros [= _ <-]|].
  destruct (match explicit with Some a => Some a | None => choose_agent t s end)
    as [aid|]; [|by intros [= _ <-]].
  destruct (get_agent aid s) as [a|]; [|by intros [= _ <-]].
  intros [= _ <-] Hnp.
  change (not_pending tid (update_task tid'
            (λ t0, with_started_at (Some now)
                     (with_status "assigned" (with_assigned_agent (Some aid) t0))) s)).
  apply not_pending_update; [done|]. by intros t0 _.
Qed.

Lemma update_task_status_not_pending depth clock tid' st r s b s' tid :
  st ≠ "pending" →
  update_task_status depth clock tid' st r s = Some (b, s') →
  not_pending tid s → not_pending tid s'.
Proof.
  intros Hst. unfold update_task_status.
  destruct (get_task tid' s) as [t|]; [|by intros [= _ <-]].
  intros Hrun Hnp.
  assert (not_pending tid (update_task tid' (with_status st) s)) as Hnp1.
  { apply not_pending_update; [done|]. by intros t0 _. }
  destruct (decide (st = "completed" ∨ st = "failed")); [|by injection Hrun as _ <-].
  assert (not_pending tid
            (update_task tid' (λ t0, with_result r (with_completed_at (Some (clock 0)) t0))
               (update_task tid' (with_status st) s))) as Hnp2.
  { apply not_pending_update; [done|]. by intros t0 H0. }
  destruct (truthy (parent_task_id t)); [|by injection Hrun as _ <-].
  destruct (_check_parent_task_completion depth _ _ _) as [s3|] eqn:Hcheck; [|done].
  injection Hrun as _ <-. by eapply check_parent_not_pending.
Qed.

Lemma decompose_task_not_pending uuid clock pid specs s subs s' tid :
  fresh_ids uuid (length specs) pid s →
  decompose_task uuid clock pid specs s = Some (subs, s') →
  not_pending tid s → not_pending tid s'.
Proof.
  intros [Hnd Hfresh] Hrun (t & Ht & Hst).
  destruct (get_task pid s) as [p|] eqn:Hp;
    [|by unfold decompose_task in Hrun; rewrite Hp in Hrun].
  unfold decompose_task in Hrun. rewrite Hp in Hrun. csimpl in Hrun.
  destruct (decompose_loop_spec uuid clock pid specs 0 s p Hp Hnd Hfresh)
    as (subs1 & s1 & Hloop & _ & Hp1 & _ & Hframe & _).
  rewrite Hloop in Hrun. injection Hrun as <- <-.
  destruct (decide (pid = tid)) as [->|Hne].
  - rewrite Hp in Ht. injection Ht as ->.
    eexists. rewrite get_task_update_eq, Hp1. split; [done|]. simpl.
    by rewrite decide_False.
  - exists t. rewrite get_task_update_ne by done. split; [|done].
    rewrite Hframe; [done|done|].
    intros Hin. apply list_elem_of_fmap in Hin as (j & -> & Hj).
    rewrite Forall_forall in Hfresh. destruct (Hfresh j Hj) as [_ Hnone].
    unfold get_task in Ht. congruence.
Qed.

(** [assign_task] serves pending tasks only.  It returns True only for a
    task that is pending, and leaves it assigned.  A registered task that is
    not pending is refused, with or without an explicit agent, and nothing
    changes; and it stays not pending through every [assign_task], every
    [update_task_status] that reports a status other than pending, every
    [decompose_task] with fresh ids and every [create_task] under another id.
    So a task that was assigned is not assigned a second time unless a
    status report sets it back to pending. *)
Theorem assigned_until_reset tid s :
  (∀ now explicit s',
     assign_task now tid explicit s = Some (true, s') →
     status <$> get_task tid s = Some "pending" ∧
     status <$> get_task tid s' = Some "assigned" ∧
     not_pending tid s') ∧
  (not_pending tid s →
   (∀ now explicit, assign_task now tid explicit s = Some (false, s)) ∧
   (∀ now tid' explicit b s',
      assign_task now tid' explicit s = Some (b, s') → not_pending tid s') ∧
   (∀ depth clock tid' st r b s',
      st ≠ "pending" →
      update_task_status depth clock tid' st r s = Some (b, s') → not_pending tid s') ∧
   (∀ uuid clock pid specs subs s',
      fresh_ids uuid (length specs) pid s →
      decompose_task uuid clock pid specs s = Some (subs, s') → not_pending tid s') ∧
   (∀ tid' now ty ps prio,
      tid' ≠ tid → not_pending tid (create_task tid' now ty ps prio s).2)).
Proof.
  split.
  - intros now explicit s'. unfold assign_task.
    destruct (get_task tid s) as [t|] eqn:Ht; [|done]. simpl.
    destruct (decide (status t ≠ "pending")) as [|Hp]; [done|].
    destruct (match explicit with Some a => Some a | None => choose_agent t s end)
      as [aid|]; [|done].
    destruct (get_agent aid s) as [a|]; [|done].
    intros [= <-]. split; [f_equal; by destruct (decide (status t = "pending"))|].
    unfold not_pending, get_task in *. simpl. rewrite lookup_alter_eq, Ht. simpl.
    split; [done|]. by eexists.
  - intros (t & Ht & Hst). split; [|split; [|split; [|split]]].
    + intros now explicit. unfold assign_task. rewrite Ht. simpl. by rewrite decide_True.
    + intros now tid' explicit b s' Hrun. eapply assign_task_not_pending; [done|by exists t].
    + intros depth clock tid' st r b s' Hne Hrun.
      eapply update_task_status_not_pending; [done|done|by exists t].
    + intros uuid clock pid specs subs s' Hfresh Hrun.
      eapply decompose_task_not_pending; [done|done|by exists t].
    + intros tid' now ty ps prio Hne. exists t. unfold create_task. simpl.
      by rewrite (get_task_register_ne (Task_init tid' ty ps prio now)).
Qed.

Lemma assigned_until_reset_witness :
  assign_task 9 "job" None loaded_and_idle = Some (true, job_assigned) ∧
  not_pending "job" job_assigned ∧
  assign_task 10 "job" (Some "analyst_1") job_assigned = Some (false, job_assigned) ∧
  update_task_status 1000 (λ k, 11 + k) "job" "running" PNone job_assigned
    = Some (true, job_running) ∧
  not_pending "job" job_running ∧
  assign_task 12 "job" None job_running = Some (false, job_running).
Proof.
  assert (assign_task 9 "job" None loaded_and_idle = Some (true, job_assigned)) as H1
    by (vm_compute; reflexivity).
  split; [exact H1|].
  pose proof (proj1 (assigned_until_reset "job" loaded_and_idle) 9 None job_assigned H1)
    as (_ & _ & Hnp).
  split; [exact Hnp|].
  split; [exact (proj1 (proj2 (assigned_until_reset "job" job_assigned) Hnp)
                   10 (Some "analyst_1"))|].
  assert (update_task_status 1000 (λ k, 11 + k) "job" "running" PNone job_assigned
          = Some (true, job_running)) as H2 by (vm_compute; reflexivity).
  split; [exact H2|].
  assert ("running" ≠ "pending") as Hrun by done.
  pose proof (proj1 (proj2 (proj2 (proj2 (assigned_until_reset "job" job_assigned) Hnp)))
                1000 (λ k, 11 + k) "job" "running" PNone true job_running Hrun H2) as Hnp2.
  split; [exact Hnp2|].
  exact (proj1 (proj2 (assigned_until_reset "job" job_running) Hnp2) 12 None).
Defined.

(** ** A decomposition into nothing *)




End CoreExtras.


Module BusinessAnalysisExtras.
Import BusinessAnalysis BusinessAnalysisSpec BusinessAnalysisFacts.

(** ** The search for an agent *)

Lemma suits_test required d :
  is_str (default PNone (d !! "expertise")) required
    && is_str (dict_get_default d "status" (PStr "available")) "available" = true
  ↔ suits required (PDict d).
Proof.
  unfold suits, dict_get_default. split.
  - intros Htest. apply andb_true_iff in Htest as [He Hs]. exists d. split; [done|].
    destruct (d !! "expertise") as [[| | |e| |]|]; try done.
    simpl in He. apply bool_decide_eq_true in He as ->. split; [done|].
    destruct (d !! "status") as [[| | |st| |]|]; try done; [|by left].
    simpl in Hs. apply bool_decide_eq_true in Hs as ->. by right.
  - intros (d' & [= <-] & He & Hs). rewrite He. simpl.
    rewrite bool_decide_eq_true_2 by done.
    destruct Hs as [-> | ->]; simpl; by rewrite ?bool_decide_eq_true_2.
Qed.

Lemma find_in_Some required l aid :
  find_in required l = Ret (Some aid) ↔
  ∃ l1 info l2, l = l1 ++ (aid, info) :: l2 ∧ suits required info ∧
                Forall (passed_over required) l1.
Proof.
  induction l as [|[a info] l IH]; simpl.
  - split; [done|]. intros (l1 & ? & ? & Hl & _). by destruct l1.
  - destruct info as [| | | | |d];
      try (split; [done|]; intros ([|[a' i'] l1] & info & l2 & Hl & Hs & Hall);
           [injection Hl as -> <- _; by destruct Hs as (? & ? & _)
           |injection Hl as -> <- _; apply Forall_cons in Hall as [[[? ?] _] _]; done]).
    destruct (is_str _ _ && is_str _ _) eqn:Htest.
    + apply suits_test in Htest. split.
      * intros [= <-]. by exists [], (PDict d), l.
      * intros ([|[a' i'] l1] & info & l2 & Hl & Hs & Hall).
        -- by injection Hl as -> _ _.
        -- injection Hl as -> <- _. apply Forall_cons in Hall as [[_ Hno] _]. done.
    + assert (¬ suits required (PDict d)) as Hno.
      { intros Hs. apply suits_test in Hs. congruence. }
      rewrite IH. split.
      * intros (l1 & info & l2 & -> & Hs & Hall).
        exists ((a, PDict d) :: l1), info, l2. split; [done|]. split; [done|].
        constructor; [|done]. split; [by exists d|done].
      * intros ([|[a' i'] l1] & info & l2 & Hl & Hs & Hall).
        -- injection Hl as -> <- _. done.
        -- injection Hl as -> <- ->. apply Forall_cons in Hall as [_ Hall].
           by exists l1, info, l2.
Qed.

Lemma find_in_None required l :
  find_in required l = Ret None ↔ Forall (passed_over required) l.
Proof.
  induction l as [|[a info] l IH]; simpl.
  - split; [constructor|done].
  - destruct info as [| | | | |d];
      try (split; [done|]; intros Hall; apply Forall_cons in Hall as [[[? ?] _] _]; done).
    destruct (is_str _ _ && is_str _ _) eqn:Htest.
    + apply suits_test in Htest. split; [done|].
      intros Hall. apply Forall_cons in Hall as [[_ Hno] _]. done.
    + assert (¬ suits required (PDict d)) as Hno.
      { intros Hs. apply suits_test in Hs. congruence. }
      rewrite IH. split.
      * intros Hall. constructor; [|done]. split; [by exists d|done].
      * intros Hall. by apply Forall_cons in Hall as [_ Hall].
Qed.

Lemma find_in_Raise required l e :
  find_in required l = Raise e ↔
  e = AttributeError "get" ∧
  ∃ l1 aid info l2, l = l1 ++ (aid, info) :: l2 ∧ ¬ is_dict info ∧
                    Forall (passed_over required) l1.
Proof.
  induction l as [|[a info] l IH]; simpl.
  - split; [done|]. intros (_ & l1 & ? & ? & ? & Hl & _). by destruct l1.
  - destruct info as [| | | | |d];
      try (split;
           [intros [= <-]; split; [done|];
            eexists [], a, _, l; split; [done|]; split; [by intros [? ?]|constructor]
           |by intros [-> _]]).
    destruct (is_str _ _ && is_str _ _) eqn:Htest.
    + apply suits_test in Htest. split; [done|].
      intros (_ & [|[a' i'] l1] & aid & info & l2 & Hl & Hnd & Hall).
      * injection Hl as -> <- _. destruct Hnd. by exists d.
      * injection Hl as -> <- _. apply Forall_cons in Hall as [[_ Hno] _]. done.
    + assert (¬ suits required (PDict d)) as Hno.
      { intros Hs. apply suits_test in Hs. congruence. }
      rewrite IH. split.
      * intros (-> & l1 & aid & info & l2 & -> & Hnd & Hall). split; [done|].
        exists ((a, PDict d) :: l1), aid, info, l2. split; [done|]. split; [done|].
        constructor; [|done]. split; [by exists d|done].
      * intros (-> & [|[a' i'] l1] & aid & info & l2 & Hl & Hnd & Hall).
        -- injection Hl as -> <- _. destruct Hnd. by exists d.
        -- injection Hl as -> <- ->. apply Forall_cons in Hall as [_ Hall].
           split; [done|]. by exists l1, aid, info, l2.
Qed.

(** [_find_suitable_agent] answers with the first agent, in registration
    order, whose information suits the required expertise: every agent
    before it was a dictionary that does not suit (wrong expertise, or a
    status other than available).  It answers None exactly when every
    registered information is a dictionary and none suits, and it raises
    AttributeError exactly when it meets an information that is not a
    dictionary before any agent that suits. *)
Theorem find_suitable_agent_first required self :
  (∀ aid, _find_suitable_agent required self = Ret (Some aid) ↔
     ∃ l1 info l2, available_agents self = l1 ++ (aid, info) :: l2 ∧
                   suits required info ∧ Forall (passed_over required) l1) ∧
  (_find_suitable_agent required self = Ret None ↔
     Forall (passed_over required) (available_agents self)) ∧
  (∀ e, _find_suitable_agent required self = Raise e ↔
     e = AttributeError "get" ∧
     ∃ l1 aid info l2, available_agents self = l1 ++ (aid, info) :: l2 ∧
                       ¬ is_dict info ∧ Forall (passed_over required) l1) ∧
  _find_suitable_agent required self ≠ Unmodelled.
Proof.
  unfold _find_suitable_agent. split; [intros aid; apply find_in_Some|].
  split; [apply find_in_None|]. split; [intros e; apply find_in_Raise|].
  induction (available_agents self) as [|[a info] l IH]; simpl; [done|].
  destruct info; try done. by destruct (_ && _).
Qed.

(** ** Decomposition of an analysis request *)

Lemma decompose_cases d :
  ∃ ts, _decompose_analysis_task (PDict d) = Ret ts ∧
        (ts = [] ∧ d !! "analysis_type" ≠ Some (PStr "市场趋势")
                 ∧ d !! "analysis_type" ≠ Some (PStr "竞品分析")
         ∨ (d !! "analysis_type" = Some (PStr "市场趋势")
            ∨ d !! "analysis_type" = Some (PStr "竞品分析")) ∧
           ∃ t1 t2 t3, ts = [t1; t2; t3] ∧
             task_id t1 = "data_collection_1" ∧ depends_on t1 = None ∧
             task_id t2 = "data_analysis_2" ∧ depends_on t2 = Some ["data_collection_1"] ∧
             task_id t3 = "insight_generation_3" ∧ depends_on t3 = Some ["data_analysis_2"]).
Proof.
  unfold _decompose_analysis_task.
  destruct (d !! "analysis_type") as [[| | |ty| |]|] eqn:Hty; simpl;
    try (eexists; split; [done|]; left; done).
  destruct (bool_decide (ty = "市场趋势")) eqn:H1.
  { apply bool_decide_eq_true in H1 as ->. eexists. split; [done|]. right.
    split; [by left|]. by eexists _, _, _. }
  apply bool_decide_eq_false in H1.
  destruct (bool_decide (ty = "竞品分析")) eqn:H2.
  { apply bool_decide_eq_true in H2 as ->. eexists. split; [done|]. right.
    split; [by right|]. by eexists _, _, _. }
  apply bool_decide_eq_false in H2.
  eexists. split; [done|]. left. split; [done|]. split; congruence.
Qed.

Lemma decompose_ids_NoDup request ts :
  _decompose_analysis_task request = Ret ts → NoDup (task_id <$> ts).
Proof.
  destruct request as [| | | | |d]; try done. intros Hts.
  destruct (decompose_cases d) as (ts' & Hts' & Hcases).
  assert (ts' = ts) as -> by congruence.
  destruct Hcases as [(-> & _)|(_ & t1 & t2 & t3 & -> & H1 & _ & H2 & _ & H3 & _)].
  - constructor.
  - csimpl. rewrite H1, H2, H3.
    match goal with
    | |- ?G => apply (@bool_decide_unpack G ltac:(apply _))
    end.
    vm_compute. exact I.
Qed.

(** A request that is a dictionary is always decomposed, never refused:
    into no task at all when its analysis type is neither of the two known
    ones, and into three tasks otherwise.  The task ids are pairwise
    distinct, and every dependency of a task is the id of a task that comes
    earlier in the list, so the tasks are listed in an order in which they
    can be carried out. *)
Theorem decomposition_is_ordered d :
  ∃ ts, _decompose_analysis_task (PDict d) = Ret ts ∧
    (ts = [] ↔ d !! "analysis_type" ≠ Some (PStr "市场趋势")
               ∧ d !! "analysis_type" ≠ Some (PStr "竞品分析")) ∧
    (ts = [] ∨ length ts = 3) ∧
    NoDup (task_id <$> ts) ∧
    ∀ i t deps dep,
      ts !! i = Some t → depends_on t = Some deps → dep ∈ deps →
      ∃ j t', j < i ∧ ts !! j = Some t' ∧ task_id t' = dep.
Proof.
  destruct (decompose_cases d) as (ts & Hts & Hcases). exists ts. split; [done|].
  split; [|split; [|split; [by eapply decompose_ids_NoDup|]]].
  - destruct Hcases as [(-> & Hno)|(Hyes & t1 & t2 & t3 & -> & _)]; [done|].
    split; [done|]. intros [? ?]. by destruct Hyes.
  - destruct Hcases as [(-> & _)|(_ & t1 & t2 & t3 & -> & _)]; [by left|by right].
  - destruct Hcases as [(-> & _)|(_ & t1 & t2 & t3 & -> & H1 & D1 & H2 & D2 & H3 & D3)];
      intros i t deps dep Hi Hdeps Hdep; [done|].
    destruct i as [|[|[|i]]]; simpl in Hi; try done; injection Hi as <-.
    + congruence.
    + rewrite D2 in Hdeps. injection Hdeps as <-.
      apply list_elem_of_singleton in Hdep as ->. exists 0, t1. split; [lia|done].
    + rewrite D3 in Hdeps. injection Hdeps as <-.
      apply list_elem_of_singleton in Hdep as ->. exists 1, t2. split; [lia|done].
Qed.

(** ** One assignment *)

Lemma find_in_member required l a :
  find_in required l = Ret (Some a) →
  ∃ info, (a, info) ∈ l ∧ suits required info.
Proof.
  intros Hfind. apply find_in_Some in Hfind as (l1 & info & l2 & -> & Hs & _).
  exists info. split; [|done]. apply elem_of_app. right. constructor.
Qed.

Lemma assign_task_cases mid now t aid self self' :
  _assign_task mid now t aid self = Ret self' →
  (self' = with_active_tasks (<[task_id t := waiting_entry t aid]> (active_tasks self)) self ∧
   ∃ deps, depends_on t = Some deps ∧ ¬ dependencies_completed deps self) ∨
  (self' = with_active_tasks (<[task_id t := failed_entry t aid]> (active_tasks self)) self ∧
   ∃ suitable, _find_suitable_agent (required_expertise t) self = Ret suitable ∧
               truthy suitable = false) ∨
  (∃ a, _find_suitable_agent (required_expertise t) self = Ret (Some a) ∧ a ≠ "" ∧
        from_option (λ deps, dependencies_completed deps self) True (depends_on t) ∧
        self' = send_message mid now a
                  (PDict (<["task" := task_dict t]> (<["analysis_id" := PStr aid]> ∅)))
                  "task_assignment" (Some (task_id t))
                  (with_active_tasks
                     (<[task_id t := mkActiveTask t "assigned" aid None (Some a)]>
                        (active_tasks self)) self)).
Proof.
  unfold _assign_task. intros Hrun.
  apply bind_Ret_inv in Hrun as (ok & Hcheck & Hrun).
  destruct ok; simpl in Hrun.
  - apply bind_Ret_inv in Hrun as (suitable & Hfind & Hrun).
    destruct (truthy suitable) eqn:Htruthy; simpl in Hrun; injection Hrun as <-.
    + right. right. destruct suitable as [a|]; [|done]. exists a.
      split; [done|]. split.
      { simpl in Htruthy. intros ->. done. }
      split; [|done].
      destruct (depends_on t) as [deps|]; simpl; [|done].
      by apply check_dependencies_true.
    + right. left. split; [done|]. by exists suitable.
  - left. injection Hrun as <-. split; [done|].
    destruct (depends_on t) as [deps|]; [|by injection Hcheck].
    exists deps. split; [done|]. rewrite <- check_dependencies_true. congruence.
Qed.

(** A task_assignment message is handed over exactly when the task is
    recorded as assigned.  Whenever [_assign_task] returns, the task has an
    entry in active_tasks under its id, for the given analysis, and either
    - the entry is assigned to a registered agent with a non-empty id whose
      information suits the required expertise, every dependency of the task
      has a completed result, and, if a message handler is set, exactly one
      message is handed over: a task_assignment addressed to that agent, with
      the task id as reference (without a handler nothing is handed over,
      although the entry says assigned); or
    - the entry is waiting or failed, names no agent, and nothing is handed
      over. *)
Theorem task_assignment_iff_assigned mid now t aid self self' :
  _assign_task mid now t aid self = Ret self' →
  ∃ e, active_tasks self' = <[task_id t := e]> (active_tasks self) ∧
       task e = t ∧ analysis_id e = aid ∧
       ((status e = "assigned" ∧
         (∃ a info, assigned_agent e = Some a ∧ a ≠ "" ∧
            (a, info) ∈ available_agents self ∧ suits (required_expertise t) info ∧
            handed_over self' =
              handed_over self ++
                (if message_handler self
                 then [assignment_message mid now self a t aid] else [])) ∧
         from_option (λ deps, dependencies_completed deps self) True (depends_on t))
        ∨ ((status e = "waiting" ∨ status e = "failed") ∧
           assigned_agent e = None ∧ handed_over self' = handed_over self)).
Proof.
  intros Hrun.
  apply assign_task_cases in Hrun as [(-> & _)|[(-> & _)|(a & Hfind & Hne & Hdeps & ->)]].
  - exists (waiting_entry t aid). split; [done|]. split; [done|]. split; [done|].
    right. split; [by left|done].
  - exists (failed_entry t aid). split; [done|]. split; [done|]. split; [done|].
    right. split; [by right|done].
  - exists (mkActiveTask t "assigned" aid None (Some a)).
    apply find_in_member in Hfind as (info & Hin & Hs).
    split.
    { unfold send_message. simpl. by destruct (message_handler self). }
    split; [done|]. split; [done|]. left. split; [done|]. split; [|done].
    exists a, info. split; [done|]. split; [done|]. split; [done|]. split; [done|].
    unfold send_message. simpl. destruct (message_handler self); simpl; [done|].
    by rewrite app_nil_r.
Qed.

Lemma task_assignment_iff_assigned_witness :
  ∃ e, active_tasks collection_assigned =
         <[task_id collection_task := e]> (active_tasks staffed) ∧
       task e = collection_task ∧ analysis_id e = "request_1" ∧
       ((status e = "assigned" ∧
         (∃ a info, assigned_agent e = Some a ∧ a ≠ "" ∧
            (a, info) ∈ available_agents staffed ∧
            suits (required_expertise collection_task) info ∧
            handed_over collection_assigned =
              handed_over staffed ++
                (if message_handler staffed
                 then [assignment_message "message_a" 1 staffed a collection_task "request_1"]
                 else [])) ∧
         from_option (λ deps, dependencies_completed deps staffed) True
           (depends_on collection_task))
        ∨ ((status e = "waiting" ∨ status e = "failed") ∧
           assigned_agent e = None ∧ handed_over collection_assigned = handed_over staffed)).
Proof.
  apply (task_assignment_iff_assigned "message_a" 1 collection_task "request_1" staffed
           collection_assigned).
  vm_compute; reflexivity.
Defined.
(** ** What a call leaves alone *)

Lemma send_message_sent mid now to c ty ref self :
  ty = "task_assignment" ∨ ty = "registration_confirmation" →
  ∃ sent, handed_over (send_message mid now to c ty ref self) = handed_over self ++ sent ∧
          Forall (own_dispatch self) sent ∧
          (message_handler self = false → sent = []).
Proof.
  intros Hty. unfold send_message. destruct (message_handler self).
  - eexists [_]. split; [done|]. split; [|done]. constructor; [|constructor]. by split.
  - exists []. by rewrite app_nil_r.
Qed.

Lemma send_message_frame mid now to c ty ref self :
  let self' := send_message mid now to c ty ref self in
  agent_id self' = agent_id self ∧ message_handler self' = message_handler self ∧
  message_queue self' = message_queue self ∧ memory self' = memory self ∧
  current_analysis_id self' = current_analysis_id self ∧
  available_agents self' = available_agents self ∧
  active_tasks self' = active_tasks self.
Proof.
  cbv zeta. unfold send_message.
  destruct (message_handler self) eqn:Hh; simpl; by rewrite ?Hh.
Qed.

Lemma assign_task_frame mid now t aid self self' :
  _assign_task mid now t aid self = Ret self' →
  agent_id self' = agent_id self ∧ message_handler self' = message_handler self ∧
  message_queue self' = message_queue self ∧ memory self' = memory self ∧
  current_analysis_id self' = current_analysis_id self ∧
  available_agents self' = available_agents self ∧
  ∃ sent, handed_over self' = handed_over self ++ sent ∧
          Forall (own_dispatch self) sent ∧
          (message_handler self = false → sent = []).
Proof.
  intros Hrun.
  apply assign_task_cases in Hrun as [(-> & _)|[(-> & _)|(a & _ & _ & _ & ->)]].
  - split_and!; try done. exists []. by rewrite app_nil_r.
  - split_and!; try done. exists []. by rewrite app_nil_r.
  - match goal with
    | |- context [send_message ?mid ?now ?to ?c ?ty ?ref ?s] =>
        destruct (send_message_sent mid now to c ty ref s (or_introl eq_refl))
          as (sent & Hsent & Hown & Hoff);
        destruct (send_message_frame mid now to c ty ref s)
          as (Ha & Hh & Hq & Hm & Hc & Hav & Hact)
    end.
    split_and!; try done. by exists sent.
Qed.

Lemma assign_each_frame uuid clock ts :
  ∀ i aid self self',
    assign_each uuid clock i ts aid self = Ret self' →
    agent_id self' = agent_id self ∧ message_handler self' = message_handler self ∧
    message_queue self' = message_queue self ∧ memory self' = memory self ∧
    current_analysis_id self' = current_analysis_id self ∧
    available_agents self' = available_agents self ∧
    ∃ sent, handed_over self' = handed_over self ++ sent ∧
            Forall (own_dispatch self) sent ∧
            (message_handler self = false → sent = []).
Proof.
  induction ts as [|t ts IH]; intros i aid self self' Hrun; simpl in Hrun.
  - injection Hrun as <-. split_and!; try done. exists []. by rewrite app_nil_r.
  - apply bind_Ret_inv in Hrun as (self1 & Hone & Hrest).
    apply assign_task_frame in Hone as (Ha & Hh & Hq & Hm & Hc & Hav & s1 & Hs1 & Ho1 & Hf1).
    apply IH in Hrest as (Ha' & Hh' & Hq' & Hm' & Hc' & Hav' & s2 & Hs2 & Ho2 & Hf2).
    split_and!; try congruence.
    exists (s1 ++ s2). split; [by rewrite Hs2, Hs1, app_assoc|]. split.
    + apply Forall_app. split; [done|].
      eapply Forall_impl; [exact Ho2|]. intros x [Hx ?]. split; [congruence|done].
    + intros Hoff. rewrite Hf1, Hf2 by congruence. done.
Qed.

Lemma assign_task_entry mid now t aid self self' :
  _assign_task mid now t aid self = Ret self' →
  ∃ e, active_tasks self' = <[task_id t := e]> (active_tasks self) ∧
       task e = t ∧ analysis_id e = aid ∧
       (status e = "waiting" ∨ status e = "failed" ∨ status e = "assigned").
Proof.
  intros Hrun.
  apply assign_task_cases in Hrun as [(-> & _)|[(-> & _)|(a & _ & _ & _ & ->)]].
  - exists (waiting_entry t aid). split; [done|]. split; [done|]. split; [done|]. by left.
  - exists (failed_entry t aid). split; [done|]. split; [done|]. split; [done|].
    right. by left.
  - exists (mkActiveTask t "assigned" aid None (Some a)). split.
    { unfold send_message. by destruct (message_handler _). }
    split; [done|]. split; [done|]. right. by right.
Qed.

Lemma assign_each_entries uuid clock ts :
  ∀ i aid self self',
    assign_each uuid clock i ts aid self = Ret self' →
    NoDup (task_id <$> ts) →
    (∀ t, t ∈ ts →
       ∃ e, active_tasks self' !! task_id t = Some e ∧ task e = t ∧ analysis_id e = aid ∧
            (status e = "waiting" ∨ status e = "failed" ∨ status e = "assigned")) ∧
    (∀ k, k ∉ task_id <$> ts → active_tasks self' !! k = active_tasks self !! k).
Proof.
  induction ts as [|t ts IH]; intros i aid self self' Hrun Hnd; simpl in Hrun.
  - injection Hrun as <-. split; [|done]. intros t Ht. by apply elem_of_nil in Ht.
  - apply bind_Ret_inv in Hrun as (self1 & Hone & Hrest).
    csimpl in Hnd. apply NoDup_cons in Hnd as [Hfresh Hnd].
    apply assign_task_entry in Hone as (e & He & Ht & Ha & Hst).
    destruct (IH _ _ _ _ Hrest Hnd) as [Hin Hout]. split.
    + intros t' Ht'. apply elem_of_cons in Ht' as [->|Ht']; [|by apply Hin].
      exists e. rewrite (Hout _ Hfresh), He, lookup_insert_eq. done.
    + intros k Hk. csimpl in Hk. apply not_elem_of_cons in Hk as [Hne Hk].
      rewrite (Hout _ Hk), He. by rewrite lookup_insert_ne.
Qed.

(** ** An analysis request *)

(** When [process_message] returns for an analysis_request, the request has
    been decomposed, the coordinator's current analysis is the request's
    message id, its memory holds the record of the analysis (request,
    requester, status in_progress and the ids of the tasks) under
    analysis_<id>, and every task of the decomposition has an entry in
    active_tasks under its id that carries this analysis id and is waiting,
    failed or assigned.  All other entries are as before; as the task ids are
    the same for every request, the entries of an earlier analysis are
    replaced. *)
Theorem analysis_request_records_tasks uuid clock m self self' :
  message_type m = "analysis_request" →
  process_message uuid clock m self = Ret self' →
  ∃ ts, _decompose_analysis_task (content m) = Ret ts ∧
    current_analysis_id self' = Some (message_id m) ∧
    memory self' =
      <[("analysis_" ++ message_id m)%string := analysis_record m ts]> (memory self) ∧
    (∀ t, t ∈ ts →
       ∃ e, active_tasks self' !! task_id t = Some e ∧ task e = t ∧
            analysis_id e = message_id m ∧
            (status e = "waiting" ∨ status e = "failed" ∨ status e = "assigned")) ∧
    (∀ k, k ∉ task_id <$> ts → active_tasks self' !! k = active_tasks self !! k).
Proof.
  intros Hty Hrun. unfold process_message in Hrun.
  rewrite decide_True in Hrun by done. unfold _start_analysis_workflow in Hrun.
  apply bind_Ret_inv in Hrun as (ts & Hts & Hrun). exists ts. split; [done|].
  unfold get_memory, update_memory in Hrun. simpl in Hrun.
  rewrite lookup_insert_eq in Hrun. simpl in Hrun.
  pose proof (assign_each_frame _ _ _ _ _ _ _ Hrun) as (_ & _ & _ & Hm & Hc & _).
  pose proof (assign_each_entries _ _ _ _ _ _ _ Hrun (decompose_ids_NoDup _ _ Hts))
    as [Hin Hout].
  split; [by rewrite Hc|]. split; [|done].
  rewrite Hm. simpl. by rewrite insert_insert_eq.
Qed.

Lemma analysis_request_records_tasks_witness :
  ∃ ts, _decompose_analysis_task (content trend_request) = Ret ts ∧
    current_analysis_id started = Some (message_id trend_request) ∧
    memory started =
      <[("analysis_" ++ message_id trend_request)%string := analysis_record trend_request ts]>
        (memory staffed) ∧
    (∀ t, t ∈ ts →
       ∃ e, active_tasks started !! task_id t = Some e ∧ task e = t ∧
            analysis_id e = message_id trend_request ∧
            (status e = "waiting" ∨ status e = "failed" ∨ status e = "assigned")) ∧
    (∀ k, k ∉ task_id <$> ts → active_tasks started !! k = active_tasks staffed !! k).
Proof.
  apply (analysis_request_records_tasks draw_id (λ k, 1 + k) trend_request staffed started).
  - reflexivity.
  - vm_compute; reflexivity.
Defined.

(** ** A whole queue *)

Lemma process_message_frame uuid clock m self self' :
  process_message uuid clock m self = Ret self' →
  agent_id self' = agent_id self ∧ message_handler self' = message_handler self ∧
  message_queue self' = message_queue self ∧
  ∃ sent, handed_over self' = handed_over self ++ sent ∧
          Forall (own_dispatch self) sent ∧
          (message_handler self = false → sent = []).
Proof.
  unfold process_message. intros Hrun.
  destruct (decide (message_type m = "analysis_request")).
  { unfold _start_analysis_workflow in Hrun.
    apply bind_Ret_inv in Hrun as (ts & _ & Hrun).
    destruct (get_memory _ _); try done.
    apply assign_each_frame in Hrun as (Ha & Hh & Hq & _ & _ & _ & sent & Hs & Ho & Hf).
    split_and!; try done. by exists sent. }
  destruct (decide (message_type m = "task_result")); [done|].
  destruct (decide (message_type m = "agent_registration")).
  - injection Hrun as <-.
    match goal with
    | |- context [send_message ?mid ?now ?to ?c ?ty ?ref ?s] =>
        destruct (send_message_sent mid now to c ty ref s (or_intror eq_refl))
          as (sent & Hsent & Hown & Hoff);
        destruct (send_message_frame mid now to c ty ref s)
          as (Ha & Hh & Hq & Hm & Hc & Hav & Hact)
    end.
    split_and!; try done. by exists sent.
  - injection Hrun as <-. split_and!; try done. exists []. by rewrite app_nil_r.
Qed.

Lemma drain_frame uuid clock queue :
  ∀ k self self',
    message_queue self = queue →
    drain uuid clock k queue self = Ret self' →
    agent_id self' = agent_id self ∧ message_handler self' = message_handler self ∧
    message_queue self' = [] ∧
    ∃ sent, handed_over self' = handed_over self ++ sent ∧
            Forall (own_dispatch self) sent ∧
            (message_handler self = false → sent = []).
Proof.
  induction queue as [|m q IH]; intros k self self' Hq Hrun; simpl in Hrun.
  - injection Hrun as <-. split_and!; try done. exists []. by rewrite app_nil_r.
  - apply bind_Ret_inv in Hrun as (self1 & Hone & Hrest).
    apply process_message_frame in Hone as (Ha & Hh & Hq1 & s1 & Hs1 & Ho1 & Hf1).
    apply IH in Hrest as (Ha' & Hh' & Hq' & s2 & Hs2 & Ho2 & Hf2); [|done].
    simpl in *. split_and!; try congruence.
    exists (s1 ++ s2). split; [by rewrite Hs2, Hs1, app_assoc|]. split.
    + apply Forall_app. split; [done|].
      eapply Forall_impl; [exact Ho2|]. intros x [Hx ?]. split; [congruence|done].
    + intros Hoff. rewrite Hf1, Hf2 by congruence. done.
Qed.

(** When [process_messages] returns, the queue is empty and everything handed
    over earlier is still there, in order.  What has been added comes from the
    coordinator itself and consists of task assignments and registration
    confirmations only: the requester of an analysis is never answered,
    neither with a result nor with an error.  Without a message handler
    nothing is handed over at all. *)
Theorem coordinator_hands_over_only_dispatches uuid clock self self' :
  process_messages uuid clock self = Ret self' →
  message_queue self' = [] ∧
  agent_id self' = agent_id self ∧ message_handler self' = message_handler self ∧
  ∃ sent, handed_over self' = handed_over self ++ sent ∧
          Forall (own_dispatch self) sent ∧
          (message_handler self = false → sent = []).
Proof.
  unfold process_messages. intros Hrun.
  apply drain_frame in Hrun as (Ha & Hh & Hq & Hsent); [|done]. done.
Qed.

Lemma coordinator_hands_over_only_dispatches_witness :
  message_queue inbox_done = [] ∧
  agent_id inbox_done = agent_id inbox ∧
  message_handler inbox_done = message_handler inbox ∧
  ∃ sent, handed_over inbox_done = handed_over inbox ++ sent ∧
          Forall (own_dispatch inbox) sent ∧
          (message_handler inbox = false → sent = []).
Proof.
  apply (coordinator_hands_over_only_dispatches (λ _, draw_id) (λ _ k, 1 + k) inbox
           inbox_done).
  vm_compute; reflexivity.
Defined.

(** ** Registration *)

Lemma PyDict_set_split {V : Type} (k : string) (v : V) (d : list (string * V)) :
  ∃ l1 l2, PyDict.set k v d = l1 ++ (k, v) :: l2 ∧
           ∀ P : string * V → Prop, Forall P d → Forall P l1 ∧ Forall P l2.
Proof.
  induction d as [|[k' v'] d (l1 & l2 & Hset & Hall)]; simpl.
  - exists [], []. split; [done|]. intros P _. split; constructor.
  - destruct (decide (k' = k)) as [->|Hne].
    + exists [], d. split; [done|]. intros P HP. apply Forall_cons in HP as [_ HP].
      split; [constructor|done].
    + exists ((k', v') :: l1), l2. rewrite Hset. split; [done|].
      intros P HP. apply Forall_cons in HP as [Hhd HP].
      destruct (Hall P HP) as [H1 H2]. split; [by constructor|done].
Qed.

(** An agent_registration message is always accepted, whatever its content:
    the sender is entered under its id (keeping its place if it was entered
    before), a registration_confirmation that refers to the message is handed
    over if a handler is set, and the tasks are untouched.  For an expertise
    for which no agent was found before, the search afterwards finds the
    sender if the content suits the expertise, still finds nobody if the
    content is a dictionary that does not suit, and raises AttributeError if
    the content is not a dictionary. *)
Theorem registration_round_trip uuid clock m self :
  message_type m = "agent_registration" →
  ∃ self', process_message uuid clock m self = Ret self' ∧
    available_agents self' =
      PyDict.set (from_agent_id m) (content m) (available_agents self) ∧
    handed_over self' =
      handed_over self ++
        (if message_handler self
         then [confirmation_message (uuid 0) (clock 0) self m] else []) ∧
    active_tasks self' = active_tasks self ∧
    ∀ required, _find_suitable_agent required self = Ret None →
      (suits required (content m) →
       _find_suitable_agent required self' = Ret (Some (from_agent_id m))) ∧
      (is_dict (content m) → ¬ suits required (content m) →
       _find_suitable_agent required self' = Ret None) ∧
      (¬ is_dict (content m) →
       _find_suitable_agent required self' = Raise (AttributeError "get")).
Proof.
  intros Hty. unfold process_message.
  rewrite decide_False by (rewrite Hty; done).
  rewrite decide_False by (rewrite Hty; done).
  rewrite decide_True by done.
  eexists. split; [done|].
  match goal with
  | |- context [send_message ?mid ?now ?to ?c ?ty ?ref ?s] =>
      destruct (send_message_frame mid now to c ty ref s)
        as (Ha & Hh & Hq & Hm & Hc & Hav & Hact)
  end.
  split; [by rewrite Hav|]. split.
  { unfold send_message. simpl. destruct (message_handler self); simpl; [done|].
    by rewrite app_nil_r. }
  split; [by rewrite Hact|].
  intros required Hnone. unfold _find_suitable_agent in *. rewrite Hav. simpl.
  apply find_in_None in Hnone.
  destruct (PyDict_set_split (from_agent_id m) (content m) (available_agents self))
    as (l1 & l2 & Hset & Hall).
  destruct (Hall _ Hnone) as [H1 H2]. rewrite Hset. split; [|split].
  - intros Hs. apply find_in_Some. by exists l1, (content m), l2.
  - intros Hd Hno. apply find_in_None. apply Forall_app. split; [done|].
    constructor; [by split|done].
  - intros Hnd. apply find_in_Raise. split; [done|].
    by exists l1, (from_agent_id m), (content m), l2.
Qed.

Lemma registration_round_trip_witness :
  ∃ self', process_message draw_id (λ k, k) registration staffed = Ret self' ∧
    available_agents self' =
      PyDict.set (from_agent_id registration) (content registration)
        (available_agents staffed) ∧
    handed_over self' =
      handed_over staffed ++
        (if message_handler staffed
         then [confirmation_message (draw_id 0) 0 staffed registration] else []) ∧
    active_tasks self' = active_tasks staffed ∧
    ∀ required, _find_suitable_agent required staffed = Ret None →
      (suits required (content registration) →
       _find_suitable_agent required self' = Ret (Some (from_agent_id registration))) ∧
      (is_dict (content registration) → ¬ suits required (content registration) →
       _find_suitable_agent required self' = Ret None) ∧
      (¬ is_dict (content registration) →
       _find_suitable_agent required self' = Raise (AttributeError "get")).
Proof.
  apply (registration_round_trip draw_id (λ k, k) registration staffed). reflexivity.
Defined.

(** ** Requests that start no work *)

(** An analysis request whose content is not a dictionary makes
    [process_message] raise AttributeError.  A request whose analysis type is
    neither of the two known ones is accepted without any sign of a problem:
    the call returns, the request becomes the current analysis and is
    remembered as in_progress with an empty task list, no task is entered in
    active_tasks and nothing is handed over, so the requester hears nothing. *)
Theorem undecomposable_request uuid clock m self :
  message_type m = "analysis_request" →
  (¬ is_dict (content m) →
   process_message uuid clock m self = Raise (AttributeError "get")) ∧
  (∀ d, content m = PDict d →
     d !! "analysis_type" ≠ Some (PStr "市场趋势") →
     d !! "analysis_type" ≠ Some (PStr "竞品分析") →
     ∃ self', process_message uuid clock m self = Ret self' ∧
       current_analysis_id self' = Some (message_id m) ∧
       memory self' =
         <[("analysis_" ++ message_id m)%string := analysis_record m []]> (memory self) ∧
       active_tasks self' = active_tasks self ∧
       handed_over self' = handed_over self ∧
       available_agents self' = available_agents self).
Proof.
  intros Hty. unfold process_message. rewrite decide_True by done.
  unfold _start_analysis_workflow. split.
  - intros Hnd. destruct (content m) as [| | | | |d]; try done. destruct Hnd. by exists d.
  - intros d Hd H1 H2. rewrite Hd.
    destruct (decompose_cases d) as (ts & Hts & [(-> & _)|([?|?] & _)]); try done.
    rewrite Hts. simpl. unfold get_memory, update_memory. simpl.
    rewrite lookup_insert_eq. simpl. eexists. split; [done|]. simpl.
    split; [done|]. split; [|done].
    rewrite insert_insert_eq. unfold analysis_record. by rewrite Hd.
Qed.

Lemma undecomposable_request_witness :
  (¬ is_dict (content survey_request) →
   process_message draw_id (λ k, k) survey_request staffed = Raise (AttributeError "get")) ∧
  (∀ d, content survey_request = PDict d →
     d !! "analysis_type" ≠ Some (PStr "市场趋势") →
     d !! "analysis_type" ≠ Some (PStr "竞品分析") →
     ∃ self', process_message draw_id (λ k, k) survey_request staffed = Ret self' ∧
       current_analysis_id self' = Some (message_id survey_request) ∧
       memory self' =
         <[("analysis_" ++ message_id survey_request)%string :=
             analysis_record survey_request []]> (memory staffed) ∧
       active_tasks self' = active_tasks staffed ∧
       handed_over self' = handed_over staffed ∧
       available_agents self' = available_agents staffed).
Proof.
  apply (undecomposable_request draw_id (λ k, k) survey_request staffed). reflexivity.
Defined.

(** ** The first task of a workflow *)

Lemma assign_task_assigns mid now t aid self a :
  from_option (λ deps, dependencies_completed deps self) True (depends_on t) →
  _find_suitable_agent (required_expertise t) self = Ret (Some a) →
  a ≠ "" →
  _assign_task mid now t aid self =
    Ret (send_message mid now a
           (PDict (<["task" := task_dict t]> (<["analysis_id" := PStr aid]> ∅)))
           "task_assignment" (Some (task_id t))
           (with_active_tasks
              (<[task_id t := mkActiveTask t "assigned" aid None (Some a)]>
                 (active_tasks self)) self)).
Proof.
  intros Hdeps Hfind Hne. unfold _assign_task.
  assert (match depends_on t with
          | Some deps => _check_dependencies deps self
          | None => Ret true
          end = Ret true) as ->.
  { destruct (depends_on t) as [deps|]; [|done]. by apply check_dependencies_true. }
  simpl. rewrite Hfind. simpl. by rewrite bool_decide_eq_false_2.
Qed.

(** Only the first task of a workflow is dispatched.  For a request of a
    known analysis type, on a coordinator with a message handler and no
    recorded task result, if an agent with a non-empty id is found for the
    first task's expertise, then [process_message] returns, hands over
    exactly one message, the assignment of the first task to that agent, and
    records the first task as assigned to it; the other two tasks are
    recorded as waiting and nothing is sent for them, whether or not agents
    for them are registered. *)
Theorem only_first_task_is_dispatched uuid clock m self ts t1 a :
  message_type m = "analysis_request" →
  _decompose_analysis_task (content m) = Ret ts →
  ts !! 0 = Some t1 →
  task_results self = ∅ →
  message_handler self = true →
  _find_suitable_agent (required_expertise t1) self = Ret (Some a) →
  a ≠ "" →
  ∃ self', process_message uuid clock m self = Ret self' ∧
    handed_over self' =
      handed_over self ++ [assignment_message (uuid 0) (clock 0) self a t1 (message_id m)] ∧
    active_tasks self' !! task_id t1 =
      Some (mkActiveTask t1 "assigned" (message_id m) None (Some a)) ∧
    length ts = 3 ∧
    ∀ i t, 0 < i → ts !! i = Some t →
      active_tasks self' !! task_id t = Some (waiting_entry t (message_id m)).
Proof.
  intros Hty Hts H0 Hres Hhandler Hfind Hne.
  unfold process_message. rewrite decide_True by done.
  unfold _start_analysis_workflow. rewrite Hts. simpl.
  unfold get_memory, update_memory. simpl. rewrite lookup_insert_eq. simpl.
  destruct (content m) as [| | | | |d] eqn:Hd; try done.
  destruct (decompose_cases d) as (ts' & Hts' & Hcases).
  assert (ts' = ts) as -> by congruence.
  destruct Hcases as [(-> & _)|(_ & u1 & u2 & u3 & -> & I1 & D1 & I2 & D2 & I3 & D3)];
    [done|].
  injection H0 as ->.
  set (self3 := with_memory _ _).
  assert (_assign_task (uuid 0) (clock 0) t1 (message_id m) self3 = Ret
            (send_message (uuid 0) (clock 0) a
               (PDict (<["task" := task_dict t1]> (<["analysis_id" := PStr (message_id m)]> ∅)))
               "task_assignment" (Some (task_id t1))
               (with_active_tasks
                  (<[task_id t1 := mkActiveTask t1 "assigned" (message_id m) None (Some a)]>
                     (active_tasks self3)) self3))) as Hone.
  { apply assign_task_assigns; [by rewrite D1|done|done]. }
  cbn [assign_each]. rewrite Hone. simpl.
  set (self4 := send_message _ _ _ _ _ _ _).
  assert (task_results self4 = ∅) as Hres4.
  { unfold self4. by rewrite send_message_results. }
  rewrite (assign_task_parks _ _ u2 _ self4 _ _ D2) by (by rewrite Hres4). simpl.
  set (self5 := with_active_tasks _ self4).
  rewrite (assign_task_parks _ _ u3 _ self5 _ _ D3)
    by (change (task_results self5) with (task_results self4); by rewrite Hres4).
  simpl.
  eexists. split; [done|]. simpl.
  assert (active_tasks self4 =
            <[task_id t1 := mkActiveTask t1 "assigned" (message_id m) None (Some a)]>
              (active_tasks self)) as Hact4.
  { unfold self4, send_message. by destruct (message_handler _). }
  split; [|split; [|split; [done|]]].
  - unfold self4, send_message. simpl. by rewrite Hhandler.
  - rewrite Hact4, I1, I2, I3.
    rewrite lookup_insert_ne by done. rewrite lookup_insert_ne by done.
    by rewrite lookup_insert_eq.
  - intros i t Hpos Hi. destruct i as [|[|[|i]]]; [lia| | |done]; injection Hi as <-.
    + rewrite I2, I3. rewrite lookup_insert_ne by done. by rewrite lookup_insert_eq.
    + by rewrite lookup_insert_eq.
Qed.

Lemma only_first_task_is_dispatched_witness :
  ∃ self', process_message draw_id (λ k, 1 + k) trend_request staffed = Ret self' ∧
    handed_over self' =
      handed_over staffed ++
        [assignment_message (draw_id 0) (1 + 0) staffed "data_expert" trend_collection
           (message_id trend_request)] ∧
    active_tasks self' !! task_id trend_collection =
      Some (mkActiveTask trend_collection "assigned" (message_id trend_request) None
              (Some "data_expert")) ∧
    length trend_tasks = 3 ∧
    ∀ i t, 0 < i → trend_tasks !! i = Some t →
      active_tasks self' !! task_id t = Some (waiting_entry t (message_id trend_request)).
Proof.
  apply (only_first_task_is_dispatched draw_id (λ k, 1 + k) trend_request staffed
           trend_tasks trend_collection "data_expert").
  - reflexivity.
  - vm_compute; reflexivity.
  - vm_compute; reflexivity.
  - reflexivity.
  - reflexivity.
  - vm_compute; reflexivity.
  - done.
Defined.

End BusinessAnalysisExtras.
